(** * dynamic-skills: transcript tracker, skill store, manager and observer loops

    A shallow embedding of the Python sources under [src/dynamic_skills]
    ([tracker.py], [skill.py], [observer.py], [agent.py]) together with the
    properties the specification states about them.

    Conventions.
    - A Python [str] is a list of Unicode code points ([pystr]); [len] is the
      list length, exactly as in Python.
    - A Python [bytes] value is a list of integers in [0, 256).
    - Python [int] is [Z].
    - A Python [dict] compared with [==] is a [gmap]; a handler that raises is
      an [outcome] with a [Raise] case. *)

From Stdlib Require Import ZArith Lia List String Ascii Bool DecimalString.
From stdpp Require Import base list gmap sorting.
Import ListNotations.
Open Scope Z_scope.

(** ** Python strings *)

Module Py.

Definition char := Z.
Definition pystr := list char.

(** ASCII literals of the sources, as code point lists. *)
Definition lit (s : string) : pystr :=
  map (fun a => Z.of_nat (nat_of_ascii a)) (list_ascii_of_string s).

Definition NL : char := 10.
Definition COMMA : char := 44.
Definition COLON : char := 58.

Fixpoint str_eqb (a b : pystr) : bool :=
  match a, b with
  | [], [] => true
  | x :: a', y :: b' => (x =? y) && str_eqb a' b'
  | _, _ => false
  end.

(** [str.isspace] on one code point: the characters CPython classifies as
    whitespace ([_PyUnicode_IsWhitespace]). *)
Definition is_space (c : char) : bool :=
  ((9 <=? c) && (c <=? 13)) || ((28 <=? c) && (c <=? 32))
  || (c =? 133) || (c =? 160) || (c =? 5760)
  || ((8192 <=? c) && (c <=? 8202))
  || (c =? 8232) || (c =? 8233) || (c =? 8239) || (c =? 8287) || (c =? 12288).

Fixpoint lstrip (s : pystr) : pystr :=
  match s with
  | [] => []
  | c :: s' => if is_space c then lstrip s' else s
  end.

Definition rstrip (s : pystr) : pystr := rev (lstrip (rev s)).

(** [s.strip()] *)
Definition strip (s : pystr) : pystr := rstrip (lstrip s).

(** [s.startswith(p)] *)
Fixpoint startswith (s p : pystr) : bool :=
  match p, s with
  | [], _ => true
  | x :: p', y :: s' => (x =? y) && startswith s' p'
  | _ :: _, [] => false
  end.

(** [s.endswith(p)] *)
Definition endswith (s p : pystr) : bool := startswith (rev s) (rev p).

(** [sep in s] for a one-character [sep]. *)
Definition contains (s : pystr) (c : char) : bool := existsb (Z.eqb c) s.

(** [s.split(sep)] for a one-character separator: the sources only split on
    ["\n"], [","] and [":"].  [cur] is the piece being read, reversed. *)
Fixpoint split_go (sep : char) (s cur : pystr) : list pystr :=
  match s with
  | [] => [rev cur]
  | c :: s' =>
      if c =? sep then rev cur :: split_go sep s' []
      else split_go sep s' (c :: cur)
  end.

Definition split (s : pystr) (sep : char) : list pystr := split_go sep s [].

(** [s.split(sep, 1)]: at most one cut, at the first separator. *)
Fixpoint split1_go (sep : char) (s cur : pystr) : list pystr :=
  match s with
  | [] => [rev cur]
  | c :: s' =>
      if c =? sep then [rev cur; s'] else split1_go sep s' (c :: cur)
  end.

Definition split1 (s : pystr) (sep : char) : list pystr := split1_go sep s [].

(** [sep.join(parts)] *)
Fixpoint join (sep : pystr) (parts : list pystr) : pystr :=
  match parts with
  | [] => []
  | [p] => p
  | p :: ps => p ++ sep ++ join sep ps
  end.

(** [s.replace(old, new)]: every non-overlapping occurrence, left to right.
    [skip] counts the characters of a matched occurrence still to be dropped. *)
Fixpoint replace_go (old new s : pystr) (skip : nat) : pystr :=
  match s with
  | [] => []
  | c :: s' =>
      match skip with
      | S k => replace_go old new s' k
      | O =>
          if startswith s old
          then new ++ replace_go old new s' (Nat.pred (length old))
          else c :: replace_go old new s' O
      end
  end.

Definition replace (s old new : pystr) : pystr :=
  match old with
  | [] => new ++ flat_map (fun c => c :: new) s
  | _ :: _ => replace_go old new s O
  end.

(** [s.lower()], restricted to the ASCII letters.  The sources only compare
    the result with ["none"], and no character outside ASCII lowercases to
    one of the letters n, o, e, so the comparison is decided exactly. *)
Definition lower_char (c : char) : char :=
  if (65 <=? c) && (c <=? 90) then c + 32 else c.

Definition lower (s : pystr) : pystr := map lower_char s.

(** Truth value of a string: [if s:] *)
Definition truthy (s : pystr) : bool :=
  match s with [] => false | _ :: _ => true end.

(** What a text-mode read makes of a text (universal newlines): ["\r\n"]
    and a lone ["\r"] are read as ["\n"]. *)
Fixpoint universal_newlines (s : pystr) : pystr :=
  match s with
  | [] => []
  | c :: s' =>
      if c =? 13 then
        match s' with
        | c2 :: s'' =>
            if c2 =? 10 then 10 :: universal_newlines s''
            else 10 :: universal_newlines s'
        | [] => [10]
        end
      else c :: universal_newlines s'
  end.

End Py.

Import Py.

(** ** Outcomes, UTF-8 and messages *)

(** The exceptions the modelled code can let escape. *)
Inductive exn :=
| UnicodeEncodeError
| UnicodeDecodeError
| AttributeError
| TypeError
| OSError
| OverflowError
| ValueError
| EngineError.

(** The result of a call that either returns or raises. *)
Inductive outcome (A : Type) :=
| Ok (a : A)
| Raise (e : exn).
Arguments Ok {A} a.
Arguments Raise {A} e.

(** Whether a call returned. *)
Definition is_ok {A} (o : outcome A) : bool :=
  match o with Ok _ => true | Raise _ => false end.

Module Utf8.

Definition bytes := list Z.

(** A code point that [str.encode("utf-8")] accepts: a Unicode scalar value. *)
Definition is_scalar (c : char) : bool :=
  ((0 <=? c) && (c <? 55296)) || ((57344 <=? c) && (c <? 1114112)).

(** The UTF-8 encoding of one scalar value; [None] is [UnicodeEncodeError]
    (a surrogate). *)
Definition encode_char (c : char) : option bytes :=
  if negb (is_scalar c) then None
  else if c <? 128 then Some [c]
  else if c <? 2048 then Some [192 + c / 64; 128 + c mod 64]
  else if c <? 65536 then
    Some [224 + c / 4096; 128 + (c / 64) mod 64; 128 + c mod 64]
  else
    Some [240 + c / 262144; 128 + (c / 4096) mod 64;
          128 + (c / 64) mod 64; 128 + c mod 64].

(** [s.encode("utf-8")] *)
Fixpoint encode (s : pystr) : option bytes :=
  match s with
  | [] => Some []
  | c :: s' =>
      match encode_char c, encode s' with
      | Some b, Some bs => Some (b ++ bs)
      | _, _ => None
      end
  end.

Definition is_cont (b : Z) : bool := (128 <=? b) && (b <=? 191).

(** Admissible second byte after the lead byte [b0] of a three-byte sequence
    (no overlong forms, no surrogates). *)
Definition second3 (b0 b1 : Z) : bool :=
  if b0 =? 224 then (160 <=? b1) && (b1 <=? 191)
  else if b0 =? 237 then (128 <=? b1) && (b1 <=? 159)
  else is_cont b1.

(** Admissible second byte after the lead byte [b0] of a four-byte sequence. *)
Definition second4 (b0 b1 : Z) : bool :=
  if b0 =? 240 then (144 <=? b1) && (b1 <=? 191)
  else if b0 =? 244 then (128 <=? b1) && (b1 <=? 143)
  else is_cont b1.

(** CPython's UTF-8 decoder as a scan of the input: [Some c] for a decoded
    character, [None] where the decoder reports an error.  After an invalid
    start byte it resumes one byte later; after an invalid continuation byte
    it resumes at that byte; a sequence cut off by the end of the input is one
    error. *)
Fixpoint scan (bs : bytes) : list (option char) :=
  match bs with
  | [] => []
  | b0 :: r0 =>
      if b0 <? 128 then Some b0 :: scan r0
      else if (194 <=? b0) && (b0 <=? 223) then
        match r0 with
        | [] => [None]
        | b1 :: r1 =>
            if is_cont b1
            then Some ((b0 - 192) * 64 + (b1 - 128)) :: scan r1
            else None :: scan r0
        end
      else if (224 <=? b0) && (b0 <=? 239) then
        match r0 with
        | [] => [None]
        | b1 :: r1 =>
            if second3 b0 b1 then
              match r1 with
              | [] => [None]
              | b2 :: r2 =>
                  if is_cont b2
                  then Some ((b0 - 224) * 4096 + (b1 - 128) * 64 + (b2 - 128))
                       :: scan r2
                  else None :: scan r1
              end
            else None :: scan r0
        end
      else if (240 <=? b0) && (b0 <=? 244) then
        match r0 with
        | [] => [None]
        | b1 :: r1 =>
            if second4 b0 b1 then
              match r1 with
              | [] => [None]
              | b2 :: r2 =>
                  if is_cont b2 then
                    match r2 with
                    | [] => [None]
                    | b3 :: r3 =>
                        if is_cont b3
                        then Some ((b0 - 240) * 262144 + (b1 - 128) * 4096
                                   + (b2 - 128) * 64 + (b3 - 128)) :: scan r3
                        else None :: scan r2
                    end
                  else None :: scan r1
              end
            else None :: scan r0
        end
      else None :: scan r0
  end.

(** [b.decode("utf-8", errors="ignore")]: the errors are dropped. *)
Definition decode_ignore (bs : bytes) : pystr := omap id (scan bs).

(** [b.decode("utf-8")] (strict): [None] is [UnicodeDecodeError]. *)
Definition decode_strict (bs : bytes) : option pystr := mapM id (scan bs).

(** The slice [b[:n]] for an arbitrary Python integer [n]. *)
Definition slice_to {A} (l : list A) (n : Z) : list A :=
  if 0 <=? n then firstn (Z.to_nat n) l
  else firstn (Z.to_nat (Z.of_nat (length l) + n)) l.

End Utf8.

(** A normalized conversation turn [{"role": .., "content": ..}]. *)
Record message := Message { role : pystr; content : pystr }.

(** [len(s)] *)
Definition len {A} (l : list A) : Z := Z.of_nat (length l).

(** ** Paths ([pathlib]) *)

Module PathLib.

Definition SLASH : char := 47.
Definition DOT : char := 46.

(** [PurePath.stem]: the name without its last suffix; a name whose only dot
    is the first or the last character has no suffix. *)
Fixpoint last_dot (rev_name after : pystr) : option (pystr * pystr) :=
  match rev_name with
  | [] => None
  | c :: r => if c =? 46 then Some (rev r, after) else last_dot r (c :: after)
  end.

Definition stem (name : pystr) : pystr :=
  match last_dot (rev name) [] with
  | Some (before, after) =>
      if truthy before && truthy after then before else name
  | None => name
  end.

(** The components of a relative path string: empty components and ["."]
    are dropped, [".."] is kept. *)
Definition components (name : pystr) : list pystr :=
  List.filter (fun c => truthy c && negb (str_eqb c [DOT])) (split name SLASH).

(** [base / name]: an absolute [name] replaces [base]. *)
Definition joinpath (base : list pystr) (name : pystr) : list pystr :=
  if startswith name [SLASH] then components name
  else base ++ components name.

(** The directory entry a component list denotes once [".."] is followed
    (no symbolic links). *)
Definition resolve (p : list pystr) : list pystr :=
  fold_left
    (fun acc c => if str_eqb c [DOT; DOT] then removelast acc else acc ++ [c])
    p [].

End PathLib.

(** ** Transcript tracker ([tracker.py]) *)

Module Tracker.

(** The values [json.loads] produces.  An object keeps its members in
    document order; of a number the tracker can only observe whether it is
    zero, through its truth value. *)
#[warnings="-register-all"]
Inductive json :=
| JNull
| JBool (b : bool)
| JInt (n : Z)
| JFloat (mantissa exponent : Z)
| JStr (s : pystr)
| JArr (items : list json)
| JObj (members : list (pystr * json)).

(** [d.get(key, default)] on the dict of an object: of several members with
    one key the last one wins. *)
Fixpoint get (members : list (pystr * json)) (key : pystr) (default : json)
  : json :=
  match members with
  | [] => default
  | (k, v) :: rest =>
      if str_eqb k key then get rest key v else get rest key default
  end.

(** Truth value of a JSON value: [if not content]. *)
Definition json_truthy (v : json) : bool :=
  match v with
  | JNull => false
  | JBool b => b
  | JInt n => negb (n =? 0)
  | JFloat m _ => negb (m =? 0)
  | JStr s => truthy s
  | JArr items => match items with [] => false | _ => true end
  | JObj members => match members with [] => false | _ => true end
  end.

Definition is_str (v : json) (s : pystr) : bool :=
  match v with
  | JStr s' => str_eqb s' s
  | _ => false
  end.

(** The dict [{"role": role, "content": content}] as the tracker builds it:
    both values are whatever the transcript record held. *)
Record entry_message := EntryMessage { em_role : json; em_content : json }.

(** The message proper, when role and content are strings. *)
Definition as_message (m : entry_message) : option message :=
  match em_role m, em_content m with
  | JStr r, JStr c => Some (Message r c)
  | _, _ => None
  end.

(** The list comprehension over content blocks followed by ["\n".join]:
    [block.get("text", "")] of the dict blocks whose type is ["text"];
    joining a part that is not a string raises [TypeError]. *)
Fixpoint text_parts (blocks : list json) : outcome (list pystr) :=
  match blocks with
  | [] => Ok []
  | JObj members :: rest =>
      if is_str (get members (lit "type") JNull) (lit "text") then
        match get members (lit "text") (JStr []), text_parts rest with
        | JStr s, Ok parts => Ok (s :: parts)
        | JStr _, Raise e => Raise e
        | _, _ => Raise TypeError
        end
      else text_parts rest
  | _ :: rest => text_parts rest
  end.

(** [parse_jsonl_entry]: [Ok None] is "not a message"; a value without
    [.get] where a dict is expected raises [AttributeError]. *)
Definition parse_jsonl_entry (entry : json) : outcome (option entry_message) :=
  match entry with
  | JObj members =>
      let entry_type := get members (lit "type") JNull in
      if negb (is_str entry_type (lit "user")
               || is_str entry_type (lit "assistant"))
      then Ok None
      else
        match get members (lit "message") (JObj []) with
        | JObj message =>
            let role := get message (lit "role") entry_type in
            let content := get message (lit "content") (JStr []) in
            let content' :=
              match content with
              | JArr blocks =>
                  match text_parts blocks with
                  | Ok parts => Ok (JStr (join [NL] parts))
                  | Raise e => Raise e
                  end
              | _ => Ok content
              end in
            match content' with
            | Raise e => Raise e
            | Ok c =>
                if negb (json_truthy c) then Ok None
                else Ok (Some (EntryMessage role c))
            end
        | _ => Raise AttributeError
        end
  | _ => Raise AttributeError
  end.

(** The lines a text-mode file yields ([for line in f], universal newlines):
    a line ends after ["\n"], ["\r\n"] or ["\r"], each read as ["\n"]; the
    last line may lack its terminator.  [cur] is the line being read,
    reversed. *)
Fixpoint lines_go (s cur : pystr) : list pystr :=
  match s with
  | [] => match cur with [] => [] | _ :: _ => [rev cur] end
  | c :: s' =>
      if c =? 10 then rev (10 :: cur) :: lines_go s' []
      else if c =? 13 then
        match s' with
        | c2 :: s'' =>
            if c2 =? 10 then rev (10 :: cur) :: lines_go s'' []
            else rev (10 :: cur) :: lines_go s' []
        | [] => [rev (10 :: cur)]
        end
      else lines_go s' (c :: cur)
  end.

Definition file_lines (text : pystr) : list pystr := lines_go text [].

(** A transcript file as a directory scan finds it: its bytes, and whether
    [open] succeeds ([PermissionError] otherwise). *)
Record file := File { f_bytes : Utf8.bytes; f_readable : bool }.

Definition st_size (f : file) : Z := len (f_bytes f).

Section WithJson.

(** [json.loads] on one line: [None] is [json.JSONDecodeError], the one
    exception of [json.loads] that the loop catches. *)
Variable json_loads : pystr -> option json.

(** The body of [for line in f] in [read_messages_from_position]. *)
Definition read_line (acc : outcome (list entry_message)) (line0 : pystr)
  : outcome (list entry_message) :=
  match acc with
  | Raise e => Raise e
  | Ok messages =>
      let line := strip line0 in
      if truthy line then
        match json_loads line with
        | None => Ok messages
        | Some entry =>
            match parse_jsonl_entry entry with
            | Raise e => Raise e
            | Ok (Some parsed) => Ok (messages ++ [parsed])
            | Ok None => Ok messages
            end
        end
      else Ok messages
  end.

(** [read_messages_from_position]: the file is opened in text mode (UTF-8),
    positioned at the byte offset [last_position] and read to its end;
    [f.tell()] is then the offset reached.  The call returns exactly when
    the rest of the file decodes and no line raises.  When both fail, the
    code raises whichever it meets first as it decodes the file block by
    block; here the decoding error is the one reported. *)
Definition read_messages_from_position (conv_file : file) (last_position : Z)
  : outcome (list entry_message * Z) :=
  if negb (f_readable conv_file) then Ok ([], last_position)
  else if last_position <? 0 then Raise ValueError
  else
    let data := skipn (Z.to_nat last_position) (f_bytes conv_file) in
    match Utf8.decode_strict data with
    | None => Raise UnicodeDecodeError
    | Some text =>
        match fold_left read_line (file_lines text) (Ok []) with
        | Raise e => Raise e
        | Ok messages => Ok (messages, last_position + len data)
        end
    end.

(** One file under the cache directory, as [rglob] and [stat] see it. *)
Record cache_entry := CacheEntry {
  ce_path : pystr;     (* [str(f)] *)
  ce_name : pystr;     (* [f.name] *)
  ce_mtime : Z;        (* [f.stat().st_mtime] *)
  ce_file : file
}.

(** The cache directory at the time of one call: [None] when it does not
    exist, else its files in the order [rglob] walks them. *)
Definition cache_dir := option (list cache_entry).

(** Stable insertion for [sorted(files, key=mtime, reverse=True)]. *)
Fixpoint insert_by_mtime (x : cache_entry) (l : list cache_entry)
  : list cache_entry :=
  match l with
  | [] => [x]
  | y :: l' =>
      if ce_mtime x <=? ce_mtime y then y :: insert_by_mtime x l'
      else x :: l
  end.

Definition find_conversation_files (d : cache_dir) : list cache_entry :=
  match d with
  | None => []
  | Some entries =>
      let files :=
        List.filter
          (fun f => endswith (ce_name f) (lit ".jsonl")
                    && negb (startswith (PathLib.stem (ce_name f)) (lit "agent-")))
          entries in
      fold_left (fun acc f => insert_by_mtime f acc) files []
  end.

(** The fields of a [ConversationTracker]. *)
Record tracker := Tracker {
  file_position : Z;
  current_file : option pystr;
  skip_existing : bool;
  initialized : bool
}.

(** [ConversationTracker.__init__] *)
Definition init (skip_existing : bool) : tracker :=
  Tracker 0 None skip_existing false.

Definition same_file (current : option pystr) (file_key : pystr) : bool :=
  match current with
  | Some p => str_eqb p file_key
  | None => false
  end.

(** [ConversationTracker.update]: the tracker after the call and what the
    call returns or raises. *)
Definition update (self : tracker) (d : cache_dir)
  : tracker * outcome (list entry_message) :=
  match find_conversation_files d with
  | [] => (self, Ok [])
  | most_recent :: _ =>
      let file_key := ce_path most_recent in
      let switched := negb (same_file (current_file self) file_key) in
      if switched && skip_existing self && negb (initialized self) then
        (Tracker (st_size (ce_file most_recent)) (Some file_key)
                 (skip_existing self) true,
         Ok [])
      else
        let position := if switched then 0 else file_position self in
        match read_messages_from_position (ce_file most_recent) position with
        | Ok (messages, new_pos) =>
            (Tracker new_pos (Some file_key) (skip_existing self) true,
             Ok messages)
        | Raise e =>
            (Tracker position (Some file_key) (skip_existing self)
                     (initialized self),
             Raise e)
        end
  end.

(** The trackers after each of a sequence of [update] calls, one per
    snapshot of the cache directory, the starting tracker first. *)
Fixpoint states (self : tracker) (snaps : list cache_dir) : list tracker :=
  match snaps with
  | [] => [self]
  | d :: rest => self :: states (fst (update self d)) rest
  end.

End WithJson.

End Tracker.

(** ** Skill directories and PID files ([skill.py], [utils.py]) *)

Module Skill.

Import PathLib.

(** A file system: the entry at each absolute path, given by its components.
    The root is the empty path and always a directory.  Permissions are not
    modelled: every entry can be read, written and removed.  The operations
    take a path as [pathlib] holds it and follow its [".."] components.
    A file is given by the text that its bytes encode in UTF-8; files that
    hold anything else are not modelled. *)
Inductive node :=
| File (text : pystr)
| Dir.

Abbreviation fs := (gmap (list pystr) node).

(** The entry at a path without [".."]. *)
Definition entry (m : fs) (r : list pystr) : option node :=
  match r with
  | [] => Some Dir
  | _ :: _ => m !! r
  end.

(** [path.exists()] *)
Definition exists_ (m : fs) (p : list pystr) : bool :=
  match entry m (resolve p) with Some _ => true | None => false end.

(** [path.is_dir()] *)
Definition is_dir (m : fs) (p : list pystr) : bool :=
  match entry m (resolve p) with Some Dir => true | _ => false end.

(** [path.mkdir(parents=True, exist_ok=True)]: every prefix of the path is
    made a directory; a file in the way raises.  [made] is the prefix
    already handled. *)
Fixpoint mkdir_parents (m : fs) (made todo : list pystr) : outcome fs :=
  match todo with
  | [] => Ok m
  | c :: rest =>
      let here := made ++ [c] in
      match entry m (resolve here) with
      | Some Dir => mkdir_parents m here rest
      | Some (File _) => Raise OSError
      | None => mkdir_parents (<[resolve here := Dir]> m) here rest
      end
  end.

(** [path.write_text(content)]: the file is opened for writing, which fails
    on a directory and under a parent that is none, and the text is encoded
    as UTF-8, which raises [UnicodeEncodeError] on a lone surrogate.  An
    outcome keeps no file system after an exception: what a failed call
    leaves behind, here an emptied file, is not followed. *)
Definition write_text (m : fs) (p : list pystr) (content : pystr)
  : outcome fs :=
  let r := resolve p in
  match entry m r with
  | Some Dir => Raise OSError
  | _ =>
      match entry m (removelast r) with
      | Some Dir =>
          match Utf8.encode content with
          | Some _ => Ok (<[r := File content]> m)
          | None => Raise UnicodeEncodeError
          end
      | _ => Raise OSError
      end
  end.

(** [utils.write_file] *)
Definition write_file (m : fs) (p : list pystr) (content : pystr)
  : outcome fs :=
  match mkdir_parents m [] (removelast p) with
  | Raise e => Raise e
  | Ok m1 => write_text m1 p content
  end.

(** [path.read_text()] of a file that holds [text]: the file is read in
    text mode, which turns every line end into ["\n"]. *)
Definition read_text (text : pystr) : pystr := universal_newlines text.

(** [utils.read_file] *)
Definition read_file (m : fs) (p : list pystr) : outcome pystr :=
  match entry m (resolve p) with
  | Some (File text) => Ok (read_text text)
  | Some Dir => Raise OSError
  | None => Ok []
  end.

Definition index_path (base_dir : list pystr) := base_dir ++ [lit "index.md"].
Definition details_path (base_dir : list pystr) :=
  base_dir ++ [lit "details.md"].
Definition resource_path (base_dir : list pystr) (name : pystr) :=
  joinpath base_dir name.

Definition write_index m base_dir content :=
  write_file m (index_path base_dir) content.
Definition write_details m base_dir content :=
  write_file m (details_path base_dir) content.
Definition write_resource m base_dir name content :=
  write_file m (resource_path base_dir name) content.

(** The name of [p] inside [dir], when [p] is an entry of [dir]. *)
Fixpoint child_name (dir p : list pystr) : option pystr :=
  match dir, p with
  | [], [n] => Some n
  | d :: dir', c :: p' => if str_eqb d c then child_name dir' p' else None
  | _, _ => None
  end.

(** The names [dir.glob(pattern)] yields for a one-component pattern:
    the entries of [dir] whose name [matches]. *)
Definition glob (m : fs) (dir : list pystr) (matches : pystr -> bool)
  : list pystr :=
  if is_dir m dir then
    List.filter matches
      (omap (fun e => child_name (resolve dir) (fst e)) (map_to_list m))
  else [].

Definition reserved (name : pystr) : bool :=
  str_eqb name (lit "index.md") || str_eqb name (lit "details.md").

(** [SkillDir.list_resources] *)
Definition list_resources (m : fs) (base_dir : list pystr) : list pystr :=
  if negb (exists_ m base_dir) then []
  else
    List.filter (fun name => negb (reserved name))
      (glob m base_dir (fun n => endswith n (lit ".md"))).

(** The writes of a [SkillDir], for sequences of them. *)
Inductive op :=
| WriteIndex (content : pystr)
| WriteDetails (content : pystr)
| WriteResource (name content : pystr).

Definition apply_op (base_dir : list pystr) (acc : outcome fs) (o : op)
  : outcome fs :=
  match acc with
  | Raise e => Raise e
  | Ok m =>
      match o with
      | WriteIndex c => write_index m base_dir c
      | WriteDetails c => write_details m base_dir c
      | WriteResource name c => write_resource m base_dir name c
      end
  end.

Definition apply_ops (base_dir : list pystr) (m : fs) (ops : list op)
  : outcome fs :=
  fold_left (apply_op base_dir) ops (Ok m).

(** What [os.kill(pid, 0)] does: it returns, or raises
    [ProcessLookupError] (no such process), [PermissionError] (the process
    exists but may not be signalled) or [OverflowError] (not a C pid). *)
Inductive probe :=
| Signalled
| NoSuchProcess
| NotPermitted
| NotAPid.


(** The pattern [".*.pid"]. *)
Definition is_pid_name (n : pystr) : bool :=
  startswith n [DOT] && endswith n (lit ".pid") && (5 <=? len n).

(** [".{skill_name}.pid"] *)
Definition pid_name (skill_name : pystr) : pystr :=
  [DOT] ++ skill_name ++ lit ".pid".

Section WithOS.

(** [int(text)]: [None] is [ValueError]. *)
Variable py_int : pystr -> option Z.
(** [os.kill(pid, 0)] *)
Variable kill0 : Z -> probe.

(** The body of the [for pid_file in ...] loop of [get_running_observers]:
    the file system and the [running] dict so far, or the exception that
    ended the loop. *)
Definition pid_step (skills_dir : list pystr)
  (acc : fs * outcome (gmap pystr Z)) (n : pystr)
  : fs * outcome (gmap pystr Z) :=
  match acc with
  | (m, Raise e) => (m, Raise e)
  | (m, Ok running) =>
      let pid_file := resolve (skills_dir ++ [n]) in
      let skill_name := skipn 1 (stem n) in
      match entry m pid_file with
      | Some (File text) =>
          match py_int (strip (read_text text)) with
          | None => (delete pid_file m, Ok running)
          | Some pid =>
              match kill0 pid with
              | Signalled => (m, Ok (<[skill_name := pid]> running))
              | NoSuchProcess | NotPermitted =>
                  (delete pid_file m, Ok running)
              | NotAPid => (m, Raise OverflowError)
              end
          end
      | _ => (m, Raise OSError)
      end
  end.

(** [get_running_observers]: the file system after the call and the dict
    returned, or the exception raised. *)
Definition get_running_observers (m : fs) (skills_dir : list pystr)
  : fs * outcome (gmap pystr Z) :=
  if negb (exists_ m skills_dir) then (m, Ok ∅)
  else
    fold_left (pid_step skills_dir) (glob m skills_dir is_pid_name) (m, Ok ∅).

End WithOS.

(** [SkillDir.read_index] and [SkillDir.read_details] *)
Definition read_index (m : fs) (base_dir : list pystr) : outcome pystr :=
  read_file m (index_path base_dir).
Definition read_details (m : fs) (base_dir : list pystr) : outcome pystr :=
  read_file m (details_path base_dir).

(** Python's [<] on [str]: code points, compared lexicographically. *)
Fixpoint str_ltb (a b : pystr) : bool :=
  match a, b with
  | _, [] => false
  | [], _ :: _ => true
  | x :: a', y :: b' =>
      if x <? y then true else if y <? x then false else str_ltb a' b'
  end.

Definition str_le (a b : pystr) : Prop := str_ltb b a = false.

#[global] Instance str_le_dec (a b : pystr) : Decision (str_le a b) :=
  bool_eq_dec (str_ltb b a) false.

(** The names [dir.iterdir()] yields. *)
Definition iterdir (m : fs) (dir : list pystr) : list pystr :=
  omap (fun e => child_name (resolve dir) (fst e)) (map_to_list m).

(** [list_skills]: [iterdir] on a root that is a file raises
    [NotADirectoryError]. *)
Definition list_skills (m : fs) (skills_dir : list pystr)
  : outcome (list pystr) :=
  if negb (exists_ m skills_dir) then Ok []
  else if negb (is_dir m skills_dir) then Raise OSError
  else
    let dirs :=
      List.filter
        (fun n =>
           is_dir m (skills_dir ++ [n]) && negb (startswith n [DOT])
           && (exists_ m (skills_dir ++ [n; lit "index.md"])
               || exists_ m (skills_dir ++ [n; lit "details.md"])))
        (iterdir m skills_dir) in
    let legacy :=
      map stem (glob m skills_dir (fun n => endswith n (lit ".md"))) in
    let skills : gset pystr := list_to_set (dirs ++ legacy) in
    Ok (merge_sort str_le (elements skills)).

(** [str(pid)] *)
Definition str_int (n : Z) : pystr :=
  lit (DecimalString.NilZero.string_of_int (Z.to_int n)).

Definition pid_path (skills_dir : list pystr) (skill_name : pystr)
  : list pystr :=
  joinpath skills_dir (pid_name skill_name).

(** [write_pid_file]; the path it returns is [pid_path]. *)
Definition write_pid_file (m : fs) (skills_dir : list pystr)
  (skill_name : pystr) (pid : Z) : outcome fs :=
  let pid_file := pid_path skills_dir skill_name in
  match mkdir_parents m [] (removelast pid_file) with
  | Raise e => Raise e
  | Ok m1 => write_text m1 pid_file (str_int pid)
  end.

(** [path.unlink(missing_ok=True)]: a missing file is passed over, a
    directory cannot be unlinked. *)
Definition unlink_missing_ok (m : fs) (p : list pystr) : outcome fs :=
  let r := resolve p in
  match entry m r with
  | Some (File _) => Ok (delete r m)
  | Some Dir => Raise OSError
  | None =>
      match entry m (removelast r) with
      | Some (File _) => Raise OSError
      | _ => Ok m
      end
  end.

(** [remove_pid_file] *)
Definition remove_pid_file (m : fs) (skills_dir : list pystr)
  (skill_name : pystr) : outcome fs :=
  unlink_missing_ok m (pid_path skills_dir skill_name).

End Skill.

(** What one [query] to the reasoning engine produced: the text of the last
    text block, nothing, or an exception. *)
Inductive reply :=
| Text (t : pystr)
| NoText
| Fault.

(** ** Observer: parsing, index cap and loop ([observer.py]) *)

Module Observer.

(** The body of the [for msg in reversed(messages)] loop of
    [truncate_messages], with its [break]. *)
Fixpoint truncate_loop (rev_messages result : list message)
  (total_chars max_chars : Z) : list message :=
  match rev_messages with
  | [] => result
  | msg :: rest =>
      let content0 := content msg in
      let capped := 2000 <? len content0 in
      let content1 :=
        if capped then firstn 2000 content0 ++ lit "..." else content0 in
      let msg1 := if capped then Message (role msg) content1 else msg in
      let msg_chars := len content1 in
      if max_chars <? total_chars + msg_chars then result
      else truncate_loop rest (result ++ [msg1]) (total_chars + msg_chars)
                         max_chars
  end.

Definition truncate_messages (messages : list message) (max_chars : Z)
  : list message :=
  rev (truncate_loop (rev messages) [] 0 max_chars).

(** [DistillResult]: both fields default to [None]. *)
Record DistillResult := MkDistillResult {
  details : option pystr;
  resource_files : option (gmap pystr pystr)
}.

(** The local variables of the line loop of [parse_distill_response]. *)
Record distill_state := DistillState {
  ds_resource_files : gmap pystr pystr;
  ds_main_content_lines : list pystr;
  ds_current_file : option pystr;
  ds_current_file_lines : list pystr
}.

(** [if current_file:] for a value that is [None] or a string. *)
Definition file_open (current_file : option pystr) : option pystr :=
  match current_file with
  | Some f => if truthy f then Some f else None
  | None => None
  end.

(** Saves the block being read, if any, under its file name. *)
Definition save_current (st : distill_state) : gmap pystr pystr :=
  match file_open (ds_current_file st) with
  | Some f =>
      <[f := strip (join [NL] (ds_current_file_lines st))]>
        (ds_resource_files st)
  | None => ds_resource_files st
  end.

Definition distill_line (st : distill_state) (line : pystr) : distill_state :=
  if startswith line (lit "NEW_FILE:") then
    DistillState (save_current st) (ds_main_content_lines st)
                 (Some (strip (replace line (lit "NEW_FILE:") []))) []
  else
    match file_open (ds_current_file st) with
    | Some _ =>
        DistillState (ds_resource_files st) (ds_main_content_lines st)
                     (ds_current_file st) (ds_current_file_lines st ++ [line])
    | None =>
        DistillState (ds_resource_files st) (ds_main_content_lines st ++ [line])
                     (ds_current_file st) (ds_current_file_lines st)
    end.

Definition parse_distill_response (response : pystr) : DistillResult :=
  if negb (truthy response) || str_eqb (strip response) (lit "NO_UPDATE")
  then MkDistillResult None None
  else
    let st := fold_left distill_line (split response NL)
                        (DistillState ∅ [] None []) in
    let resource_files := save_current st in
    let details := strip (join [NL] (ds_main_content_lines st)) in
    MkDistillResult
      (if truthy details then Some details else None)
      (if decide (resource_files = ∅) then None else Some resource_files).

(** [distill_details] after the engine call: the prompt only feeds the
    engine, whose answer is the argument here. *)
Definition distill_details (r : reply) : outcome DistillResult :=
  match r with
  | Fault => Raise EngineError
  | NoText => Ok (MkDistillResult None None)
  | Text t =>
      if truthy t then Ok (parse_distill_response (strip t))
      else Ok (MkDistillResult None None)
  end.

(** The size limit of [summarize_index] (lines 206-213), applied to the
    engine's text. *)
Definition enforce_cap (result0 : pystr) (max_index_size : Z)
  : outcome pystr :=
  let result := strip result0 in
  match Utf8.encode result with
  | None => Raise UnicodeEncodeError
  | Some encoded =>
      if max_index_size <? len encoded
      then Ok (Utf8.decode_ignore (Utf8.slice_to encoded max_index_size))
      else Ok result
  end.

Definition summarize_index (r : reply) (max_index_size : Z)
  : outcome (option pystr) :=
  match r with
  | Fault => Raise EngineError
  | NoText => Ok None
  | Text t =>
      if truthy t then
        match enforce_cap t max_index_size with
        | Ok c => Ok (Some c)
        | Raise e => Raise e
        end
      else Ok None
  end.

(** The fields of [Config] the observer reads. *)
Record config := Config {
  message_threshold : Z;
  max_skill_size : Z;
  max_index_size : Z
}.

(** The loop variables of [run_observer]. *)
Record state := State {
  pending_messages : list message;
  distill_count : Z;
  shutdown_requested : bool
}.

(** What one pass through the loop body meets: the tracker's new messages,
    the engine's answers, and the points at which a SIGTERM or SIGINT sets
    [shutdown_requested] (the handler only sets the flag). *)
Record tick := Tick {
  new_messages : list message;
  signal_polling : bool;       (* after the loop test, before line 274 *)
  distill_reply : reply;
  signal_working : bool;       (* after line 274, before line 309 *)
  summarize_reply : reply;
  signal_summarizing : bool;   (* after line 309, before line 327 *)
  signal_sleeping : bool       (* during [asyncio.sleep] *)
}.

(** The effects of the loop on the store and on the engine. *)
Inductive event :=
| Distill (batch : list message)
| WriteDetails (d : pystr)
| WriteResources (files : gmap pystr pystr)
| Summarize (d : pystr)
| WriteIndex (c : pystr)
| Sleep.

(** How a pass through the loop body ends. *)
Inductive status :=
| Continue            (* reaches [asyncio.sleep] *)
| Stopped             (* [break] at line 327 *)
| Crashed (e : exn).  (* an exception leaves the loop *)

(** [if result.details:] and [if result.resource_files:] *)
Definition truthy_details (r : DistillResult) : option pystr :=
  match details r with
  | Some d => if truthy d then Some d else None
  | None => None
  end.

Definition truthy_resources (r : DistillResult) : option (gmap pystr pystr) :=
  match resource_files r with
  | Some files => if decide (files = ∅) then None else Some files
  | None => None
  end.

(** Lines 308-321: the index update after a successful distillation.
    [shutdown] is the flag as the test of line 309 reads it. *)
Definition update_index (cfg : config) (t : tick) (d : pystr)
  (count : Z) (shutdown : bool) : list event * option exn :=
  if (count mod 3 =? 0) || shutdown then
    match summarize_index (summarize_reply t) (max_index_size cfg) with
    | Raise e => ([Summarize d], Some e)
    | Ok (Some c) =>
        if truthy c then ([Summarize d; WriteIndex c], None)
        else ([Summarize d], None)
    | Ok None => ([Summarize d], None)
    end
  else ([], None).

(** One pass through the body of [while not shutdown_requested] (lines
    258-330), for a pass in which [tracker.update] returns. *)
Definition iteration (cfg : config) (st : state) (t : tick)
  : state * list event * status :=
  let pending := pending_messages st ++ new_messages t in
  let shutdown := shutdown_requested st || signal_polling t in
  let should_distill :=
    (message_threshold cfg <=? len pending)
    || (shutdown && negb (len pending =? 0)) in
  if should_distill && negb (len pending =? 0) then
    match distill_details (distill_reply t) with
    | Raise e =>
        (State pending (distill_count st) shutdown, [Distill pending],
         Crashed e)
    | Ok result =>
        let shutdown1 := shutdown || signal_working t in
        match truthy_details result with
        | Some d =>
            let count := distill_count st + 1 in
            let writes :=
              match truthy_resources result with
              | Some files => [WriteDetails d; WriteResources files]
              | None => [WriteDetails d]
              end in
            match update_index cfg t d count shutdown1 with
            | (evs, Some e) =>
                (State pending count shutdown1,
                 Distill pending :: writes ++ evs, Crashed e)
            | (evs, None) =>
                let shutdown2 := shutdown1 || signal_summarizing t in
                (State [] count shutdown2,
                 Distill pending :: writes ++ evs,
                 if shutdown2 then Stopped else Continue)
            end
        | None =>
            (State [] (distill_count st) shutdown1, [Distill pending],
             if shutdown1 then Stopped else Continue)
        end
    end
  else
    let shutdown1 := shutdown || signal_working t in
    (State pending (distill_count st) shutdown1, [],
     if shutdown1 then Stopped else Continue).

(** The loop: [ticks] is what the environment supplies, pass by pass.  The
    result is the trace of effects and the final state once the loop has
    been left, or [None] while the observer is still running. *)
Fixpoint run (cfg : config) (st : state) (ticks : list tick)
  : list event * option state :=
  if shutdown_requested st then ([], Some st)
  else
    match ticks with
    | [] => ([], None)
    | t :: rest =>
        match iteration cfg st t with
        | (st1, evs, Continue) =>
            let st2 := State (pending_messages st1) (distill_count st1)
                             (shutdown_requested st1 || signal_sleeping t) in
            let '(evs', fin) := run cfg st2 rest in
            (evs ++ Sleep :: evs', fin)
        | (st1, evs, _) => (evs, Some st1)
        end
    end.

(** The state [run_observer] starts its loop in. *)
Definition initial : state := State [] 0 false.

End Observer.

(** ** Manager: decision protocol and loop ([agent.py]) *)

Module Agent.

(** The body of the [for msg in reversed(messages)] loop of
    [truncate_messages], with its [break]. *)
Fixpoint truncate_loop (rev_messages result : list message)
  (total_chars max_chars : Z) : list message :=
  match rev_messages with
  | [] => result
  | msg :: rest =>
      let content0 := content msg in
      let capped := 2000 <? len content0 in
      let content1 :=
        if capped then firstn 2000 content0 ++ lit "..." else content0 in
      let msg1 := if capped then Message (role msg) content1 else msg in
      let msg_chars := len content1 in
      if max_chars <? total_chars + msg_chars then result
      else truncate_loop rest (result ++ [msg1]) (total_chars + msg_chars)
                         max_chars
  end.

Definition truncate_messages (messages : list message) (max_chars : Z)
  : list message :=
  rev (truncate_loop (rev messages) [] 0 max_chars).

Record new_skill := NewSkill { ns_name : pystr; ns_description : pystr }.

(** The dict [{"start": .., "stop": .., "new": .., "reason": ..}]. *)
Record decision := Decision {
  d_start : list pystr;
  d_stop : list pystr;
  d_new : list new_skill;
  d_reason : pystr
}.

(** [[s.strip() for s in skills.split(",") if s.strip()]] *)
Definition names_of (skills : pystr) : list pystr :=
  map strip (List.filter (fun s => truthy (strip s)) (split skills COMMA)).

(** One iteration of the [for line in ...] loop of [parse_skill_decision]. *)
Definition parse_line (result : decision) (line0 : pystr) : decision :=
  let line := strip line0 in
  if startswith line (lit "START:") then
    let skills := strip (replace line (lit "START:") []) in
    if negb (str_eqb (lower skills) (lit "none"))
    then Decision (names_of skills) (d_stop result) (d_new result) (d_reason result)
    else result
  else if startswith line (lit "STOP:") then
    let skills := strip (replace line (lit "STOP:") []) in
    if negb (str_eqb (lower skills) (lit "none"))
    then Decision (d_start result) (names_of skills) (d_new result) (d_reason result)
    else result
  else if startswith line (lit "NEW:") then
    let new_skill := strip (replace line (lit "NEW:") []) in
    if negb (str_eqb (lower new_skill) (lit "none")) && contains new_skill COLON
    then
      match split1 new_skill COLON with
      | [name; desc] =>
          Decision (d_start result) (d_stop result)
                   (d_new result ++ [NewSkill (strip name) (strip desc)])
                   (d_reason result)
      | _ => result
      end
    else result
  else if startswith line (lit "REASON:") then
    Decision (d_start result) (d_stop result) (d_new result)
             (strip (replace line (lit "REASON:") []))
  else result.

Definition parse_skill_decision (response : pystr) : decision :=
  fold_left parse_line (split (strip response) NL) (Decision [] [] [] []).


(** [evaluate_skills] after the engine call. *)
Definition evaluate_skills (r : reply) : outcome decision :=
  match r with
  | Fault => Raise EngineError
  | NoText => Ok (Decision [] [] [] (lit "No response"))
  | Text t =>
      if truthy t then Ok (parse_skill_decision t)
      else Ok (Decision [] [] [] (lit "No response"))
  end.

(** What one pass through the loop body of [run_agent] meets. *)
Record tick := Tick {
  new_messages : list message;
  existing_skills : list pystr;       (* [list_skills(skills_dir)] *)
  running_observers : gmap pystr Z;   (* [get_running_observers(skills_dir)] *)
  eval_reply : reply;
  spawn : pystr -> option Z           (* what [start_observer] returns *)
}.

Inductive event :=
| Evaluate (batch : list message)
| StartObserver (name description : pystr) (include_history : bool)
| StopObserver (name : pystr) (pid : Z).

Inductive status :=
| Continue
| Crashed (e : exn).

(** [pid = start_observer(...); if pid: running[name] = pid] *)
Definition record_started (t : tick) (name : pystr) (running : gmap pystr Z)
  : gmap pystr Z :=
  match spawn t name with
  | Some pid => if pid =? 0 then running else <[name := pid]> running
  | None => running
  end.

(** The three [for] loops that apply a decision (lines 299-330); the
    accumulator is the local [running] dict and the trace so far. *)
Definition apply_new (t : tick) (acc : gmap pystr Z * list event)
  (n : new_skill) : gmap pystr Z * list event :=
  let '(running, evs) := acc in
  let name := ns_name n in
  match running !! name with
  | Some _ => (running, evs)
  | None =>
      (record_started t name running,
       evs ++ [StartObserver name (ns_description n) true])
  end.

Definition apply_start (t : tick) (acc : gmap pystr Z * list event)
  (skill_name : pystr) : gmap pystr Z * list event :=
  let '(running, evs) := acc in
  match running !! skill_name with
  | Some _ => (running, evs)
  | None =>
      if existsb (str_eqb skill_name) (existing_skills t) then
        (record_started t skill_name running,
         evs ++ [StartObserver skill_name
                   (lit "Knowledge about " ++ skill_name) false])
      else (running, evs)
  end.

Definition apply_stop (acc : gmap pystr Z * list event)
  (skill_name : pystr) : gmap pystr Z * list event :=
  let '(running, evs) := acc in
  match running !! skill_name with
  | Some pid => (delete skill_name running, evs ++ [StopObserver skill_name pid])
  | None => (running, evs)
  end.

Definition apply_decision (t : tick) (d : decision) : list event :=
  let acc0 := (running_observers t, []) in
  let acc1 := fold_left (apply_new t) (d_new d) acc0 in
  let acc2 := fold_left (apply_start t) (d_start d) acc1 in
  snd (fold_left apply_stop (d_stop d) acc2).

(** One pass through the body of [while not shutdown_requested] (lines
    273-334): the new value of [pending_messages], the effects, and how the
    pass ends. *)
Definition iteration (agent_message_threshold : Z)
  (pending_messages : list message) (t : tick)
  : list message * list event * status :=
  let pending := pending_messages ++ new_messages t in
  if agent_message_threshold <=? len pending then
    match evaluate_skills (eval_reply t) with
    | Raise e => (pending, [Evaluate pending], Crashed e)
    | Ok d => ([], Evaluate pending :: apply_decision t d, Continue)
    end
  else (pending, [], Continue).

End Agent.

(** ** Instances of the external functions, and the inputs of the examples *)

Module Utils.

Import PathLib.

(** [path_str.replace("/", "-")] *)
Definition cache_name (path_str : pystr) : pystr :=
  replace path_str (lit "/") (lit "-").

(** [get_project_cache_dir]: [home] is [Path.home()] and [path_str] is
    [str(project_path.resolve())]. *)
Definition get_project_cache_dir (home : list pystr) (path_str : pystr)
  : list pystr :=
  joinpath (joinpath (joinpath home (lit ".claude")) (lit "projects"))
           (cache_name path_str).

End Utils.

Module Instances.

Import Tracker.

(** [int] on ASCII decimal literals: an optional sign, then digits with
    single underscores between them. *)
Fixpoint digits_go (s : pystr) (acc : Z) (after_digit : bool) : option Z :=
  match s with
  | [] => if after_digit then Some acc else None
  | c :: s' =>
      if (48 <=? c) && (c <=? 57) then digits_go s' (acc * 10 + (c - 48)) true
      else if (c =? 95) && after_digit then
        match s' with
        | [] => None
        | _ :: _ => digits_go s' acc false
        end
      else None
  end.

Definition int_ascii (text : pystr) : option Z :=
  match strip text with
  | 43 :: r => digits_go r 0 false
  | 45 :: r => option_map Z.opp (digits_go r 0 false)
  | s => digits_go s 0 false
  end.

(** [json.loads] on the fragment of JSON without fractions, exponents and
    [\u] escapes; every other text is rejected. *)
Definition is_json_ws (c : char) : bool :=
  (c =? 32) || (c =? 9) || (c =? 10) || (c =? 13).

Fixpoint skip_ws (s : pystr) : pystr :=
  match s with
  | [] => []
  | c :: s' => if is_json_ws c then skip_ws s' else s
  end.

Definition unescape (e : char) : option char :=
  if e =? 34 then Some 34 else if e =? 92 then Some 92
  else if e =? 47 then Some 47 else if e =? 110 then Some 10
  else if e =? 116 then Some 9 else if e =? 114 then Some 13
  else if e =? 98 then Some 8 else if e =? 102 then Some 12
  else None.

(** The rest of a string literal, after its opening quote. *)
Fixpoint json_string (s acc : pystr) : option (pystr * pystr) :=
  match s with
  | [] => None
  | c :: s' =>
      if c =? 34 then Some (rev acc, s')
      else if c =? 92 then
        match s' with
        | e :: s'' =>
            match unescape e with
            | Some x => json_string s'' (x :: acc)
            | None => None
            end
        | [] => None
        end
      else if c <? 32 then None
      else json_string s' (c :: acc)
  end.

Definition is_digit (c : char) : bool := (48 <=? c) && (c <=? 57).

Fixpoint json_digits (s : pystr) (acc : Z) : Z * pystr :=
  match s with
  | [] => (acc, [])
  | c :: s' =>
      if is_digit c then json_digits s' (acc * 10 + (c - 48)) else (acc, s)
  end.

Definition no_fraction (r : pystr) : bool :=
  match r with
  | c :: _ => negb ((c =? 46) || (c =? 101) || (c =? 69))
  | [] => true
  end.

Definition json_integer (sign : Z) (s : pystr) : option (json * pystr) :=
  match s with
  | d :: _ =>
      if is_digit d then
        let '(n, r) := json_digits s 0 in
        if no_fraction r then Some (JInt (sign * n), r) else None
      else None
  | [] => None
  end.

(** The items of an array after its opening bracket, and the members of an
    object after its opening brace; [value] reads one value. *)
Fixpoint json_items (value : pystr -> option (json * pystr)) (n : nat)
  (s : pystr) (acc : list json) : option (json * pystr) :=
  match n with
  | O => None
  | S n' =>
      match value s with
      | None => None
      | Some (v, r) =>
          match skip_ws r with
          | 44 :: r' => json_items value n' r' (acc ++ [v])
          | 93 :: r' => Some (JArr (acc ++ [v]), r')
          | _ => None
          end
      end
  end.

Fixpoint json_members (value : pystr -> option (json * pystr)) (n : nat)
  (s : pystr) (acc : list (pystr * json)) : option (json * pystr) :=
  match n with
  | O => None
  | S n' =>
      match skip_ws s with
      | 34 :: r =>
          match json_string r [] with
          | None => None
          | Some (k, r1) =>
              match skip_ws r1 with
              | 58 :: r2 =>
                  match value r2 with
                  | None => None
                  | Some (v, r3) =>
                      match skip_ws r3 with
                      | 44 :: r4 => json_members value n' r4 (acc ++ [(k, v)])
                      | 125 :: r4 => Some (JObj (acc ++ [(k, v)]), r4)
                      | _ => None
                      end
                  end
              | _ => None
              end
          end
      | _ => None
      end
  end.

Fixpoint json_value (fuel : nat) (s : pystr) : option (json * pystr) :=
  match fuel with
  | O => None
  | S fuel' =>
      match skip_ws s with
      | [] => None
      | c :: r =>
          if c =? 34 then
            match json_string r [] with
            | Some (t, r') => Some (JStr t, r')
            | None => None
            end
          else if c =? 123 then
            match skip_ws r with
            | 125 :: r' => Some (JObj [], r')
            | _ => json_members (json_value fuel') (length r) r []
            end
          else if c =? 91 then
            match skip_ws r with
            | 93 :: r' => Some (JArr [], r')
            | _ => json_items (json_value fuel') (length r) r []
            end
          else if startswith (c :: r) (lit "true") then
            Some (JBool true, skipn 4 (c :: r))
          else if startswith (c :: r) (lit "false") then
            Some (JBool false, skipn 5 (c :: r))
          else if startswith (c :: r) (lit "null") then
            Some (JNull, skipn 4 (c :: r))
          else if c =? 45 then json_integer (-1) r
          else json_integer 1 (c :: r)
      end
  end.

Definition json_loads_basic (s : pystr) : option json :=
  match json_value (S (length s)) s with
  | Some (v, r) => match skip_ws r with [] => Some v | _ :: _ => None end
  | None => None
  end.

(** A literal in which each apostrophe stands for a double quote. *)
Definition qlit (s : string) : pystr :=
  map (fun c => if c =? 39 then 34 else c) (lit s).

(** The response of the decision-parsing example, with its newlines. *)
Definition decision_example : pystr :=
  lit "START: a, b" ++ [NL] ++ lit "STOP: none" ++ [NL]
  ++ lit "NEW: foo: makes foo" ++ [NL] ++ lit "REASON: x".

(** Transcript lines: two conversational records and a broken one. *)
Definition line_hello : pystr :=
  qlit "{'type': 'user', 'message': {'role': 'user', 'content': 'Hello'}}".
Definition line_broken : pystr := qlit "{'type': 'user', 'message': ".
Definition line_hi : pystr :=
  qlit "{'type': 'assistant', 'message': {'role': 'assistant', 'content': [{'type': 'text', 'text': 'Hi'}, {'type': 'tool_use', 'name': 'read'}]}}".

(** A response whose third character takes two bytes, between blanks. *)
Definition cap_example : pystr := [32] ++ lit "ab" ++ [233] ++ lit "c" ++ [NL].

(** A transcript of three lines, the second one broken, and its file. *)
Definition transcript_bytes : Utf8.bytes :=
  line_hello ++ [NL] ++ line_broken ++ [NL] ++ line_hi ++ [NL].

(** The cache directory at two successive calls: one transcript, which
    grows by a line in between. *)
Definition conv_path : pystr := lit "/cache/conv.jsonl".
Definition snapshot1 : Tracker.cache_dir :=
  Some [Tracker.CacheEntry conv_path (lit "conv.jsonl") 100
          (Tracker.File (line_hello ++ [NL]) true)].
Definition snapshot2 : Tracker.cache_dir :=
  Some [Tracker.CacheEntry conv_path (lit "conv.jsonl") 200
          (Tracker.File (line_hello ++ [NL] ++ line_hi ++ [NL]) true)].
(** A newer transcript appears. *)
Definition snapshot3 : Tracker.cache_dir :=
  Some [Tracker.CacheEntry conv_path (lit "conv.jsonl") 200
          (Tracker.File (line_hello ++ [NL] ++ line_hi ++ [NL]) true);
        Tracker.CacheEntry (lit "/cache/next.jsonl") (lit "next.jsonl") 300
          (Tracker.File (line_hi ++ [NL]) true);
        Tracker.CacheEntry (lit "/cache/agent-7.jsonl") (lit "agent-7.jsonl")
          400 (Tracker.File (line_hello ++ [NL]) true)].

End Instances.

(** ** The truncation of a message batch, in the specification's words *)

Module TruncateSpec.

(** A content longer than 2000 characters is replaced by its first 2000
    characters plus ["..."]. *)
Definition cap_message (m : message) : message :=
  if 2000 <? len (content m)
  then Message (role m) (firstn 2000 (content m) ++ lit "...")
  else m.

(** The characters a batch takes once each message is capped. *)
Definition capped_chars (batch : list message) : Z :=
  fold_right (fun m n => len (content (cap_message m)) + n) 0 batch.

Definition is_suffix (kept messages : list message) : Prop :=
  exists dropped, messages = dropped ++ kept.

(** [kept] is the longest suffix of [messages] within the budget. *)
Definition longest_fitting_suffix (budget : Z) (kept messages : list message)
  : Prop :=
  is_suffix kept messages
  /\ capped_chars kept <= budget
  /\ forall kept', is_suffix kept' messages -> capped_chars kept' <= budget ->
       (length kept' <= length kept)%nat.

(** The characters of a batch as it stands. *)
Definition total_chars (batch : list message) : Z :=
  fold_right (fun m n => len (content m) + n) 0 batch.

End TruncateSpec.

(** ** Claims of the specification that the code does not satisfy as worded *)

Module Stated.

(** "For every name previously written via write_resource(name, text) with
    name not a reserved name, name appears in the result of a subsequent
    list_resources call." *)
Definition written_resources_listed : Prop :=
  forall (m m' : Skill.fs) base_dir name text,
    Skill.write_resource m base_dir name text = Ok m' ->
    Skill.reserved name = false ->
    In name (Skill.list_resources m' base_dir).


(** "For a transcript file containing one malformed (unparseable) line
    between two well-formed conversational lines,
    read_messages_from_position(file, 0) returns exactly the two well-formed
    messages, in file order, and the returned new position is the stream
    position at the end of the last consumed line."  A line of bytes is
    unparseable when [json.loads] accepts no text that it decodes to. *)
Definition malformed_line_skipped : Prop :=
  forall (json_loads : pystr -> option Tracker.json) (l1 l2 : pystr)
         (b1 bad b2 : Utf8.bytes) (e1 e2 : Tracker.json)
         (m1 m2 : Tracker.entry_message),
    Utf8.encode l1 = Some b1 -> Utf8.encode l2 = Some b2 ->
    ~ In 10 (b1 ++ bad ++ b2) -> ~ In 13 (b1 ++ bad ++ b2) ->
    (forall text, Utf8.decode_strict bad = Some text ->
                  json_loads (strip text) = None) ->
    json_loads (strip l1) = Some e1 ->
    Tracker.parse_jsonl_entry e1 = Ok (Some m1) ->
    json_loads (strip l2) = Some e2 ->
    Tracker.parse_jsonl_entry e2 = Ok (Some m2) ->
    Tracker.read_messages_from_position json_loads
      (Tracker.File (b1 ++ [10] ++ bad ++ [10] ++ b2 ++ [10]) true) 0
    = Ok ([m1; m2], len (b1 ++ [10] ++ bad ++ [10] ++ b2 ++ [10])).



End Stated.

(** Inputs of the examples for the observer loop. *)
Module LoopExamples.

Definition cfg : Observer.config := Observer.Config 5 32768 4096.

Definition hello : message := Message (lit "user") (lit "hello").

(** One pass: a message arrives, the shutdown signal comes while polling,
    and the engine answers that nothing needs updating. *)
Definition last_tick : Observer.tick :=
  Observer.Tick [hello] true (Text (lit "NO_UPDATE")) false NoText false false.

(** One pass: five messages are pending and the engine returns details. *)
Definition busy_tick : Observer.tick :=
  Observer.Tick [hello; hello; hello; hello; hello] false
    (Text (lit "# Notes")) true (Text (lit "summary")) false false.

(** The distillation response of the example: a details paragraph, the
    marker line and two lines of content. *)
Definition distill_paragraph : list pystr :=
  [lit "# Main Details"; []; lit "Some content."; []].
Definition distill_line1 : pystr := lit "# Examples".
Definition distill_line2 : pystr := lit "Example 1: foo ".

(** A skills root with one skill directory and two PID files. *)
Definition skills_root : list pystr := [lit "skills"].
Definition skill_base : list pystr := [lit "skills"; lit "web"].
Definition root_fs : Skill.fs :=
  <[ [lit "skills"; lit ".web.pid"] := Skill.File (lit "4242") ]>
    (<[ [lit "skills"; lit ".db.pid"] := Skill.File (lit "17") ]>
       (<[ [lit "skills"; lit ".old.pid"] := Skill.File (lit "not a pid") ]>
          (<[ [lit "skills"] := Skill.Dir ]> ∅))).
(** Only process 4242 can be signalled; process 1 belongs to someone else. *)
Definition probe_example (pid : Z) : Skill.probe :=
  if pid =? 4242 then Skill.Signalled
  else if pid =? 1 then Skill.NotPermitted
  else Skill.NoSuchProcess.

Definition three_writes : list Skill.op :=
  [Skill.WriteResource (lit "ex.md") (lit "x"); Skill.WriteIndex (lit "i");
   Skill.WriteResource (lit "sub/deep.md") (lit "y")].

(** A skills root with a skill directory, a hidden directory, a directory
    without index or details, and two legacy files, one of them named like
    the skill directory. *)
Definition library_fs : Skill.fs :=
  <[ [lit "skills"; lit "web"; lit "index.md"] := Skill.File (lit "w") ]>
    (<[ [lit "skills"; lit "web"] := Skill.Dir ]>
       (<[ [lit "skills"; lit ".cache"; lit "index.md"]
             := Skill.File (lit "c") ]>
          (<[ [lit "skills"; lit ".cache"] := Skill.Dir ]>
             (<[ [lit "skills"; lit "empty"] := Skill.Dir ]>
                (<[ [lit "skills"; lit "web.md"] := Skill.File (lit "old") ]>
                   (<[ [lit "skills"; lit "db.md"] := Skill.File (lit "d") ]>
                      (<[ [lit "skills"] := Skill.Dir ]> ∅))))))).

Definition agent_tick : Agent.tick :=
  Agent.Tick [hello; hello; hello; hello; hello] [lit "a"] ∅
    (Text Instances.decision_example)
    (fun _ => Some 4242).

End LoopExamples.

(** ** Auxiliary functions of the proofs *)

Module Aux.

Import TruncateSpec.

(** How many messages the loop of [truncate_messages] takes from the
    reversed batch. *)
Fixpoint taken (max_chars : Z) (rev_messages : list message)
  (total_chars : Z) : nat :=
  match rev_messages with
  | [] => O
  | m :: rest =>
      let n := len (content (cap_message m)) in
      if max_chars <? total_chars + n then O
      else S (taken max_chars rest (total_chars + n))
  end.

(** The longest prefix of [s] whose UTF-8 encoding takes at most [n]
    bytes. *)
Fixpoint fitting_prefix (n : nat) (s : pystr) : pystr :=
  match s with
  | [] => []
  | c :: s' =>
      match Utf8.encode_char c with
      | Some b =>
          if (length b <=? n)%nat
          then c :: fitting_prefix (n - length b) s'
          else []
      | None => []
      end
  end.

(** What holds of a tracker created with [skip_existing = skip] after any
    number of [update] calls: the flag is never changed, and the tracker has
    observed a file once [current_file] is set, which in skip mode is the
    same as [initialized]. *)
Definition tracker_inv (skip : bool) (t : Tracker.tracker) : Prop :=
  Tracker.skip_existing t = skip
  /\ (Tracker.current_file t = None -> Tracker.initialized t = false)
  /\ (skip = true -> Tracker.initialized t = false ->
      Tracker.current_file t = None).

(** What [get_running_observers] makes of the content of a PID file:
    [Some pid] when it is an integer whose probe returns, [None] when the
    entry is treated as stale. *)
Definition pid_verdict (py_int : pystr -> option Z) (kill0 : Z -> Skill.probe)
  (text : pystr) : option Z :=
  match py_int (strip (Skill.read_text text)) with
  | Some pid =>
      match kill0 pid with
      | Skill.Signalled => Some pid
      | _ => None
      end
  | None => None
  end.

(** The content does not name a pid that [os.kill] cannot take. *)
Definition probeable (py_int : pystr -> option Z) (kill0 : Z -> Skill.probe)
  (text : pystr) : bool :=
  match py_int (strip (Skill.read_text text)) with
  | Some pid =>
      match kill0 pid with
      | Skill.NotAPid => false
      | _ => true
      end
  | None => true
  end.

(** Every PID file of the skills root is a file, and holds nothing
    [os.kill] refuses as a pid. *)
Definition pid_files_probeable (py_int : pystr -> option Z)
  (kill0 : Z -> Skill.probe) (m : Skill.fs) (skills_dir : list pystr) : bool :=
  forallb
    (fun e : list pystr * Skill.node =>
       match Skill.child_name (PathLib.resolve skills_dir) (fst e) with
       | Some n =>
           if Skill.is_pid_name n then
             match snd e with
             | Skill.File text => probeable py_int kill0 text
             | Skill.Dir => false
             end
           else true
       | None => true
       end)
    (map_to_list m).

(** What a call returned, if it returned. *)
Definition returned {A} (o : outcome A) : option A :=
  match o with
  | Ok a => Some a
  | Raise _ => None
  end.

(** The pid a call lists for a skill, if it returned and lists one. *)
Definition listed (o : outcome (gmap pystr Z)) (skill : pystr) : option Z :=
  match o with
  | Ok running => running !! skill
  | Raise _ => None
  end.

(** A transcript the tracker follows: a ".jsonl" file that is not a
    sub-conversation of the SDK. *)
Definition is_conversation (f : Tracker.cache_entry) : bool :=
  endswith (Tracker.ce_name f) (lit ".jsonl")
  && negb (startswith (PathLib.stem (Tracker.ce_name f)) (lit "agent-")).

(** [a] was modified no earlier than [b]. *)
Definition newer_first (a b : Tracker.cache_entry) : Prop :=
  Tracker.ce_mtime b <= Tracker.ce_mtime a.

(** [a] comes strictly before [b] in the order of [sorted]. *)
Definition str_lt (a b : pystr) : Prop := Skill.str_ltb a b = true.

(** A directory of the skills root that counts as a skill. *)
Definition skill_directory (m : Skill.fs) (skills_dir : list pystr)
  (n : pystr) : bool :=
  Skill.is_dir m (skills_dir ++ [n]) && negb (startswith n [PathLib.DOT])
  && (Skill.exists_ m (skills_dir ++ [n; lit "index.md"])
      || Skill.exists_ m (skills_dir ++ [n; lit "details.md"])).

(** Every file name of a parsed response is set and trimmed, and every
    content trimmed. *)
Definition files_trimmed (files : gmap pystr pystr) : Prop :=
  forall k v, files !! k = Some v -> k <> [] /\ strip k = k /\ strip v = v.

Definition state_trimmed (st : Observer.distill_state) : Prop :=
  files_trimmed (Observer.ds_resource_files st)
  /\ forall f, Observer.ds_current_file st = Some f -> strip f = f.

(** The names of a decision are set, trimmed and free of commas; the name
    of a new skill is trimmed and free of colons; descriptions and reason
    are trimmed. *)
Definition name_trimmed (n : pystr) : Prop :=
  n <> [] /\ strip n = n /\ ~ In COMMA n.

Definition decision_trimmed (d : Agent.decision) : Prop :=
  (forall n, In n (Agent.d_start d) -> name_trimmed n)
  /\ (forall n, In n (Agent.d_stop d) -> name_trimmed n)
  /\ (forall ns, In ns (Agent.d_new d) ->
        strip (Agent.ns_name ns) = Agent.ns_name ns
        /\ strip (Agent.ns_description ns) = Agent.ns_description ns
        /\ ~ In COLON (Agent.ns_name ns))
  /\ strip (Agent.d_reason d) = Agent.d_reason d.

(** A file name proper: not empty, without a slash, and neither ["."] nor
    [".."]. *)
Definition plain_name (name : pystr) : bool :=
  truthy name && negb (contains name PathLib.SLASH)
  && negb (str_eqb name [PathLib.DOT])
  && negb (str_eqb name [PathLib.DOT; PathLib.DOT]).

(** A text without line terminators. *)
Definition one_line (l : pystr) : bool :=
  negb (contains l 10) && negb (contains l 13).

(** A line of a response that holds no newline and is not a [NEW_FILE:]
    marker. *)
Definition plain_line (l : pystr) : bool :=
  negb (contains l NL) && negb (startswith l (lit "NEW_FILE:")).

(** An index write whose content is not empty and takes at most
    [max_index_size] bytes in UTF-8. *)
Definition index_fits (max_index_size : Z) (e : Observer.event) : Prop :=
  match e with
  | Observer.WriteIndex c =>
      c <> [] /\ exists b, Utf8.encode c = Some b /\ len b <= max_index_size
  | _ => True
  end.



(** What entitles the manager to an effect of a decision.  An observer is
    started only for a skill that was not running when the pass began: with
    the history for a new skill of the decision, without it for a skill of
    the start list that exists.  An observer is stopped only for a skill of
    the stop list, with the pid it was running under or was just started
    with. *)
Definition decision_event (t : Agent.tick) (d : Agent.decision)
  (e : Agent.event) : Prop :=
  match e with
  | Agent.Evaluate _ => False
  | Agent.StartObserver name description include_history =>
      Agent.running_observers t !! name = None
      /\ if include_history
         then In (Agent.NewSkill name description) (Agent.d_new d)
         else In name (Agent.d_start d)
              /\ In name (Agent.existing_skills t)
              /\ description = lit "Knowledge about " ++ name
  | Agent.StopObserver name pid =>
      In name (Agent.d_stop d)
      /\ (Agent.running_observers t !! name = Some pid
          \/ Agent.spawn t name = Some pid /\ pid <> 0)
  end.

(** The local [running] dict of a pass: every pid in it was there when the
    pass began or is that of an observer just started. *)
Definition running_known (t : Agent.tick) (running : gmap pystr Z) : Prop :=
  forall name pid, running !! name = Some pid ->
    Agent.running_observers t !! name = Some pid
    \/ Agent.spawn t name = Some pid /\ pid <> 0.

(** While observers are started, none is forgotten. *)
Definition running_grown (t : Agent.tick) (running : gmap pystr Z) : Prop :=
  forall name, running !! name = None ->
    Agent.running_observers t !! name = None.


End Aux.

(** * Properties *)

Import Instances.

Example json_loads_basic_hello :
  json_loads_basic line_hello =
  Some (Tracker.JObj [(lit "type", Tracker.JStr (lit "user"));
     (lit "message", Tracker.JObj [(lit "role", Tracker.JStr (lit "user"));
                                   (lit "content", Tracker.JStr (lit "Hello"))])]).
Proof. vm_compute. reflexivity. Qed.

Example json_loads_basic_broken : json_loads_basic line_broken = None.
Proof. vm_compute. reflexivity. Qed.

Example parse_hi :
  option_map Tracker.parse_jsonl_entry (json_loads_basic line_hi) =
  Some (Ok (Some (Tracker.EntryMessage (Tracker.JStr (lit "assistant"))
                                       (Tracker.JStr (lit "Hi"))))).
Proof. vm_compute. reflexivity. Qed.

Example int_ascii_examples :
  int_ascii (lit "12345") = Some 12345 /\ int_ascii (lit "-7") = Some (-7)
  /\ int_ascii (lit "1_000") = Some 1000 /\ int_ascii (lit "12a") = None.
Proof. vm_compute. auto. Qed.

(** ** Message truncation *)

Section Truncate.

Import TruncateSpec Aux.

Variable max_chars : Z.

Lemma observer_loop_cons m rest result total :
  Observer.truncate_loop (m :: rest) result total max_chars =
  if max_chars <? total + len (content (cap_message m)) then result
  else Observer.truncate_loop rest (result ++ [cap_message m])
         (total + len (content (cap_message m))) max_chars.
Proof.
  simpl. unfold cap_message. destruct (2000 <? len (content m)); reflexivity.
Qed.

Lemma agent_loop_cons m rest result total :
  Agent.truncate_loop (m :: rest) result total max_chars =
  if max_chars <? total + len (content (cap_message m)) then result
  else Agent.truncate_loop rest (result ++ [cap_message m])
         (total + len (content (cap_message m))) max_chars.
Proof.
  simpl. unfold cap_message. destruct (2000 <? len (content m)); reflexivity.
Qed.

Lemma observer_loop_taken rm : forall result total,
  Observer.truncate_loop rm result total max_chars =
  result ++ map cap_message (firstn (taken max_chars rm total) rm).
Proof.
  induction rm as [|m rest IH]; intros result total.
  - simpl. now rewrite app_nil_r.
  - rewrite observer_loop_cons. cbn [taken].
    destruct (max_chars <? total + len (content (cap_message m))).
    + simpl. now rewrite app_nil_r.
    + rewrite IH, <- app_assoc. reflexivity.
Qed.

Lemma agent_loop_taken rm : forall result total,
  Agent.truncate_loop rm result total max_chars =
  result ++ map cap_message (firstn (taken max_chars rm total) rm).
Proof.
  induction rm as [|m rest IH]; intros result total.
  - simpl. now rewrite app_nil_r.
  - rewrite agent_loop_cons. cbn [taken].
    destruct (max_chars <? total + len (content (cap_message m))).
    + simpl. now rewrite app_nil_r.
    + rewrite IH, <- app_assoc. reflexivity.
Qed.

Lemma capped_chars_nonneg l : 0 <= capped_chars l.
Proof. induction l; simpl; unfold len in *; lia. Qed.

Lemma capped_chars_app l1 l2 :
  capped_chars (l1 ++ l2) = capped_chars l1 + capped_chars l2.
Proof. induction l1; simpl; lia. Qed.

Lemma capped_chars_rev l : capped_chars (rev l) = capped_chars l.
Proof.
  induction l; simpl; [reflexivity|].
  rewrite capped_chars_app, IHl. simpl. lia.
Qed.

Lemma taken_fits rm : forall total, total <= max_chars ->
  total + capped_chars (firstn (taken max_chars rm total) rm) <= max_chars.
Proof.
  induction rm as [|m rest IH]; intros total Htotal; simpl; [lia|].
  destruct (Z.ltb_spec max_chars (total + len (content (cap_message m))));
    simpl; [lia|].
  specialize (IH (total + len (content (cap_message m)))). lia.
Qed.

Lemma taken_maximal rm : forall total (k : nat),
  total + capped_chars (firstn k rm) <= max_chars -> (k <= length rm)%nat ->
  (k <= taken max_chars rm total)%nat.
Proof.
  induction rm as [|m rest IH]; intros total k Hfit Hk; simpl in *; [lia|].
  destruct k as [|k]; [lia|]. simpl in Hfit.
  pose proof (capped_chars_nonneg (firstn k rest)).
  destruct (Z.ltb_spec max_chars (total + len (content (cap_message m))));
    [lia|].
  apply le_n_S, IH; lia.
Qed.

End Truncate.

Lemma suffix_firstn_rev (kept messages : list message) :
  TruncateSpec.is_suffix kept messages ->
  firstn (length kept) (rev messages) = rev kept.
Proof.
  intros [dropped ->]. rewrite rev_app_distr.
  rewrite <- (length_rev kept), firstn_app, Nat.sub_diag, firstn_all; simpl.
  now rewrite app_nil_r.
Qed.

(** C10. The two [truncate_messages] functions agree on every batch at the
    default budget of 30000 characters, and their common result is the
    longest suffix of the batch whose capped contents total at most 30000
    characters, each message capped to its first 2000 characters plus "...",
    in the order of the batch. *)
Theorem C10_truncate_messages_agree (messages : list message) :
  Agent.truncate_messages messages 30000 =
    Observer.truncate_messages messages 30000
  /\ exists kept,
       TruncateSpec.longest_fitting_suffix 30000 kept messages
       /\ Observer.truncate_messages messages 30000 =
            map TruncateSpec.cap_message kept.
Proof.
  unfold Agent.truncate_messages, Observer.truncate_messages.
  rewrite agent_loop_taken, observer_loop_taken. split; [reflexivity|].
  set (k := Aux.taken 30000 (rev messages) 0).
  exists (rev (firstn k (rev messages))). split.
  - split; [|split].
    + exists (rev (skipn k (rev messages))).
      rewrite <- rev_app_distr, firstn_skipn, rev_involutive. reflexivity.
    + rewrite capped_chars_rev.
      pose proof (taken_fits 30000 (rev messages) 0). fold k in H. lia.
    + intros kept' Hsuf Hfit.
      assert (Hk : (length kept' <= k)%nat).
      { apply taken_maximal.
        - rewrite (suffix_firstn_rev _ _ Hsuf), capped_chars_rev. lia.
        - destruct Hsuf as [dropped ->].
          rewrite length_rev, length_app. lia. }
      rewrite length_rev, length_firstn.
      destruct Hsuf as [dropped ->].
      rewrite length_rev, length_app in *. lia.
  - simpl. now rewrite map_rev.
Qed.

(** ** The decision protocol *)

(** C5. [parse_skill_decision] on the response
    "START: a, b\nSTOP: none\nNEW: foo: makes foo\nREASON: x" yields
    start = ["a", "b"], stop = [] (the sentinel "none"), new = [{name: "foo",
    description: "makes foo"}] and reason = "x". *)
Theorem C5_parse_skill_decision_example :
  Agent.parse_skill_decision decision_example =
  Agent.Decision [lit "a"; lit "b"] []
                 [Agent.NewSkill (lit "foo") (lit "makes foo")] (lit "x").
Proof. vm_compute. reflexivity. Qed.

(** The sentinel is recognised in any letter case. *)
Example parse_skill_decision_none_case :
  Agent.d_start (Agent.parse_skill_decision (lit "START: None")) = []
  /\ Agent.d_stop (Agent.parse_skill_decision (lit "STOP: NONE")) = [].
Proof. vm_compute. auto. Qed.

(** A [NEW:] line without a description is dropped. *)
Example parse_skill_decision_new_without_description :
  Agent.d_new (Agent.parse_skill_decision (lit "NEW: foo")) = [].
Proof. vm_compute. reflexivity. Qed.

(** ** The loops *)

Section ObserverLoop.

Import Observer.




End ObserverLoop.



(** A pass that leaves the loop ends the run: nothing follows it. *)
Lemma run_leaves cfg st t rest :
  Observer.shutdown_requested st = false ->
  (Observer.iteration cfg st t).2 <> Observer.Continue ->
  Observer.run cfg st (t :: rest) =
    ((Observer.iteration cfg st t).1.2, Some (Observer.iteration cfg st t).1.1).
Proof.
  intros Hs Hc. simpl. rewrite Hs.
  destruct (Observer.iteration cfg st t) as [[st1 evs] []]; simpl in *;
    congruence.
Qed.

(** On shutdown with a successful final distillation the index is
    summarized once more, whatever the counter. *)
Example shutdown_after_details_summarizes :
  Observer.run LoopExamples.cfg Observer.initial [LoopExamples.busy_tick] =
  ([Observer.Distill (Observer.new_messages LoopExamples.busy_tick);
    Observer.WriteDetails (lit "# Notes");
    Observer.Summarize (lit "# Notes");
    Observer.WriteIndex (lit "summary")],
   Some (Observer.State [] 1 true)).
Proof. vm_compute. reflexivity. Qed.

(** C4. After a pass of the observer loop in which a distillation was
    attempted and the pass completed, and after a pass of the manager loop
    in which an evaluation was attempted and the pass completed, the pending
    buffer is empty, whatever the engine answered. *)
Theorem C4_pending_cleared_after_attempt
  (cfg : Observer.config) (st : Observer.state) (t : Observer.tick)
  (threshold : Z) (pending : list message) (a : Agent.tick) :
  ((exists batch,
      In (Observer.Distill batch) (Observer.iteration cfg st t).1.2) ->
   (forall e, (Observer.iteration cfg st t).2 <> Observer.Crashed e) ->
   Observer.pending_messages (Observer.iteration cfg st t).1.1 = [])
  /\ ((exists batch,
         In (Agent.Evaluate batch) (Agent.iteration threshold pending a).1.2) ->
      (forall e, (Agent.iteration threshold pending a).2 <> Agent.Crashed e) ->
      (Agent.iteration threshold pending a).1.1 = []).
Proof.
  split.
  - unfold Observer.iteration.
    destruct (_ && negb (len _ =? 0)).
    + destruct (Observer.distill_details _) as [result|x].
      * destruct (Observer.truthy_details result).
        -- destruct (Observer.update_index _ _ _ _ _) as [ievs [e|]]; simpl.
           ++ intros _ H. now destruct (H e).
           ++ reflexivity.
        -- reflexivity.
      * simpl. intros _ H. now destruct (H x).
    + simpl. intros [batch []].
  - unfold Agent.iteration.
    destruct (threshold <=? _).
    + destruct (Agent.evaluate_skills _) as [d|x]; simpl.
      * reflexivity.
      * intros _ H. now destruct (H x).
    + simpl. intros [batch []].
Qed.

(** The attempt of the observer meets "NO_UPDATE" and that of the manager a
    decision; both leave nothing pending. *)
Lemma C4_witness :
  Observer.pending_messages
    (Observer.iteration LoopExamples.cfg Observer.initial
       LoopExamples.last_tick).1.1 = []
  /\ (Agent.iteration 5 [] LoopExamples.agent_tick).1.1 = [].
Proof.
  destruct (C4_pending_cleared_after_attempt LoopExamples.cfg Observer.initial
              LoopExamples.last_tick 5 [] LoopExamples.agent_tick) as [Ho Ha].
  split.
  - apply Ho.
    + exists [LoopExamples.hello]. vm_compute. auto.
    + intros e. vm_compute. discriminate.
  - apply Ha.
    + eexists. vm_compute. left. reflexivity.
    + intros e. vm_compute. discriminate.
Defined.

(** An empty engine answer clears the batch as well. *)
Example empty_answer_clears_pending :
  (Observer.iteration LoopExamples.cfg
     (Observer.State [LoopExamples.hello; LoopExamples.hello;
                      LoopExamples.hello; LoopExamples.hello] 0 false)
     (Observer.Tick [LoopExamples.hello] false NoText false NoText false false))
  = (Observer.State [] 0 false,
     [Observer.Distill [LoopExamples.hello; LoopExamples.hello;
                        LoopExamples.hello; LoopExamples.hello;
                        LoopExamples.hello]],
     Observer.Continue).
Proof. vm_compute. reflexivity. Qed.

(** ** Strings *)

Lemma str_eqb_eq a : forall b, str_eqb a b = true <-> a = b.
Proof.
  induction a as [|x a IH]; intros [|y b]; simpl; split; try congruence;
    try discriminate.
  - intros [Hxy Hab]%andb_true_iff. apply Z.eqb_eq in Hxy. apply IH in Hab.
    congruence.
  - intros [= -> ->]. rewrite Z.eqb_refl. simpl. now apply IH.
Qed.

Lemma str_eqb_refl a : str_eqb a a = true.
Proof. now apply str_eqb_eq. Qed.

Lemma str_eqb_neq a b : a <> b -> str_eqb a b = false.
Proof.
  intros H. destruct (str_eqb a b) eqn:E; [|reflexivity].
  apply str_eqb_eq in E. contradiction.
Qed.

Lemma lstrip_In c s : is_space c = false -> In c (lstrip s) <-> In c s.
Proof.
  intros Hc. induction s as [|x s IH]; simpl; [reflexivity|].
  destruct (is_space x) eqn:Hx; [|reflexivity].
  rewrite IH. split; [auto|]. intros [->|H]; [congruence|assumption].
Qed.

Lemma strip_In c s : is_space c = false -> In c (strip s) <-> In c s.
Proof.
  intros Hc. unfold strip, rstrip.
  rewrite <- in_rev, lstrip_In, <- in_rev, lstrip_In by assumption.
  reflexivity.
Qed.

Lemma contains_In s c : contains s c = true <-> In c s.
Proof.
  unfold contains. rewrite existsb_exists. split.
  - intros (x & Hx & ->%Z.eqb_eq). assumption.
  - intros H. exists c. split; [assumption|apply Z.eqb_refl].
Qed.

Lemma split_go_plain sep l : forall rest cur,
  ~ In sep l ->
  split_go sep (l ++ rest) cur = split_go sep rest (rev l ++ cur).
Proof.
  induction l as [|x l IH]; intros rest cur Hl; simpl; [reflexivity|].
  destruct (Z.eqb_spec x sep) as [->|_]; [destruct Hl; now left|].
  rewrite IH by (intros H; apply Hl; now right).
  now rewrite <- app_assoc.
Qed.

Lemma split_one sep l : ~ In sep l -> split l sep = [l].
Proof.
  intros Hl. unfold split.
  rewrite <- (app_nil_r l) at 1. rewrite split_go_plain by assumption.
  simpl. now rewrite app_nil_r, rev_involutive.
Qed.

Lemma split_cons sep l rest :
  ~ In sep l -> split (l ++ sep :: rest) sep = l :: split rest sep.
Proof.
  intros Hl. unfold split. rewrite split_go_plain by assumption. simpl.
  rewrite Z.eqb_refl, app_nil_r, rev_involutive. reflexivity.
Qed.

(** Splitting undoes joining when no part holds the separator. *)
Lemma split_join sep parts :
  parts <> [] -> Forall (fun l => ~ In sep l) parts ->
  split (join [sep] parts) sep = parts.
Proof.
  induction parts as [|l parts IH]; intros Hne Hall; [contradiction|].
  inversion Hall as [|? ? Hl Hrest]; subst.
  destruct parts as [|l' parts].
  - simpl. now apply split_one.
  - change (join [sep] (l :: l' :: parts))
      with (l ++ sep :: join [sep] (l' :: parts)).
    rewrite split_cons by assumption. f_equal. now apply IH.
Qed.

Lemma join_In c sep before l after :
  In c l -> In c (join sep (before ++ l :: after)).
Proof.
  intros Hc. induction before as [|b before IH]; simpl.
  - destruct after; [assumption|]. apply in_or_app. now left.
  - destruct (before ++ l :: after) eqn:E.
    + now destruct before.
    + apply in_or_app. right. apply in_or_app. now right.
Qed.

(** ** The distillation protocol *)

Section Distill.

Import Observer.

Lemma plain_line_spec l :
  Aux.plain_line l = true ->
  ~ In NL l /\ startswith l (lit "NEW_FILE:") = false.
Proof.
  unfold Aux.plain_line. intros [Hc Hs]%andb_true_iff.
  apply negb_true_iff in Hc, Hs. split; [|assumption].
  intros H%contains_In. congruence.
Qed.

(** Lines before the first marker all go to the main content. *)
Lemma fold_main_lines ls : forall files main cur,
  Forall (fun l => startswith l (lit "NEW_FILE:") = false) ls ->
  fold_left distill_line ls (DistillState files main None cur) =
  DistillState files (main ++ ls) None cur.
Proof.
  induction ls as [|l ls IH]; intros files main cur Hall; simpl.
  - now rewrite app_nil_r.
  - inversion Hall as [|? ? Hl Hrest]; subst.
    unfold distill_line at 2. rewrite Hl. simpl.
    rewrite IH by assumption. now rewrite <- app_assoc.
Qed.

(** A line after a marker that names a file goes to that file. *)
Lemma distill_line_file files main f cur l :
  truthy f = true -> startswith l (lit "NEW_FILE:") = false ->
  distill_line (DistillState files main (Some f) cur) l =
  DistillState files main (Some f) (cur ++ [l]).
Proof. intros Hf Hl. unfold distill_line. rewrite Hl. simpl. now rewrite Hf. Qed.

End Distill.

(** C6. A response made of a details paragraph, the line "NEW_FILE: ex.md"
    and two lines of content parses to the trimmed paragraph as details and
    to the one resource file "ex.md" holding the two lines, trimmed; the
    response "NO_UPDATE" parses to the absent result. *)
Theorem C6_parse_distill_response_example
  (paragraph : list pystr) (l1 l2 : pystr) :
  Forall (fun l => Aux.plain_line l = true) paragraph ->
  Aux.plain_line l1 = true -> Aux.plain_line l2 = true ->
  strip (join [NL] paragraph) <> [] ->
  Observer.parse_distill_response
    (join [NL] (paragraph ++ [lit "NEW_FILE: ex.md"; l1; l2])) =
  Observer.MkDistillResult
    (Some (strip (join [NL] paragraph)))
    (Some {[ lit "ex.md" := strip (join [NL] [l1; l2]) ]})
  /\ Observer.parse_distill_response (lit "NO_UPDATE") =
     Observer.MkDistillResult None None.
Proof.
  intros Hpar H1 H2 Hdetails. split; [|vm_compute; reflexivity].
  apply plain_line_spec in H1 as [Hn1 Hs1], H2 as [Hn2 Hs2].
  assert (Hpn : Forall (fun l => ~ In NL l) paragraph)
    by (eapply Forall_impl; [exact Hpar|]; intros l Hl;
        now apply plain_line_spec in Hl).
  assert (Hps : Forall (fun l => startswith l (lit "NEW_FILE:") = false)
                  paragraph)
    by (eapply Forall_impl; [exact Hpar|]; intros l Hl;
        now apply plain_line_spec in Hl).
  set (response := join [NL] (paragraph ++ [lit "NEW_FILE: ex.md"; l1; l2])).
  assert (Hcolon : In COLON response).
  { apply join_In. vm_compute. tauto. }
  unfold Observer.parse_distill_response.
  assert (Hguard : negb (truthy response)
                   || str_eqb (strip response) (lit "NO_UPDATE") = false).
  { apply orb_false_iff. split.
    - destruct response; [destruct Hcolon|reflexivity].
    - apply str_eqb_neq. intros Heq.
      apply (strip_In COLON) in Hcolon; [|reflexivity].
      rewrite Heq in Hcolon. vm_compute in Hcolon.
      repeat destruct Hcolon as [Hcolon|Hcolon]; try discriminate Hcolon;
        assumption. }
  rewrite Hguard.
  unfold response. rewrite split_join.
  2: { now destruct paragraph. }
  2: { apply Forall_app. split; [assumption|].
       repeat constructor; try assumption.
       vm_compute. intros H. repeat destruct H as [H|H]; try discriminate H;
         assumption. }
  rewrite fold_left_app, fold_main_lines by assumption.
  cbn [fold_left app].
  change (Observer.distill_line (Observer.DistillState ∅ paragraph None [])
            (lit "NEW_FILE: ex.md"))
    with (Observer.DistillState ∅ paragraph (Some (lit "ex.md")) []).
  rewrite !distill_line_file by (reflexivity || assumption).
  unfold Observer.save_current. cbn [Observer.ds_current_file
    Observer.ds_resource_files Observer.ds_current_file_lines
    Observer.ds_main_content_lines Observer.file_open app].
  change (truthy (lit "ex.md")) with true. cbv iota.
  destruct (strip (join [NL] paragraph)) as [|c s] eqn:Hd; [contradiction|].
  cbn [truthy]. rewrite insert_empty.
  destruct (decide _) as [Hempty|_].
  - exfalso. exact (map_non_empty_singleton _ _ Hempty).
  - reflexivity.
Qed.

(** The response of the example: the paragraph ends in a blank line and the
    second content line in a space, and both are trimmed away. *)
Lemma C6_witness :
  Observer.parse_distill_response
    (join [NL] (LoopExamples.distill_paragraph
                ++ [lit "NEW_FILE: ex.md"; LoopExamples.distill_line1;
                    LoopExamples.distill_line2])) =
  Observer.MkDistillResult
    (Some (strip (join [NL] LoopExamples.distill_paragraph)))
    (Some {[ lit "ex.md" :=
               strip (join [NL] [LoopExamples.distill_line1;
                                 LoopExamples.distill_line2]) ]})
  /\ Observer.parse_distill_response (lit "NO_UPDATE") =
     Observer.MkDistillResult None None.
Proof.
  apply (C6_parse_distill_response_example LoopExamples.distill_paragraph
           LoopExamples.distill_line1 LoopExamples.distill_line2).
  - repeat constructor.
  - reflexivity.
  - reflexivity.
  - vm_compute. discriminate.
Defined.

Example distill_example_values :
  strip (join [NL] LoopExamples.distill_paragraph) =
    lit "# Main Details" ++ [NL; NL] ++ lit "Some content."
  /\ strip (join [NL] [LoopExamples.distill_line1;
                       LoopExamples.distill_line2]) =
     lit "# Examples" ++ [NL] ++ lit "Example 1: foo".
Proof. vm_compute. auto. Qed.

(** ** UTF-8 *)

Section Utf8Facts.

Import Utf8.

Lemma is_scalar_range c :
  is_scalar c = true ->
  0 <= c < 55296 \/ 57344 <= c < 1114112.
Proof. unfold is_scalar. lia. Qed.

(** The four shapes of an encoded character, with the arithmetic facts the
    decoder tests. *)
Lemma encode_char_shape c b :
  encode_char c = Some b ->
  (b = [c] /\ 0 <= c < 128)
  \/ (exists b0 b1, b = [b0; b1] /\ 194 <= b0 <= 223 /\ 128 <= b1 <= 191
        /\ c = (b0 - 192) * 64 + (b1 - 128))
  \/ (exists b0 b1 b2, b = [b0; b1; b2] /\ 224 <= b0 <= 239
        /\ 128 <= b1 <= 191 /\ 128 <= b2 <= 191
        /\ (b0 = 224 -> 160 <= b1) /\ (b0 = 237 -> b1 <= 159)
        /\ c = (b0 - 224) * 4096 + (b1 - 128) * 64 + (b2 - 128))
  \/ (exists b0 b1 b2 b3, b = [b0; b1; b2; b3] /\ 240 <= b0 <= 244
        /\ 128 <= b1 <= 191 /\ 128 <= b2 <= 191 /\ 128 <= b3 <= 191
        /\ (b0 = 240 -> 144 <= b1) /\ (b0 = 244 -> b1 <= 143)
        /\ c = (b0 - 240) * 262144 + (b1 - 128) * 4096 + (b2 - 128) * 64
               + (b3 - 128)).
Proof.
  unfold encode_char.
  destruct (is_scalar c) eqn:Hs; [|discriminate]. simpl.
  apply is_scalar_range in Hs.
  pose proof (Z.div_mod c 64 ltac:(lia)) as E1.
  pose proof (Z.mod_pos_bound c 64 ltac:(lia)) as B1.
  pose proof (Z.div_mod (c / 64) 64 ltac:(lia)) as E2.
  pose proof (Z.mod_pos_bound (c / 64) 64 ltac:(lia)) as B2.
  pose proof (Z.div_mod (c / 64 / 64) 64 ltac:(lia)) as E3.
  pose proof (Z.mod_pos_bound (c / 64 / 64) 64 ltac:(lia)) as B3.
  replace (c / 4096) with (c / 64 / 64)
    by (rewrite Z.div_div by lia; reflexivity).
  replace (c / 262144) with (c / 64 / 64 / 64)
    by (rewrite !Z.div_div by lia; reflexivity).
  destruct (Z.ltb_spec c 128); [intros [= <-]; left; split; [reflexivity|lia]|].
  destruct (Z.ltb_spec c 2048).
  { intros [= <-]. right; left. do 2 eexists. split; [reflexivity|]. lia. }
  destruct (Z.ltb_spec c 65536).
  { intros [= <-]. right; right; left. do 3 eexists.
    split; [reflexivity|]. lia. }
  intros [= <-]. right; right; right. do 4 eexists.
  split; [reflexivity|].
  replace (c / 64 / 64 mod 64) with (c / 64 / 64 - 64 * (c / 64 / 64 / 64))
    by lia.
  lia.
Qed.

(** The decoder on the four shapes of a well-formed sequence. *)
Lemma scan_one b rest : b < 128 -> scan (b :: rest) = Some b :: scan rest.
Proof. intros H. cbn [scan]. now rewrite (proj2 (Z.ltb_lt b 128) H). Qed.

Lemma second3_ok b0 b1 :
  128 <= b1 <= 191 -> (b0 = 224 -> 160 <= b1) -> (b0 = 237 -> b1 <= 159) ->
  second3 b0 b1 = true.
Proof.
  intros H1 Ha Hb. unfold second3, is_cont.
  destruct (Z.eqb_spec b0 224); [lia|]. destruct (Z.eqb_spec b0 237); lia.
Qed.

Lemma second4_ok b0 b1 :
  128 <= b1 <= 191 -> (b0 = 240 -> 144 <= b1) -> (b0 = 244 -> b1 <= 143) ->
  second4 b0 b1 = true.
Proof.
  intros H1 Ha Hb. unfold second4, is_cont.
  destruct (Z.eqb_spec b0 240); [lia|]. destruct (Z.eqb_spec b0 244); lia.
Qed.

Lemma scan_two b0 b1 rest :
  194 <= b0 <= 223 -> 128 <= b1 <= 191 ->
  scan (b0 :: b1 :: rest) = Some ((b0 - 192) * 64 + (b1 - 128)) :: scan rest.
Proof.
  intros H0 H1. cbn [scan]. unfold is_cont.
  replace (b0 <? 128) with false by lia.
  replace ((194 <=? b0) && (b0 <=? 223)) with true by lia.
  replace ((128 <=? b1) && (b1 <=? 191)) with true by lia.
  reflexivity.
Qed.

Lemma scan_three b0 b1 b2 rest :
  224 <= b0 <= 239 -> second3 b0 b1 = true -> 128 <= b2 <= 191 ->
  scan (b0 :: b1 :: b2 :: rest) =
  Some ((b0 - 224) * 4096 + (b1 - 128) * 64 + (b2 - 128)) :: scan rest.
Proof.
  intros H0 H1 H2. cbn [scan]. rewrite H1. unfold is_cont.
  replace (b0 <? 128) with false by lia.
  replace ((194 <=? b0) && (b0 <=? 223)) with false by lia.
  replace ((224 <=? b0) && (b0 <=? 239)) with true by lia.
  replace ((128 <=? b2) && (b2 <=? 191)) with true by lia.
  reflexivity.
Qed.

Lemma scan_four b0 b1 b2 b3 rest :
  240 <= b0 <= 244 -> second4 b0 b1 = true -> 128 <= b2 <= 191 ->
  128 <= b3 <= 191 ->
  scan (b0 :: b1 :: b2 :: b3 :: rest) =
  Some ((b0 - 240) * 262144 + (b1 - 128) * 4096 + (b2 - 128) * 64
        + (b3 - 128)) :: scan rest.
Proof.
  intros H0 H1 H2 H3. cbn [scan]. rewrite H1. unfold is_cont.
  replace (b0 <? 128) with false by lia.
  replace ((194 <=? b0) && (b0 <=? 223)) with false by lia.
  replace ((224 <=? b0) && (b0 <=? 239)) with false by lia.
  replace ((240 <=? b0) && (b0 <=? 244)) with true by lia.
  replace ((128 <=? b2) && (b2 <=? 191)) with true by lia.
  replace ((128 <=? b3) && (b3 <=? 191)) with true by lia.
  reflexivity.
Qed.

(** The decoder on a sequence that the end of the input cuts short. *)
Lemma scan_cut_two b0 : 194 <= b0 <= 223 -> scan [b0] = [None].
Proof.
  intros H0. cbn [scan].
  replace (b0 <? 128) with false by lia.
  replace ((194 <=? b0) && (b0 <=? 223)) with true by lia.
  reflexivity.
Qed.

Lemma scan_cut_three b0 b1 :
  224 <= b0 <= 239 -> second3 b0 b1 = true ->
  scan [b0] = [None] /\ scan [b0; b1] = [None].
Proof.
  intros H0 H1. cbn [scan]. rewrite H1.
  replace (b0 <? 128) with false by lia.
  replace ((194 <=? b0) && (b0 <=? 223)) with false by lia.
  replace ((224 <=? b0) && (b0 <=? 239)) with true by lia.
  split; reflexivity.
Qed.

Lemma scan_cut_four b0 b1 b2 :
  240 <= b0 <= 244 -> second4 b0 b1 = true -> 128 <= b2 <= 191 ->
  scan [b0] = [None] /\ scan [b0; b1] = [None]
  /\ scan [b0; b1; b2] = [None].
Proof.
  intros H0 H1 H2. cbn [scan]. rewrite H1. unfold is_cont.
  replace (b0 <? 128) with false by lia.
  replace ((194 <=? b0) && (b0 <=? 223)) with false by lia.
  replace ((224 <=? b0) && (b0 <=? 239)) with false by lia.
  replace ((240 <=? b0) && (b0 <=? 244)) with true by lia.
  replace ((128 <=? b2) && (b2 <=? 191)) with true by lia.
  repeat split; reflexivity.
Qed.

(** The decoder reads an encoded character back and goes on behind it. *)
Lemma scan_encode_char c b rest :
  encode_char c = Some b -> scan (b ++ rest) = Some c :: scan rest.
Proof.
  intros H. apply encode_char_shape in H
    as [[-> ?]|[(b0 & b1 & -> & ? & ? & ->)
       |[(b0 & b1 & b2 & -> & ? & ? & ? & ? & ? & ->)
        |(b0 & b1 & b2 & b3 & -> & ? & ? & ? & ? & ? & ? & ->)]]];
    cbn [app].
  - apply scan_one. lia.
  - now apply scan_two.
  - apply scan_three; try assumption. now apply second3_ok.
  - apply scan_four; try assumption. now apply second4_ok.
Qed.

(** A character cut off by the end of the input decodes to nothing. *)
Lemma scan_truncated c b (n : nat) :
  encode_char c = Some b -> (n < length b)%nat ->
  omap id (scan (firstn n b)) = [].
Proof.
  intros H Hn. apply encode_char_shape in H
    as [[-> ?]|[(b0 & b1 & -> & ? & ? & _)
       |[(b0 & b1 & b2 & -> & ? & ? & ? & ? & ? & _)
        |(b0 & b1 & b2 & b3 & -> & ? & ? & ? & ? & ? & ? & _)]]];
    cbn [length] in Hn.
  - destruct n; [reflexivity|lia].
  - destruct n as [|[|n]]; [reflexivity| |lia].
    cbn [firstn]. now rewrite scan_cut_two.
  - destruct (scan_cut_three b0 b1) as [E1 E2];
      [assumption|now apply second3_ok|].
    destruct n as [|[|[|n]]]; [reflexivity| | |lia]; cbn [firstn].
    + now rewrite E1.
    + now rewrite E2.
  - destruct (scan_cut_four b0 b1 b2) as (E1 & E2 & E3);
      [assumption|now apply second4_ok|assumption|].
    destruct n as [|[|[|[|n]]]]; [reflexivity| | | |lia]; cbn [firstn].
    + now rewrite E1.
    + now rewrite E2.
    + now rewrite E3.
Qed.

End Utf8Facts.

Section Utf8Strings.

Import Utf8.

Lemma encode_app a b :
  encode (a ++ b) =
  match encode a, encode b with
  | Some x, Some y => Some (x ++ y)
  | _, _ => None
  end.
Proof.
  induction a as [|c a IH]; simpl.
  - now destruct (encode b).
  - rewrite IH. destruct (encode_char c), (encode a), (encode b);
      try reflexivity. now rewrite app_assoc.
Qed.

Lemma encode_scalar s :
  Forall (fun c => is_scalar c = true) s -> exists bs, encode s = Some bs.
Proof.
  induction 1 as [|c s Hc _ [bs IH]]; simpl; [now eexists|].
  rewrite IH. unfold encode_char. rewrite Hc. simpl.
  repeat destruct (_ <? _); eexists; reflexivity.
Qed.

Lemma scan_encode s : forall bs, encode s = Some bs -> scan bs = map Some s.
Proof.
  induction s as [|c s IH]; simpl; intros bs.
  - now intros [= <-].
  - destruct (encode_char c) as [b|] eqn:Hc; [|discriminate].
    destruct (encode s) as [bs'|]; [|discriminate]. intros [= <-].
    rewrite (scan_encode_char c b bs' Hc). f_equal. now apply IH.
Qed.

(** Decoding an encoded text gives the text back, in both error modes. *)
Lemma decode_strict_encode s bs :
  encode s = Some bs -> decode_strict bs = Some s.
Proof.
  intros H. unfold decode_strict. rewrite (scan_encode s bs H).
  clear H. induction s as [|c s IH]; [reflexivity|].
  cbn. rewrite IH. reflexivity.
Qed.

(** Cutting the encoding after [n] bytes and decoding with the errors
    ignored leaves the characters that lie wholly within the first [n]
    bytes. *)
Lemma decode_ignore_firstn s : forall bs n,
  encode s = Some bs ->
  decode_ignore (firstn n bs) = Aux.fitting_prefix n s.
Proof.
  unfold decode_ignore.
  induction s as [|c s IH]; simpl; intros bs n.
  - intros [= <-]. now rewrite firstn_nil.
  - destruct (encode_char c) as [b|] eqn:Hc; [|discriminate].
    destruct (encode s) as [bs'|] eqn:Hs; [|discriminate]. intros [= <-].
    rewrite firstn_app.
    destruct (Nat.leb_spec (length b) n) as [Hle|Hlt].
    + rewrite firstn_all2 by assumption.
      rewrite (scan_encode_char c b _ Hc). cbn. f_equal. now apply IH.
    + replace (n - length b)%nat with O by lia.
      rewrite firstn_O, app_nil_r. now apply (scan_truncated c b n Hc).
Qed.

Lemma fitting_prefix_is_prefix s : forall n,
  exists rest, s = Aux.fitting_prefix n s ++ rest.
Proof.
  induction s as [|c s IH]; intros n; simpl; [now exists []|].
  destruct (encode_char c) as [b|]; [|now eexists].
  destruct (length b <=? n)%nat; [|now eexists].
  destruct (IH (n - length b)%nat) as [rest Hrest].
  exists rest. simpl. now f_equal.
Qed.

Lemma fitting_prefix_fits s : forall n bs,
  encode s = Some bs ->
  exists kept rest,
    encode (Aux.fitting_prefix n s) = Some kept
    /\ bs = kept ++ rest /\ (length kept <= n)%nat.
Proof.
  induction s as [|c s IH]; simpl; intros n bs.
  - intros [= <-]. exists [], []. simpl. repeat split; lia.
  - destruct (encode_char c) as [b|] eqn:Hc; [|discriminate].
    destruct (encode s) as [bs'|] eqn:Hs; [|discriminate]. intros [= <-].
    destruct (Nat.leb_spec (length b) n) as [Hle|Hlt].
    + destruct (IH (n - length b)%nat bs' eq_refl) as (kept & rest & Hk & -> & Hlen).
      exists (b ++ kept), rest. simpl. rewrite Hc, Hk.
      rewrite length_app, app_assoc. repeat split; lia.
    + exists [], (b ++ bs'). simpl. repeat split; lia.
Qed.

(** The kept prefix cannot be extended by one more character. *)
Lemma fitting_prefix_maximal s : forall n c rest bc,
  s = Aux.fitting_prefix n s ++ c :: rest ->
  encode (Aux.fitting_prefix n s ++ [c]) = Some bc ->
  (n < length bc)%nat.
Proof.
  induction s as [|x s IH]; simpl; intros n c rest bc.
  - now destruct (Aux.fitting_prefix n []).
  - destruct (encode_char x) as [b|] eqn:Hx.
    + destruct (Nat.leb_spec (length b) n) as [Hle|Hlt].
      * simpl. intros [= Hs]. rewrite Hx.
        destruct (encode (_ ++ [c])) as [bc'|] eqn:Hbc; [|discriminate].
        intros [= <-]. rewrite length_app.
        specialize (IH (n - length b)%nat c rest bc' Hs Hbc). lia.
      * simpl. intros [= <- <-]. rewrite Hx. intros [= <-].
        now rewrite app_nil_r.
    + simpl. intros [= <- <-]. now rewrite Hx.
Qed.

Lemma lstrip_suffix s : exists dropped, s = dropped ++ lstrip s.
Proof.
  induction s as [|c s [dropped IH]]; simpl; [now exists []|].
  destruct (is_space c); [|now exists []].
  exists (c :: dropped). simpl. now f_equal.
Qed.

(** What [strip] keeps is a piece of the text. *)
Lemma strip_piece s : exists before after, s = before ++ strip s ++ after.
Proof.
  unfold strip, rstrip.
  destruct (lstrip_suffix s) as [before Hb].
  destruct (lstrip_suffix (rev (lstrip s))) as [after Ha].
  exists before, (rev after).
  rewrite <- rev_app_distr, <- Ha, rev_involutive. exact Hb.
Qed.

Lemma strip_Forall (P : char -> Prop) s : Forall P s -> Forall P (strip s).
Proof.
  destruct (strip_piece s) as (before & after & H). intros HP.
  rewrite H in HP. apply Forall_app in HP as [_ HP].
  now apply Forall_app in HP as [HP _].
Qed.

End Utf8Strings.

(** ** The size cap of the index *)

(** C2. For every engine response of encodable text and every cap that is
    not negative, the content [summarize_index] hands over for the index
    takes at most the cap in UTF-8 bytes, is a prefix of the stripped
    response made of whole characters (its encoding is a prefix of the
    encoding of the stripped response, and no further character would fit),
    and is the stripped response itself when that fits the cap. *)
Theorem C2_index_cap_whole_characters (s : pystr) (max_index_size : Z) :
  0 <= max_index_size ->
  Forall (fun c => Utf8.is_scalar c = true) s ->
  exists r encoded all,
    Observer.enforce_cap s max_index_size = Ok r
    /\ (s <> [] ->
        Observer.summarize_index (Text s) max_index_size = Ok (Some r))
    /\ Utf8.encode (strip s) = Some all
    /\ Utf8.encode r = Some encoded
    /\ len encoded <= max_index_size
    /\ (exists rest, strip s = r ++ rest)
    /\ (exists rest, all = encoded ++ rest)
    /\ (len all <= max_index_size -> r = strip s)
    /\ (forall c rest bc, strip s = r ++ c :: rest ->
          Utf8.encode (r ++ [c]) = Some bc -> max_index_size < len bc).
Proof.
  intros Hmax Hs.
  destruct (encode_scalar (strip s) (strip_Forall _ s Hs)) as [all Hall].
  assert (Hsum : forall r, Observer.enforce_cap s max_index_size = Ok r ->
            s <> [] ->
            Observer.summarize_index (Text s) max_index_size = Ok (Some r)).
  { intros r Hr Hne. unfold Observer.summarize_index. rewrite Hr.
    destruct s; [contradiction|reflexivity]. }
  assert (Hcap : Observer.enforce_cap s max_index_size =
            if max_index_size <? len all
            then Ok (Utf8.decode_ignore (Utf8.slice_to all max_index_size))
            else Ok (strip s)).
  { unfold Observer.enforce_cap. now rewrite Hall. }
  destruct (Z.ltb_spec max_index_size (len all)) as [Hbig|Hfit].
  - unfold Utf8.slice_to in Hcap.
    rewrite (proj2 (Z.leb_le 0 max_index_size) Hmax) in Hcap.
    rewrite (decode_ignore_firstn (strip s) all _ Hall) in Hcap.
    set (n := Z.to_nat max_index_size) in *.
    destruct (fitting_prefix_fits (strip s) n all Hall)
      as (kept & rest & Hk & Hrest & Hlen).
    exists (Aux.fitting_prefix n (strip s)), kept, all.
    split; [assumption|]. split; [now apply Hsum|].
    split; [assumption|]. split; [assumption|].
    split; [unfold len; lia|].
    split; [apply fitting_prefix_is_prefix|].
    split; [now exists rest|]. split; [lia|].
    intros c rest' bc Hsplit Hbc.
    pose proof (fitting_prefix_maximal (strip s) n c rest' bc Hsplit Hbc).
    unfold len. lia.
  - exists (strip s), all, all.
    split; [assumption|]. split; [now apply Hsum|].
    split; [assumption|]. split; [assumption|]. split; [assumption|].
    split; [exists []; now rewrite app_nil_r|].
    split; [exists []; now rewrite app_nil_r|]. split; [reflexivity|].
    intros c rest bc Hsplit _. exfalso.
    apply (f_equal (@length char)) in Hsplit.
    rewrite length_app in Hsplit. simpl in Hsplit. lia.
Qed.

(** The response " abéc\n" under a cap of 3 bytes: the two-byte
    character would be cut in half, so it is dropped whole. *)
Lemma C2_witness :
  exists r encoded all,
    Observer.enforce_cap cap_example 3 = Ok r
    /\ (cap_example <> [] ->
        Observer.summarize_index (Text cap_example) 3 = Ok (Some r))
    /\ Utf8.encode (strip cap_example) = Some all
    /\ Utf8.encode r = Some encoded
    /\ len encoded <= 3
    /\ (exists rest, strip cap_example = r ++ rest)
    /\ (exists rest, all = encoded ++ rest)
    /\ (len all <= 3 -> r = strip cap_example)
    /\ (forall c rest bc, strip cap_example = r ++ c :: rest ->
          Utf8.encode (r ++ [c]) = Some bc -> 3 < len bc).
Proof.
  apply (C2_index_cap_whole_characters cap_example 3).
  - lia.
  - repeat constructor.
Defined.

Example enforce_cap_example :
  Observer.enforce_cap cap_example 3 = Ok (lit "ab")
  /\ Observer.enforce_cap cap_example 4 = Ok (lit "ab" ++ [233])
  /\ Observer.enforce_cap cap_example 5 = Ok (lit "ab" ++ [233] ++ lit "c")
  /\ Utf8.encode (strip cap_example) = Some [97; 98; 195; 169; 99].
Proof. vm_compute. auto. Qed.

(** ** The transcript tracker *)

Lemma lstrip_app l r :
  lstrip (l ++ r) = if forallb is_space l then lstrip r else lstrip l ++ r.
Proof.
  induction l as [|c l IH]; simpl; [reflexivity|].
  destruct (is_space c); simpl; [exact IH|reflexivity].
Qed.

Lemma lstrip_all_space l : forallb is_space l = true -> lstrip l = [].
Proof.
  induction l as [|c l IH]; simpl; [reflexivity|].
  destruct (is_space c); simpl; [exact IH|discriminate].
Qed.

(** A trailing blank character does not survive [strip]. *)
Lemma strip_app_space l c : is_space c = true -> strip (l ++ [c]) = strip l.
Proof.
  intros Hc. unfold strip, rstrip. rewrite lstrip_app.
  destruct (forallb is_space l) eqn:Hl.
  - rewrite (lstrip_all_space l Hl). simpl. now rewrite Hc.
  - rewrite rev_app_distr. simpl. now rewrite Hc.
Qed.

Lemma one_line_spec l : Aux.one_line l = true -> ~ In 10 l /\ ~ In 13 l.
Proof.
  unfold Aux.one_line. intros [H10 H13]%andb_true_iff.
  apply negb_true_iff in H10, H13.
  split; intros H%contains_In; congruence.
Qed.

Lemma lines_go_plain l : forall rest cur,
  ~ In 10 l -> ~ In 13 l ->
  Tracker.lines_go (l ++ rest) cur = Tracker.lines_go rest (rev l ++ cur).
Proof.
  induction l as [|c l IH]; intros rest cur H10 H13; [reflexivity|].
  cbn [app Tracker.lines_go].
  destruct (Z.eqb_spec c 10) as [->|_]; [destruct H10; now left|].
  destruct (Z.eqb_spec c 13) as [->|_]; [destruct H13; now left|].
  rewrite IH
    by (intros H; first [apply H10; now right | apply H13; now right]).
  simpl. now rewrite <- app_assoc.
Qed.

Lemma lines_go_nil cur :
  cur <> [] -> Tracker.lines_go [] cur = [rev cur].
Proof. now destruct cur. Qed.

(** A line and its newline are read as one line of the file. *)
Lemma file_lines_cons l rest :
  Aux.one_line l = true ->
  Tracker.file_lines (l ++ 10 :: rest) = (l ++ [10]) :: Tracker.file_lines rest.
Proof.
  intros [H10 H13]%one_line_spec. unfold Tracker.file_lines.
  rewrite lines_go_plain by assumption. simpl.
  now rewrite app_nil_r, rev_involutive.
Qed.

(** The last line is read with or without its newline. *)
Lemma file_lines_last l final :
  Aux.one_line l = true -> l <> [] -> final = [] \/ final = [10] ->
  Tracker.file_lines (l ++ final) = [l ++ final].
Proof.
  intros Hl Hne [->| ->].
  - apply one_line_spec in Hl as [H10 H13]. unfold Tracker.file_lines.
    rewrite lines_go_plain by assumption. rewrite !app_nil_r.
    rewrite lines_go_nil, rev_involutive; [reflexivity|].
    intros H. apply (f_equal (@length Z)) in H. rewrite length_rev in H.
    destruct l; [contradiction|discriminate].
  - now rewrite file_lines_cons.
Qed.

Lemma strip_final l final :
  final = [] \/ final = [10] -> strip (l ++ final) = strip l.
Proof.
  intros [->| ->]; [now rewrite app_nil_r|now apply strip_app_space].
Qed.

Section TrackerFacts.

Import Tracker.

Variable json_loads : pystr -> option json.

(** The body of the line loop on a line that yields a message, and on one
    that yields nothing. *)
Lemma read_line_message messages line entry parsed :
  truthy (strip line) = true ->
  json_loads (strip line) = Some entry ->
  parse_jsonl_entry entry = Ok (Some parsed) ->
  read_line json_loads (Ok messages) line = Ok (messages ++ [parsed]).
Proof. intros Ht Hj Hp. unfold read_line. now rewrite Ht, Hj, Hp. Qed.

Lemma read_line_malformed messages line :
  json_loads (strip line) = None ->
  read_line json_loads (Ok messages) line = Ok messages.
Proof.
  intros Hj. unfold read_line. rewrite Hj. now destruct (truthy (strip line)).
Qed.

(** C9 (as amended). For a transcript that is UTF-8 text of three lines, the
    second of which [json.loads] rejects with [JSONDecodeError] and the
    other two of which are conversational records, reading from offset 0
    returns exactly the two messages, in file order, and the new position
    is the end of the file: the malformed line is skipped and the offset
    passes over it. *)
Theorem C9_malformed_line_skipped
  (l1 bad l2 final : pystr) (e1 e2 : json) (m1 m2 : entry_message)
  (contents : Utf8.bytes) :
  Aux.one_line l1 = true -> Aux.one_line bad = true ->
  Aux.one_line l2 = true ->
  final = [] \/ final = [10] ->
  Utf8.encode (l1 ++ 10 :: bad ++ 10 :: l2 ++ final) = Some contents ->
  truthy (strip l1) = true -> json_loads (strip l1) = Some e1 ->
  parse_jsonl_entry e1 = Ok (Some m1) ->
  json_loads (strip bad) = None ->
  truthy (strip l2) = true -> json_loads (strip l2) = Some e2 ->
  parse_jsonl_entry e2 = Ok (Some m2) ->
  read_messages_from_position json_loads (File contents true) 0 =
  Ok ([m1; m2], len contents).
Proof.
  intros H1 Hb H2 Hfinal Henc Ht1 Hj1 Hp1 Hjb Ht2 Hj2 Hp2.
  unfold read_messages_from_position. cbn [f_readable negb f_bytes].
  change (0 <? 0) with false. cbv iota.
  change (skipn (Z.to_nat 0) contents) with contents.
  rewrite (decode_strict_encode _ _ Henc).
  assert (Hne : l2 <> []) by (intros ->; discriminate Ht2).
  rewrite (file_lines_cons l1) by assumption.
  rewrite (file_lines_cons bad) by assumption.
  rewrite (file_lines_last l2 final) by assumption.
  cbn [fold_left].
  rewrite (read_line_message [] (l1 ++ [10]) e1 m1)
    by (rewrite ?strip_app_space by reflexivity; assumption).
  rewrite read_line_malformed
    by (rewrite ?strip_app_space by reflexivity; assumption).
  rewrite (read_line_message _ (l2 ++ final) e2 m2)
    by (rewrite ?strip_final by assumption; assumption).
  reflexivity.
Qed.

End TrackerFacts.

(** The transcript of the example, read with the JSON decoder of the
    examples: "Hello" and "Hi" come out, the broken line does not, and the
    position is the size of the file. *)
Lemma C9_witness :
  Tracker.read_messages_from_position json_loads_basic
    (Tracker.File transcript_bytes true) 0 =
  Ok ([Tracker.EntryMessage (Tracker.JStr (lit "user"))
                            (Tracker.JStr (lit "Hello"));
       Tracker.EntryMessage (Tracker.JStr (lit "assistant"))
                            (Tracker.JStr (lit "Hi"))],
      len transcript_bytes).
Proof.
  eapply (C9_malformed_line_skipped json_loads_basic
            line_hello line_broken line_hi [10]).
  all: try (vm_compute; reflexivity).
  now right.
Defined.

(** Between "Hello" and "Hi" stands a line that holds the byte 255 alone,
    which is no UTF-8 text, let alone JSON: the read is aborted with
    [UnicodeDecodeError] and returns no message. *)
Lemma C9_counterexample : ~ Stated.malformed_line_skipped.
Proof.
  intros H.
  let r := eval vm_compute in (json_loads_basic (strip line_hello)) in
  match r with Some ?v => pose (e1 := v) end.
  let r := eval vm_compute in (json_loads_basic (strip line_hi)) in
  match r with Some ?v => pose (e2 := v) end.
  assert (H1 : Utf8.encode line_hello = Some line_hello)
    by (vm_compute; reflexivity).
  assert (H2 : Utf8.encode line_hi = Some line_hi)
    by (vm_compute; reflexivity).
  assert (H3 : ~ In 10 (line_hello ++ [255] ++ line_hi))
    by (intros Hin%contains_In; vm_compute in Hin; discriminate Hin).
  assert (H4 : ~ In 13 (line_hello ++ [255] ++ line_hi))
    by (intros Hin%contains_In; vm_compute in Hin; discriminate Hin).
  assert (H5 : forall text, Utf8.decode_strict [255] = Some text ->
                            json_loads_basic (strip text) = None)
    by (intros text Hd; vm_compute in Hd; discriminate Hd).
  assert (H6 : json_loads_basic (strip line_hello) = Some e1)
    by (vm_compute; reflexivity).
  assert (H7 : Tracker.parse_jsonl_entry e1
               = Ok (Some (Tracker.EntryMessage (Tracker.JStr (lit "user"))
                             (Tracker.JStr (lit "Hello")))))
    by (vm_compute; reflexivity).
  assert (H8 : json_loads_basic (strip line_hi) = Some e2)
    by (vm_compute; reflexivity).
  assert (H9 : Tracker.parse_jsonl_entry e2
               = Ok (Some (Tracker.EntryMessage
                             (Tracker.JStr (lit "assistant"))
                             (Tracker.JStr (lit "Hi")))))
    by (vm_compute; reflexivity).
  specialize (H json_loads_basic line_hello line_hi line_hello [255] line_hi
                _ _ _ _ H1 H2 H3 H4 H5 H6 H7 H8 H9).
  apply (f_equal is_ok) in H. vm_compute in H. discriminate H.
Qed.

Section TrackerCursor.

Import Tracker.

Variable json_loads : pystr -> option json.

Lemma read_position_monotone f pos messages new_pos :
  read_messages_from_position json_loads f pos = Ok (messages, new_pos) ->
  pos <= new_pos.
Proof.
  unfold read_messages_from_position.
  destruct (f_readable f); simpl; [|intros [= _ <-]; lia].
  destruct (pos <? 0); [discriminate|].
  destruct (Utf8.decode_strict _); [|discriminate].
  destruct (fold_left _ _ _); [|discriminate].
  intros [= _ <-]. unfold len. lia.
Qed.

Lemma same_file_spec current key :
  same_file current key = true <-> current = Some key.
Proof.
  destruct current as [p|]; simpl; [|split; discriminate].
  rewrite str_eqb_eq. split; congruence.
Qed.

(** One call of [update] on a tracker that satisfies the invariant. *)
Lemma update_step skip t d :
  Aux.tracker_inv skip t ->
  let t' := (update json_loads t d).1 in
  let out := (update json_loads t d).2 in
  Aux.tracker_inv skip t'
  /\ (current_file t' = current_file t ->
      file_position t <= file_position t'
      /\ forall e, head (find_conversation_files d) = Some e ->
           match read_messages_from_position json_loads (ce_file e)
                   (file_position t) with
           | Ok (messages, new_pos) =>
               file_position t' = new_pos /\ out = Ok messages
           | Raise x => file_position t' = file_position t /\ out = Raise x
           end)
  /\ (current_file t' <> current_file t ->
      exists e, head (find_conversation_files d) = Some e
        /\ current_file t' = Some (ce_path e)
        /\ (skip = true /\ current_file t = None ->
            file_position t' = st_size (ce_file e) /\ out = Ok [])
        /\ (~ (skip = true /\ current_file t = None) ->
            match read_messages_from_position json_loads (ce_file e) 0 with
            | Ok (messages, new_pos) =>
                file_position t' = new_pos /\ out = Ok messages
            | Raise x => file_position t' = 0 /\ out = Raise x
            end)).
Proof.
  intros (Hskip & Hnone & Hfirst). unfold update.
  destruct (find_conversation_files d) as [|e rest]; cbn zeta.
  { cbn [fst snd]. split; [now repeat split|]. split.
    - intros _. split; [lia|]. intros e; discriminate.
    - intros H; now destruct H. }
  destruct (same_file (current_file t) (ce_path e)) eqn:Hsame.
  - (* the same file as before *)
    apply same_file_spec in Hsame. cbn [negb andb].
    destruct (read_messages_from_position json_loads (ce_file e)
                (file_position t)) as [[messages new_pos]|x] eqn:Hread;
      cbn [fst snd current_file file_position skip_existing initialized].
    + split; [repeat split; try assumption; try discriminate|].
      split.
      * intros _. split; [now apply read_position_monotone in Hread|].
        intros e' [= <-]. now rewrite Hread.
      * intros H. now destruct H.
    + split.
      { repeat split; try assumption; [discriminate|].
        intros Hs Hi. cbn in Hi. rewrite Hfirst in Hsame by assumption.
        discriminate. }
      split.
      * intros _. split; [lia|]. intros e' [= <-]. now rewrite Hread.
      * intros H. now destruct H.
  - (* another file, or the first one *)
    assert (Hchanged : Some (ce_path e) <> current_file t).
    { intros H. symmetry in H. apply same_file_spec in H. congruence. }
    cbn [negb andb]. rewrite Hskip.
    destruct (skip && negb (initialized t)) eqn:Hbranch.
    + apply andb_true_iff in Hbranch as [-> Hinit%negb_true_iff].
      cbn [fst snd current_file file_position skip_existing initialized].
      split; [repeat split; try assumption; discriminate|]. split.
      * intros H. now destruct Hchanged.
      * intros _. exists e. split; [reflexivity|]. split; [reflexivity|].
        split; [intros _; now split|].
        intros Hno. destruct Hno. split; [reflexivity|]. now apply Hfirst.
    + assert (Hnot : ~ (skip = true /\ current_file t = None)).
      { intros [-> Hcur]. rewrite (Hnone Hcur) in Hbranch. discriminate. }
      destruct (read_messages_from_position json_loads (ce_file e) 0)
        as [[messages new_pos]|x] eqn:Hread;
        cbn [fst snd current_file file_position skip_existing initialized].
      * split; [repeat split; try assumption; discriminate|]. split.
        -- intros H. now destruct Hchanged.
        -- intros _. exists e. split; [reflexivity|]. split; [reflexivity|].
           split; [intros Hyes; now destruct Hnot|].
           intros _. rewrite Hread. now split.
      * split.
        { repeat split; try assumption; [discriminate|].
          intros -> Hi. cbn in Hi. rewrite Hi in Hbranch. discriminate. }
        split.
        -- intros H. now destruct Hchanged.
        -- intros _. exists e. split; [reflexivity|]. split; [reflexivity|].
           split; [intros Hyes; now destruct Hnot|].
           intros _. rewrite Hread. now split.
Qed.

(** Two successive entries of [states] are related by one [update], and
    the invariant holds all along. *)
Lemma states_lookup skip snaps : forall t0 (k : nat) t t' d,
  Aux.tracker_inv skip t0 ->
  states json_loads t0 snaps !! k = Some t ->
  states json_loads t0 snaps !! S k = Some t' ->
  snaps !! k = Some d ->
  Aux.tracker_inv skip t /\ t' = (update json_loads t d).1.
Proof.
  induction snaps as [|d0 rest IH]; intros t0 k t t' d Hinv Hk HSk Hd.
  - destruct k; discriminate.
  - destruct k as [|k]; cbn in Hk, HSk, Hd.
    + injection Hk as <-. injection Hd as <-.
      split; [assumption|]. destruct rest; cbn in HSk; congruence.
    + apply (IH (update json_loads t0 d0).1 k t t' d); try assumption.
      now apply update_step.
Qed.

Lemma init_inv skip : Aux.tracker_inv skip (init skip).
Proof. now repeat split. Qed.

(** C1. Along any sequence of [update] calls of a tracker, the byte offset
    does not decrease across a call that leaves the tracked file identity
    unchanged (the read starts at the old offset); a call that changes the
    identity resets the offset: on the tracker's very first observation with
    [skip_existing] set, to the size of the file, returning no messages, and
    otherwise to 0, from where the file is then read.  (Nothing is asked of
    the transcript source here: the offset after a read is the offset before
    it plus the bytes read.) *)
Theorem C1_offset_monotone_reset_on_switch
  (skip : bool) (snaps : list cache_dir) (k : nat) (t t' : tracker)
  (d : cache_dir) :
  states json_loads (init skip) snaps !! k = Some t ->
  states json_loads (init skip) snaps !! S k = Some t' ->
  snaps !! k = Some d ->
  let out := (update json_loads t d).2 in
  (current_file t' = current_file t ->
     file_position t <= file_position t'
     /\ forall e, head (find_conversation_files d) = Some e ->
          match read_messages_from_position json_loads (ce_file e)
                  (file_position t) with
          | Ok (messages, new_pos) =>
              file_position t' = new_pos /\ out = Ok messages
          | Raise x => file_position t' = file_position t /\ out = Raise x
          end)
  /\ (current_file t' <> current_file t ->
      exists e, head (find_conversation_files d) = Some e
        /\ current_file t' = Some (ce_path e)
        /\ (skip = true /\ current_file t = None ->
            file_position t' = st_size (ce_file e) /\ out = Ok [])
        /\ (~ (skip = true /\ current_file t = None) ->
            match read_messages_from_position json_loads (ce_file e) 0 with
            | Ok (messages, new_pos) =>
                file_position t' = new_pos /\ out = Ok messages
            | Raise x => file_position t' = 0 /\ out = Raise x
            end)).
Proof.
  intros Hk HSk Hd out.
  destruct (states_lookup skip snaps (init skip) k t t' d (init_inv skip)
              Hk HSk Hd) as [Hinv ->].
  exact (proj2 (update_step skip t d Hinv)).
Qed.

End TrackerCursor.

(** ** Skill directories *)

Section SkillFacts.

Import PathLib Skill.

Lemma child_name_spec dir : forall p n,
  child_name dir p = Some n <-> p = dir ++ [n].
Proof.
  induction dir as [|d dir IH]; intros p n; simpl.
  - destruct p as [|c [|c' p]]; split; intros H; try discriminate;
      congruence.
  - destruct p as [|c p]; [split; discriminate|].
    destruct (str_eqb d c) eqn:E.
    + apply str_eqb_eq in E as ->. rewrite IH. split; congruence.
    + split; [discriminate|]. intros [= <- _]. now rewrite str_eqb_refl in E.
Qed.

Lemma entry_snoc (m : fs) r n : entry m (r ++ [n]) = m !! (r ++ [n]).
Proof. now destruct r. Qed.

(** What [glob] yields: the matching names of the entries of the directory. *)
Lemma glob_In (m : fs) (dir : list pystr) matches (n : pystr) :
  In n (glob m dir matches) <->
  is_dir m dir = true /\ matches n = true
  /\ is_Some (m !! (resolve dir ++ [n])).
Proof.
  unfold glob. destruct (is_dir m dir); [|simpl; split; [tauto|]].
  2: { intros [H _]; discriminate. }
  rewrite filter_In, <- list_elem_of_In, list_elem_of_omap.
  split.
  - intros [[[p x] [Hin Hc]] Hm]. simpl in Hc.
    apply child_name_spec in Hc as ->.
    apply elem_of_map_to_list in Hin. repeat split; [assumption|]. now exists x.
  - intros (_ & Hm & [x Hx]). split; [|assumption].
    exists (resolve dir ++ [n], x). split.
    + now apply elem_of_map_to_list.
    + simpl. now apply child_name_spec.
Qed.

Lemma is_dir_exists (m : fs) p : is_dir m p = true -> exists_ m p = true.
Proof. unfold is_dir, exists_. now destruct (entry m (resolve p)). Qed.

Lemma list_resources_In (m : fs) (base_dir : list pystr) (name : pystr) :
  In name (list_resources m base_dir) <->
  is_dir m base_dir = true
  /\ is_Some (m !! (resolve base_dir ++ [name]))
  /\ endswith name (lit ".md") = true /\ reserved name = false.
Proof.
  unfold list_resources.
  destruct (exists_ m base_dir) eqn:He; simpl.
  - rewrite filter_In, glob_In, negb_true_iff. tauto.
  - split; [tauto|]. intros [Hd _]. apply is_dir_exists in Hd. congruence.
Qed.

Lemma resolve_snoc p c :
  resolve (p ++ [c]) =
  if str_eqb c [DOT; DOT] then removelast (resolve p) else resolve p ++ [c].
Proof. unfold resolve. now rewrite fold_left_app. Qed.

Lemma plain_name_spec name :
  Aux.plain_name name = true ->
  name <> [] /\ ~ In SLASH name /\ str_eqb name [DOT] = false
  /\ str_eqb name [DOT; DOT] = false.
Proof.
  unfold Aux.plain_name.
  intros [[[Ht Hs]%andb_true_iff Hd]%andb_true_iff Hdd]%andb_true_iff.
  apply negb_true_iff in Hs, Hd, Hdd. repeat split; try assumption.
  - now destruct name.
  - intros H%contains_In. congruence.
Qed.

(** A plain name is joined to the base as one more component. *)
Lemma resource_path_plain (base_dir : list pystr) (name : pystr) :
  Aux.plain_name name = true ->
  resource_path base_dir name = base_dir ++ [name].
Proof.
  intros (Hne & Hs & Hd & _)%plain_name_spec.
  unfold resource_path, joinpath, components.
  rewrite split_one by assumption. cbn [List.filter].
  rewrite Hd. destruct name as [|c name]; [contradiction|].
  cbn [truthy andb negb startswith].
  destruct (Z.eqb_spec SLASH c) as [<-|_]; [destruct Hs; now left|].
  reflexivity.
Qed.

(** [mkdir] leaves the entries already there as they are, and makes the
    path a directory. *)
Lemma mkdir_parents_spec todo : forall (m m1 : fs) made,
  mkdir_parents m made todo = Ok m1 ->
  is_dir m made = true ->
  is_dir m1 (made ++ todo) = true
  /\ forall q x, m !! q = Some x -> m1 !! q = Some x.
Proof.
  induction todo as [|c rest IH]; intros m m1 made; simpl.
  - intros [= <-] Hd. rewrite app_nil_r. auto.
  - destruct (entry m (resolve (made ++ [c]))) as [[text|]|] eqn:He;
      [discriminate| |]; intros Hm _.
    + apply IH in Hm as [Hd Hkeep].
      * rewrite <- app_assoc in Hd. auto.
      * unfold is_dir. now rewrite He.
    + apply IH in Hm as [Hd Hkeep].
      * rewrite <- app_assoc in Hd. split; [assumption|].
        intros q x Hq. apply Hkeep. rewrite lookup_insert_ne; [assumption|].
        intros <-. destruct (resolve (made ++ [c])); simpl in He; congruence.
      * unfold is_dir. destruct (resolve (made ++ [c])) eqn:Er;
          [reflexivity|]. simpl. now rewrite lookup_insert_eq.
Qed.

(** [write_file]: the directories stay directories, the files stay files,
    the file written holds the new content and its parent is a directory. *)
Lemma write_file_spec (m m' : fs) p content :
  write_file m p content = Ok m' ->
  (forall q, m !! q = Some Dir -> m' !! q = Some Dir)
  /\ (forall q t, m !! q = Some (File t) -> exists t', m' !! q = Some (File t'))
  /\ m' !! resolve p = Some (File content)
  /\ is_dir m' (removelast p) = true.
Proof.
  unfold write_file.
  destruct (mkdir_parents m [] (removelast p)) as [m1|] eqn:Hmk;
    [|discriminate].
  apply mkdir_parents_spec in Hmk as [Hd Hkeep]; [|reflexivity].
  simpl in Hd. unfold write_text.
  destruct (entry m1 (resolve p)) as [[t0|]|] eqn:He; [|discriminate|];
    (destruct (entry m1 (removelast (resolve p))) as [[|]|];
       [discriminate| |discriminate]);
    (destruct (Utf8.encode content); [|discriminate]); intros [= <-].
  all: assert (Hdir : forall q, m1 !! q = Some Dir ->
         <[resolve p := File content]> m1 !! q = Some Dir)
    by (intros q Hq; rewrite lookup_insert_ne; [assumption|];
        intros <-; destruct (resolve p); simpl in He; congruence).
  all: split; [intros q Hq; apply Hdir, Hkeep, Hq|].
  all: split;
    [intros q t Hq; destruct (decide (resolve p = q)) as [<-|Hne];
       [rewrite lookup_insert_eq; eauto
       |rewrite lookup_insert_ne by assumption; eauto]|].
  all: split; [apply lookup_insert_eq|].
  all: unfold is_dir in *;
    destruct (resolve (removelast p)) as [|c r] eqn:Er; [reflexivity|];
    simpl in *; destruct (m1 !! (c :: r)) as [[|]|] eqn:E1; try discriminate;
    now rewrite (Hdir _ E1).
Qed.

(** What a write of the skill directory establishes stays true under the
    writes that follow. *)
Lemma apply_ops_raise (base_dir : list pystr) ops e :
  fold_left (apply_op base_dir) ops (Raise e) = Raise e.
Proof. induction ops; simpl; auto. Qed.

Lemma apply_op_spec (base_dir : list pystr) (m m' : fs) (o : op) :
  apply_op base_dir (Ok m) o = Ok m' ->
  exists p content, write_file m p content = Ok m'
    /\ forall name text, o = WriteResource name text ->
         p = resource_path base_dir name.
Proof.
  destruct o; simpl; intros H; do 2 eexists; (split; [exact H|]);
    intros ? ? [=]; subst; reflexivity.
Qed.

Lemma apply_ops_keep (base_dir : list pystr) ops : forall (m m' : fs) q t,
  apply_ops base_dir m ops = Ok m' ->
  is_dir m base_dir = true -> m !! q = Some (File t) ->
  is_dir m' base_dir = true /\ exists t', m' !! q = Some (File t').
Proof.
  unfold apply_ops.
  induction ops as [|o ops IH]; intros m m' q t; cbn [fold_left].
  - intros [= <-]. eauto.
  - destruct (apply_op base_dir (Ok m) o) as [m1|e] eqn:Ho;
      [|now rewrite apply_ops_raise].
    intros Hops Hd Hq.
    apply apply_op_spec in Ho as (p & content & Hw & _).
    apply write_file_spec in Hw as (Hdir & Hfile & _ & _).
    destruct (Hfile q t Hq) as [t1 Hq1].
    apply (IH m1 m' q t1 Hops); [|assumption].
    unfold is_dir in *. destruct (resolve base_dir) as [|c r]; [reflexivity|].
    simpl in *. destruct (m !! (c :: r)) as [[|]|] eqn:E; try discriminate.
    now rewrite (Hdir _ E).
Qed.

Lemma apply_ops_written (base_dir : list pystr) ops :
  forall (m m' : fs) name text,
  apply_ops base_dir m ops = Ok m' ->
  In (WriteResource name text) ops ->
  Aux.plain_name name = true ->
  is_dir m' base_dir = true
  /\ exists t', m' !! (resolve base_dir ++ [name]) = Some (File t').
Proof.
  unfold apply_ops.
  induction ops as [|o ops IH]; intros m m' name text; cbn [fold_left In];
    [tauto|].
  destruct (apply_op base_dir (Ok m) o) as [m1|e] eqn:Ho;
    [|now rewrite apply_ops_raise].
  intros Hops [->|Hin] Hplain.
  - apply apply_op_spec in Ho as (p & content & Hw & Hp).
    rewrite (Hp name text eq_refl), resource_path_plain in Hw by assumption.
    apply write_file_spec in Hw as (_ & _ & Hnew & Hparent).
    rewrite removelast_last in Hparent.
    rewrite resolve_snoc in Hnew.
    apply plain_name_spec in Hplain as (_ & _ & _ & Hdd). rewrite Hdd in Hnew.
    exact (apply_ops_keep base_dir ops m1 m' _ _ Hops Hparent Hnew).
  - now apply (IH m1 m' name text).
Qed.

End SkillFacts.

(** C7 (as amended). [list_resources] returns exactly the entries of the
    skill directory whose name ends in ".md", except index.md and
    details.md, and nothing when the directory is absent; every plain file
    name ending in ".md" and not reserved that was written with
    [write_resource] is listed after any further writes of the skill
    directory. *)
Theorem C7_list_resources_markdown (m : Skill.fs) (base_dir : list pystr) :
  (forall name,
     In name (Skill.list_resources m base_dir) <->
     Skill.is_dir m base_dir = true
     /\ is_Some (m !! (PathLib.resolve base_dir ++ [name]))
     /\ endswith name (lit ".md") = true /\ Skill.reserved name = false)
  /\ (Skill.exists_ m base_dir = false -> Skill.list_resources m base_dir = [])
  /\ (forall ops (m' : Skill.fs) name text,
        Skill.apply_ops base_dir m ops = Ok m' ->
        In (Skill.WriteResource name text) ops ->
        Aux.plain_name name = true ->
        endswith name (lit ".md") = true -> Skill.reserved name = false ->
        In name (Skill.list_resources m' base_dir)).
Proof.
  split; [intros name; apply list_resources_In|]. split.
  - unfold Skill.list_resources. now intros ->.
  - intros ops m' name text Hops Hin Hplain Hmd Hres.
    apply list_resources_In.
    destruct (apply_ops_written base_dir ops m m' name text Hops Hin Hplain)
      as [Hd [t' Ht']].
    repeat split; try assumption. now exists (Skill.File t').
Qed.

(** A resource written as "notes.txt" is on disk and is not listed. *)
Lemma C7_counterexample : ~ Stated.written_resources_listed.
Proof.
  intros H.
  destruct (Skill.write_resource LoopExamples.root_fs LoopExamples.skill_base
              (lit "notes.txt") (lit "x")) as [m'|e] eqn:Hw.
  - specialize (H _ _ _ _ _ Hw eq_refl).
    apply list_resources_In in H as (_ & _ & Hmd & _).
    vm_compute in Hmd. discriminate.
  - assert (Hok : is_ok (Skill.write_resource LoopExamples.root_fs
                           LoopExamples.skill_base (lit "notes.txt")
                           (lit "x")) = true) by (vm_compute; reflexivity).
    rewrite Hw in Hok. discriminate Hok.
Qed.

(** "ex.md" is written, then the index and a resource in a subdirectory:
    the writes succeed and "ex.md" is listed. *)
Lemma C7_witness :
  match Skill.apply_ops LoopExamples.skill_base LoopExamples.root_fs
          LoopExamples.three_writes with
  | Ok m' => In (lit "ex.md") (Skill.list_resources m' LoopExamples.skill_base)
  | Raise _ => False
  end.
Proof.
  destruct (Skill.apply_ops LoopExamples.skill_base LoopExamples.root_fs
              LoopExamples.three_writes) as [m'|e] eqn:Hops.
  - apply (proj2 (proj2 (C7_list_resources_markdown LoopExamples.root_fs
                           LoopExamples.skill_base))
             _ m' (lit "ex.md") (lit "x") Hops);
      [now left|reflexivity|reflexivity|reflexivity].
  - assert (Hok : is_ok (Skill.apply_ops LoopExamples.skill_base
                           LoopExamples.root_fs LoopExamples.three_writes)
                  = true) by (vm_compute; reflexivity).
    rewrite Hops in Hok. discriminate Hok.
Defined.

(** ** PID files *)

Section PidFiles.

Import PathLib Skill.

Variable py_int : pystr -> option Z.
Variable kill0 : Z -> probe.

Lemma startswith_spec p : forall s,
  startswith s p = true <-> exists r, s = p ++ r.
Proof.
  induction p as [|x p IH]; intros s; simpl.
  - split; [now exists s|now destruct s].
  - destruct s as [|y s]; [split; [discriminate|intros [r [=]]]|].
    cbn [startswith]. rewrite andb_true_iff, Z.eqb_eq, IH. split.
    + intros [-> [r ->]]. now exists r.
    + intros [r [= -> ->]]. eauto.
Qed.

Lemma endswith_spec s p : endswith s p = true <-> exists r, s = r ++ p.
Proof.
  unfold endswith. rewrite startswith_spec. split; intros [r Hr].
  - exists (rev r). apply (f_equal (@rev char)) in Hr.
    now rewrite rev_involutive, rev_app_distr, rev_involutive in Hr.
  - exists (rev r). now rewrite Hr, rev_app_distr.
Qed.

(** The names the pattern ".*.pid" matches are those of PID files. *)
Lemma is_pid_name_spec n :
  is_pid_name n = true <-> exists skill, n = pid_name skill.
Proof.
  unfold is_pid_name, pid_name. split.
  - intros [[Hs He]%andb_true_iff Hl%Z.leb_le]%andb_true_iff.
    apply endswith_spec in He as [r ->].
    destruct r as [|c r];
      [change (len ([] ++ lit ".pid")) with 4 in Hl; lia|].
    apply startswith_spec in Hs as [r' [= -> _]]. now exists r.
  - intros [skill ->]. rewrite !andb_true_iff. repeat split.
    + apply startswith_spec. eexists. reflexivity.
    + apply endswith_spec. exists (DOT :: skill). reflexivity.
    + apply Z.leb_le. unfold len. cbn [app length].
      rewrite length_app. cbn. lia.
Qed.

Lemma pid_name_inj a b : pid_name a = pid_name b -> a = b.
Proof. unfold pid_name. intros [= H]. now apply app_inv_tail in H. Qed.

(** The skill name the loop reads off the name of a PID file. *)
Lemma skill_of_pid_name skill : skipn 1 (stem (pid_name skill)) = skill.
Proof.
  unfold stem, pid_name.
  replace (rev ([DOT] ++ skill ++ lit ".pid"))
    with (100 :: 105 :: 112 :: 46 :: rev (DOT :: skill)).
  2: { cbn [app]. change (DOT :: skill ++ lit ".pid")
         with ((DOT :: skill) ++ lit ".pid").
       now rewrite rev_app_distr. }
  cbn [last_dot]. change (100 =? DOT) with false. change (105 =? DOT) with false.
  change (112 =? DOT) with false. change (46 =? DOT) with true. cbv iota.
  rewrite rev_involutive. reflexivity.
Qed.

Lemma resolve_pid_file (dir : list pystr) skill :
  resolve (dir ++ [pid_name skill]) = resolve dir ++ [pid_name skill].
Proof.
  rewrite resolve_snoc, str_eqb_neq; [reflexivity|].
  intros H. apply (f_equal (@length char)) in H. unfold pid_name in H.
  rewrite !length_app in H. cbn in H. lia.
Qed.

(** One pass of the loop over a PID file that is there. *)
Lemma pid_step_file (dir : list pystr) (m : fs) running skill text :
  m !! (resolve dir ++ [pid_name skill]) = Some (File text) ->
  Aux.probeable py_int kill0 text = true ->
  pid_step py_int kill0 dir (m, Ok running) (pid_name skill) =
  match Aux.pid_verdict py_int kill0 text with
  | Some pid => (m, Ok (<[skill := pid]> running))
  | None => (delete (resolve dir ++ [pid_name skill]) m, Ok running)
  end.
Proof.
  intros Hm Hp. unfold pid_step.
  rewrite resolve_pid_file, entry_snoc, Hm, skill_of_pid_name.
  unfold Aux.probeable, Aux.pid_verdict in *.
  destruct (py_int (strip (read_text text))) as [pid|]; [|reflexivity].
  now destruct (kill0 pid).
Qed.

(** The loop over a list of distinct PID files that are all there. *)
Lemma fold_pid_steps (dir : list pystr) names :
  NoDup names ->
  forall (m : fs) (running : gmap pystr Z),
  (forall n, In n names -> exists skill text,
     n = pid_name skill
     /\ m !! (resolve dir ++ [n]) = Some (File text)
     /\ Aux.probeable py_int kill0 text = true) ->
  exists (m' : fs) (running' : gmap pystr Z),
    fold_left (pid_step py_int kill0 dir) names (m, Ok running)
      = (m', Ok running')
    /\ (forall q, (forall n, In n names -> q <> resolve dir ++ [n]) ->
          m' !! q = m !! q)
    /\ (forall s, ~ In (pid_name s) names -> running' !! s = running !! s)
    /\ (forall skill text,
          In (pid_name skill) names ->
          m !! (resolve dir ++ [pid_name skill]) = Some (File text) ->
          match Aux.pid_verdict py_int kill0 text with
          | Some pid =>
              running' !! skill = Some pid
              /\ m' !! (resolve dir ++ [pid_name skill]) = Some (File text)
          | None =>
              running' !! skill = running !! skill
              /\ m' !! (resolve dir ++ [pid_name skill]) = None
          end).
Proof.
  induction 1 as [|n names Hnotin Hnodup IH]; intros m running Hfiles.
  - exists m, running. cbn [fold_left]. repeat split; try tauto.
    intros skill text [].
  - destruct (Hfiles n (or_introl eq_refl)) as (skill0 & text0 & -> & Hm0 & Hp0).
    rewrite list_elem_of_In in Hnotin.
    cbn [fold_left]. rewrite (pid_step_file dir m running skill0 text0 Hm0 Hp0).
    set (key0 := resolve dir ++ [pid_name skill0]) in *.
    assert (Hkeys : forall n, In n names -> key0 <> resolve dir ++ [n]).
    { intros n Hn Heq. apply app_inv_head in Heq. injection Heq as <-.
      contradiction. }
    destruct (Aux.pid_verdict py_int kill0 text0) as [pid0|] eqn:Hv.
    + (* the probe returns: the file stays, the skill is listed *)
      destruct (IH m (<[skill0 := pid0]> running)) as (m' & running' & Hfold & Hframe & Hrun & Hent).
      { intros n Hn. apply Hfiles. now right. }
      exists m', running'. split; [exact Hfold|]. split; [|split].
      * intros q Hq. apply Hframe. intros n Hn. apply Hq. now right.
      * intros s Hs. rewrite Hrun by (intros H; apply Hs; now right).
        apply lookup_insert_ne. intros <-. apply Hs. now left.
      * intros skill text [Heq|Hin] Hm.
        -- apply pid_name_inj in Heq as <-. fold key0 in Hm |- *.
           assert (text = text0) as -> by congruence. rewrite Hv.
           rewrite (Hrun skill0 Hnotin), lookup_insert_eq.
           rewrite (Hframe key0 Hkeys). auto.
        -- specialize (Hent skill text Hin Hm).
           destruct (Aux.pid_verdict py_int kill0 text); [assumption|].
           destruct Hent as [Hr Hgone]. split; [|assumption].
           rewrite Hr. apply lookup_insert_ne. intros <-. contradiction.
    + (* the entry is stale: the file goes, the skill is not listed *)
      destruct (IH (delete key0 m) running) as (m' & running' & Hfold & Hframe & Hrun & Hent).
      { intros n Hn. destruct (Hfiles n (or_intror Hn)) as (skill & text & -> & Hm & Hp).
        exists skill, text. repeat split; try assumption.
        rewrite lookup_delete_ne; [assumption|]. now apply Hkeys. }
      exists m', running'. split; [exact Hfold|]. split; [|split].
      * intros q Hq. rewrite Hframe by (intros n Hn; apply Hq; now right).
        apply lookup_delete_ne. intros <-. apply (Hq (pid_name skill0)); [now left|].
        reflexivity.
      * intros s Hs. apply Hrun. intros H; apply Hs; now right.
      * intros skill text [Heq|Hin] Hm.
        -- apply pid_name_inj in Heq as <-. fold key0 in Hm |- *.
           assert (text = text0) as -> by congruence. rewrite Hv.
           rewrite (Hrun skill0 Hnotin), (Hframe key0 Hkeys).
           split; [reflexivity|apply lookup_delete_eq].
        -- apply Hent; [assumption|].
           rewrite lookup_delete_ne; [assumption|]. now apply Hkeys.
Qed.

Lemma NoDup_children (dir : list pystr) (l : list (list pystr * node)) :
  NoDup (l.*1) -> NoDup (omap (fun e => child_name dir (fst e)) l).
Proof.
  induction l as [|e l IH]; cbn; [constructor|].
  intros Hnd. inversion Hnd as [|? ? Hnotin Hrest]; subst.
  destruct (child_name dir e.1) as [n|] eqn:Hn; [|now apply IH].
  constructor; [|now apply IH].
  intros Hin. apply list_elem_of_omap in Hin as (e' & He' & Hn').
  apply child_name_spec in Hn, Hn'. apply Hnotin.
  rewrite Hn, <- Hn'. apply list_elem_of_fmap. now exists e'.
Qed.

Lemma NoDup_bool_filter {A} (f : A -> bool) (l : list A) :
  NoDup l -> NoDup (List.filter f l).
Proof.
  induction 1 as [|x l Hx Hl IH]; cbn; [constructor|].
  destruct (f x); [|assumption]. constructor; [|assumption].
  rewrite list_elem_of_In, filter_In, <- list_elem_of_In. tauto.
Qed.

Lemma NoDup_glob (m : fs) (dir : list pystr) matches :
  NoDup (glob m dir matches).
Proof.
  unfold glob. destruct (is_dir m dir); [|constructor].
  apply NoDup_bool_filter, NoDup_children, NoDup_fst_map_to_list.
Qed.

(** [get_running_observers] under a skills root whose PID files are files
    and hold nothing [os.kill] cannot take. *)
Lemma get_running_observers_spec (m : fs) (skills_dir : list pystr) :
  is_dir m skills_dir = true ->
  (forall n x, is_pid_name n = true ->
     m !! (resolve skills_dir ++ [n]) = Some x ->
     exists text, x = File text /\ Aux.probeable py_int kill0 text = true) ->
  exists (m' : fs) (running : gmap pystr Z),
    get_running_observers py_int kill0 m skills_dir = (m', Ok running)
    /\ (forall skill text,
          m !! (resolve skills_dir ++ [pid_name skill]) = Some (File text) ->
          match Aux.pid_verdict py_int kill0 text with
          | Some pid =>
              running !! skill = Some pid
              /\ m' !! (resolve skills_dir ++ [pid_name skill])
                 = Some (File text)
          | None =>
              running !! skill = None
              /\ m' !! (resolve skills_dir ++ [pid_name skill]) = None
          end)
    /\ (forall q, (forall n, is_pid_name n = true ->
                     q <> resolve skills_dir ++ [n]) ->
          m' !! q = m !! q).
Proof.
  intros Hdir Hfiles. unfold get_running_observers.
  rewrite (is_dir_exists m skills_dir Hdir). cbn [negb].
  destruct (fold_pid_steps skills_dir (glob m skills_dir is_pid_name)
              (NoDup_glob m skills_dir is_pid_name) m ∅)
    as (m' & running & Hfold & Hframe & Hrun & Hent).
  { intros n (_ & Hn & [x Hx])%glob_In.
    destruct (Hfiles n x Hn Hx) as (text & -> & Hp).
    apply is_pid_name_spec in Hn as [skill ->]. now exists skill, text. }
  exists m', running. split; [exact Hfold|]. split.
  - intros skill text Hm.
    assert (Hin : In (pid_name skill) (glob m skills_dir is_pid_name)).
    { apply glob_In. repeat split; [assumption| |now exists (File text)].
      apply is_pid_name_spec. now exists skill. }
    specialize (Hent skill text Hin Hm).
    now rewrite lookup_empty in Hent.
  - intros q Hq. apply Hframe. intros n (_ & Hn & _)%glob_In. now apply Hq.
Qed.

Lemma pid_files_probeable_spec (m : fs) (skills_dir : list pystr) :
  Aux.pid_files_probeable py_int kill0 m skills_dir = true ->
  forall n x, is_pid_name n = true ->
    m !! (resolve skills_dir ++ [n]) = Some x ->
    exists text, x = File text /\ Aux.probeable py_int kill0 text = true.
Proof.
  unfold Aux.pid_files_probeable. rewrite forallb_forall.
  intros Hall n x Hn Hx.
  specialize (Hall (resolve skills_dir ++ [n], x)).
  cbn [fst snd] in Hall.
  rewrite (proj2 (child_name_spec _ _ n) eq_refl), Hn in Hall.
  destruct x as [text|].
  - exists text. split; [reflexivity|]. apply Hall.
    apply list_elem_of_In. now apply elem_of_map_to_list.
  - discriminate Hall.
    apply list_elem_of_In. now apply elem_of_map_to_list.
Qed.





End PidFiles.




Example get_running_observers_example :
  Aux.listed (Skill.get_running_observers int_ascii LoopExamples.probe_example
                LoopExamples.root_fs LoopExamples.skills_root).2 (lit "web")
    = Some 4242
  /\ Aux.listed (Skill.get_running_observers int_ascii
                   LoopExamples.probe_example LoopExamples.root_fs
                   LoopExamples.skills_root).2 (lit "db") = None
  /\ (Skill.get_running_observers int_ascii LoopExamples.probe_example
        LoopExamples.root_fs LoopExamples.skills_root).1
       !! [lit "skills"; lit ".db.pid"] = None
  /\ (Skill.get_running_observers int_ascii LoopExamples.probe_example
        LoopExamples.root_fs LoopExamples.skills_root).1
       !! [lit "skills"; lit ".old.pid"] = None.
Proof. vm_compute. auto. Qed.

(** Three calls of a tracker that skips existing content: the first finds
    the transcript and returns nothing, the second reads what was appended,
    the third turns to a newer transcript and reads it from the start. *)
Lemma C1_witness :
  (Tracker.update json_loads_basic (Tracker.init true) snapshot1).2 = Ok []
  /\ 66 <= 205
  /\ Tracker.read_messages_from_position json_loads_basic
       (Tracker.File (line_hi ++ [NL]) true) 0
     = Ok ([Tracker.EntryMessage (Tracker.JStr (lit "assistant"))
                                 (Tracker.JStr (lit "Hi"))], 139).
Proof.
  pose (snaps := [snapshot1; snapshot2; snapshot3]).
  pose (t0 := Tracker.init true).
  pose (t1 := Tracker.Tracker 66 (Some conv_path) true true).
  pose (t2 := Tracker.Tracker 205 (Some conv_path) true true).
  pose (t3 := Tracker.Tracker 139 (Some (lit "/cache/next.jsonl")) true true).
  destruct (C1_offset_monotone_reset_on_switch json_loads_basic true snaps
              0 t0 t1 snapshot1) as [_ Hfirst];
    [vm_compute; reflexivity..|].
  destruct (C1_offset_monotone_reset_on_switch json_loads_basic true snaps
              1 t1 t2 snapshot2) as [Hsame _];
    [vm_compute; reflexivity..|].
  destruct (C1_offset_monotone_reset_on_switch json_loads_basic true snaps
              2 t2 t3 snapshot3) as [_ Hswitch];
    [vm_compute; reflexivity..|].
  split; [|split].
  - destruct Hfirst as (e & _ & _ & Hskip & _); [discriminate|].
    now destruct (Hskip (conj eq_refl eq_refl)).
  - now destruct (Hsame eq_refl).
  - vm_compute. reflexivity.
Defined.

(** * Further properties of the code *)

(** ** [truncate_messages] for any budget *)

Section TruncateMore.

Import TruncateSpec Aux.

Variable max_chars : Z.

Lemma cap_message_content m :
  content (cap_message m) =
  if 2000 <? len (content m) then firstn 2000 (content m) ++ lit "..."
  else content m.
Proof. unfold cap_message. now destruct (2000 <? len (content m)). Qed.

Lemma cap_message_bound m : len (content (cap_message m)) <= 2003.
Proof.
  rewrite cap_message_content.
  destruct (Z.ltb_spec 2000 (len (content m))) as [H|H]; [|lia].
  unfold len in *. rewrite length_app, length_firstn.
  change (length (lit "...")) with 3%nat. lia.
Qed.

Lemma cap_message_idem m : cap_message (cap_message m) = cap_message m.
Proof.
  unfold cap_message at 2.
  destruct (Z.ltb_spec 2000 (len (content m))) as [H|H].
  - unfold cap_message. cbn [content role].
    assert (Hlen : length (firstn 2000 (content m)) = 2000%nat)
      by (rewrite length_firstn; unfold len in H; lia).
    replace (2000 <? len (firstn 2000 (content m) ++ lit "..."))
      with true
      by (symmetry; apply Z.ltb_lt; unfold len; rewrite length_app, Hlen;
          change (length (lit "...")) with 3%nat; lia).
    rewrite firstn_app, Hlen, Nat.sub_diag, firstn_firstn, Nat.min_id.
    now rewrite (proj2 (Z.ltb_lt _ _) H), firstn_O, app_nil_r.
  - unfold cap_message. now rewrite (proj2 (Z.ltb_ge _ _) H).
Qed.

Lemma total_chars_capped l : total_chars (map cap_message l) = capped_chars l.
Proof. induction l; simpl; [reflexivity|]. now rewrite IHl. Qed.

Lemma capped_chars_map_cap l :
  capped_chars (map cap_message l) = capped_chars l.
Proof. induction l; simpl; [reflexivity|]. now rewrite IHl, cap_message_idem. Qed.

(** A batch that fits is taken whole. *)
Lemma taken_all rm : forall total,
  total + capped_chars rm <= max_chars -> taken max_chars rm total = length rm.
Proof.
  induction rm as [|m rest IH]; intros total Hfit; simpl in *; [reflexivity|].
  pose proof (capped_chars_nonneg rest).
  destruct (Z.ltb_spec max_chars (total + len (content (cap_message m))));
    [lia|].
  f_equal. apply IH. lia.
Qed.

Lemma taken_negative rm : max_chars < 0 -> taken max_chars rm 0 = O.
Proof.
  intros Hneg. destruct rm as [|m rest]; simpl; [reflexivity|].
  destruct (Z.ltb_spec max_chars (0 + len (content (cap_message m))));
    [reflexivity|]. unfold len in *. lia.
Qed.

Lemma observer_truncate_kept messages :
  Observer.truncate_messages messages max_chars =
  map cap_message
    (rev (firstn (taken max_chars (rev messages) 0) (rev messages))).
Proof.
  unfold Observer.truncate_messages. rewrite observer_loop_taken. simpl.
  now rewrite map_rev.
Qed.

End TruncateMore.

(** X1. For every batch and every budget, [truncate_messages] returns at
    most as many messages as it was given, each with a content of at most
    2003 characters (2000 plus the marker); their contents total at most
    the budget when the budget is not negative, and the result is empty
    when it is negative. *)
Theorem X1_truncate_messages_bounds
  (messages : list message) (max_chars : Z) :
  let result := Observer.truncate_messages messages max_chars in
  (length result <= length messages)%nat
  /\ (forall m, In m result -> len (content m) <= 2003)
  /\ (0 <= max_chars -> TruncateSpec.total_chars result <= max_chars)
  /\ (max_chars < 0 -> result = []).
Proof.
  intros result. subst result. rewrite observer_truncate_kept.
  set (k := Aux.taken max_chars (rev messages) 0).
  split; [|split; [|split]].
  - rewrite length_map, length_rev, length_firstn, length_rev. lia.
  - intros m (m0 & <- & _)%in_map_iff. apply cap_message_bound.
  - intros Hmax. rewrite total_chars_capped, capped_chars_rev.
    pose proof (taken_fits max_chars (rev messages) 0 Hmax). fold k in H. lia.
  - intros Hneg. subst k. now rewrite taken_negative.
Qed.

(** X2. Truncating a batch that has already been truncated under the same
    budget changes nothing: the capped contents are not capped again and
    every message is kept. *)
Theorem X2_truncate_messages_idempotent
  (messages : list message) (max_chars : Z) :
  Observer.truncate_messages
    (Observer.truncate_messages messages max_chars) max_chars =
  Observer.truncate_messages messages max_chars.
Proof.
  rewrite (observer_truncate_kept max_chars messages).
  set (kept := rev (firstn (Aux.taken max_chars (rev messages) 0)
                      (rev messages))).
  rewrite (observer_truncate_kept max_chars (map TruncateSpec.cap_message kept)).
  destruct (Z.lt_ge_cases max_chars 0) as [Hneg|Hmax].
  - subst kept. rewrite (taken_negative max_chars (rev messages) Hneg).
    reflexivity.
  - rewrite taken_all.
    + rewrite firstn_all, rev_involutive, map_map.
      apply map_ext. intros m. apply cap_message_idem.
    + rewrite capped_chars_rev, capped_chars_map_cap. subst kept.
      rewrite capped_chars_rev.
      pose proof (taken_fits max_chars (rev messages) 0 Hmax). lia.
Qed.

(** ** More on strings *)

Lemma lstrip_head s :
  lstrip s = [] \/ exists c r, lstrip s = c :: r /\ is_space c = false.
Proof.
  induction s as [|c s IH]; simpl; [now left|].
  destruct (is_space c) eqn:Hc; [exact IH|]. right. now exists c, s.
Qed.

Lemma lstrip_nonspace c r : is_space c = false -> lstrip (c :: r) = c :: r.
Proof. intros H. simpl. now rewrite H. Qed.

Lemma rstrip_nonspace_head c r :
  is_space c = false -> exists r', rstrip (c :: r) = c :: r'.
Proof.
  intros Hc. unfold rstrip. simpl. rewrite lstrip_app.
  destruct (forallb is_space (rev r)).
  - exists []. simpl. now rewrite Hc.
  - exists (rev (lstrip (rev r))). now rewrite rev_app_distr.
Qed.

Lemma rstrip_idem s : rstrip (rstrip s) = rstrip s.
Proof.
  unfold rstrip. rewrite rev_involutive.
  destruct (lstrip_head (rev s)) as [->|(c & r & -> & Hc)]; [reflexivity|].
  now rewrite lstrip_nonspace.
Qed.

(** [strip] leaves a stripped text as it is. *)
Lemma strip_idem s : strip (strip s) = strip s.
Proof.
  unfold strip.
  destruct (lstrip_head s) as [->|(c & r & -> & Hc)]; [reflexivity|].
  destruct (rstrip_nonspace_head c r Hc) as [r' Hr].
  rewrite Hr, (lstrip_nonspace c r' Hc), <- Hr. apply rstrip_idem.
Qed.

Lemma truthy_nonempty s : truthy s = true <-> s <> [].
Proof. destruct s; simpl; split; congruence. Qed.

Lemma split_go_nonempty sep s : forall cur, split_go sep s cur <> [].
Proof.
  induction s as [|c s IH]; intros cur; simpl; [discriminate|].
  destruct (c =? sep); [discriminate|apply IH].
Qed.

Lemma join_cons sep p ps :
  ps <> [] -> join sep (p :: ps) = p ++ sep ++ join sep ps.
Proof. now destruct ps. Qed.

(** Joining the pieces of a split gives the text back. *)
Lemma join_split_go sep s : forall cur,
  join [sep] (split_go sep s cur) = rev cur ++ s.
Proof.
  induction s as [|c s IH]; intros cur; cbn [split_go].
  - simpl. now rewrite app_nil_r.
  - destruct (Z.eqb_spec c sep) as [->|Hne].
    + rewrite join_cons by apply split_go_nonempty. now rewrite IH.
    + rewrite IH. simpl. now rewrite <- app_assoc.
Qed.

Lemma join_split s sep : join [sep] (split s sep) = s.
Proof. unfold split. now rewrite join_split_go. Qed.

(** No piece of a split holds the separator. *)
Lemma split_go_pieces sep s : forall cur piece,
  ~ In sep cur -> In piece (split_go sep s cur) -> ~ In sep piece.
Proof.
  induction s as [|c s IH]; intros cur piece Hcur; simpl.
  - intros [<-|[]]. now rewrite <- in_rev.
  - destruct (Z.eqb_spec c sep) as [->|Hne].
    + intros [<-|Hin]; [now rewrite <- in_rev|].
      apply (IH [] piece); [intros []|assumption].
    + apply IH. intros [H|H]; [congruence|contradiction].
Qed.

Lemma split_pieces s sep piece : In piece (split s sep) -> ~ In sep piece.
Proof. apply split_go_pieces. intros []. Qed.

Lemma strip_incl s c : In c (strip s) -> In c s.
Proof.
  destruct (strip_piece s) as (before & after & H). intros Hc.
  rewrite H. apply in_or_app. right. apply in_or_app. now left.
Qed.

(** ** The shape of what the parsers return *)

Section DistillShape.

Import Observer.

Lemma save_current_trimmed st :
  Aux.state_trimmed st -> Aux.files_trimmed (save_current st).
Proof.
  intros [Hfiles Hcur]. unfold save_current, file_open.
  destruct (ds_current_file st) as [f|] eqn:Hf; [|assumption].
  destruct (truthy f) eqn:Ht; [|assumption].
  intros k v [[<- <-]|[_ Hkv]]%lookup_insert_Some; [|now apply Hfiles].
  repeat split; [now apply truthy_nonempty|now apply Hcur|apply strip_idem].
Qed.

Lemma distill_line_trimmed st line :
  Aux.state_trimmed st -> Aux.state_trimmed (distill_line st line).
Proof.
  intros Hst. unfold distill_line.
  destruct (startswith line (lit "NEW_FILE:")).
  - split; cbn [ds_resource_files ds_current_file].
    + now apply save_current_trimmed.
    + intros f [= <-]. apply strip_idem.
  - destruct Hst as [Hfiles Hcur].
    destruct (file_open (ds_current_file st)); split; assumption.
Qed.

Lemma fold_distill_trimmed lines : forall st,
  Aux.state_trimmed st ->
  Aux.state_trimmed (fold_left distill_line lines st).
Proof.
  induction lines as [|l lines IH]; intros st Hst; simpl; [assumption|].
  now apply IH, distill_line_trimmed.
Qed.

End DistillShape.

(** X3. Whatever the response, the details [parse_distill_response] returns
    are never empty and carry no blank at either end, and the resource files
    it returns are never an empty mapping: every file name in it is set and
    trimmed, and every content trimmed. *)
Theorem X3_parse_distill_response_trimmed (response : pystr) :
  (forall d, Observer.details (Observer.parse_distill_response response)
             = Some d -> d <> [] /\ strip d = d)
  /\ (forall files,
        Observer.resource_files (Observer.parse_distill_response response)
          = Some files ->
        files <> ∅
        /\ forall name text, files !! name = Some text ->
             name <> [] /\ strip name = name /\ strip text = text).
Proof.
  unfold Observer.parse_distill_response.
  destruct (negb (truthy response) || _); [split; discriminate|].
  set (st := fold_left Observer.distill_line (split response NL) _).
  assert (Hst : Aux.state_trimmed st).
  { apply fold_distill_trimmed. split; [|discriminate].
    intros k v Hkv. cbn [Observer.ds_resource_files] in Hkv.
    now rewrite lookup_empty in Hkv. }
  cbn [Observer.details Observer.resource_files]. split.
  - intros d. destruct (truthy (strip _)) eqn:Ht; [|discriminate].
    intros [= <-]. split; [now apply truthy_nonempty|apply strip_idem].
  - intros files. destruct (decide (Observer.save_current st = ∅));
      [discriminate|]. intros [= <-]. split; [assumption|].
    now apply save_current_trimmed.
Qed.

(** X4. A response without any line starting with "NEW_FILE:" has no
    resource files, and its details are the response itself, trimmed;
    they are absent when that is empty or the sentinel "NO_UPDATE". *)
Theorem X4_parse_distill_response_without_markers (response : pystr) :
  Forall (fun l => startswith l (lit "NEW_FILE:") = false)
         (split response NL) ->
  Observer.parse_distill_response response =
  Observer.MkDistillResult
    (if truthy (strip response)
        && negb (str_eqb (strip response) (lit "NO_UPDATE"))
     then Some (strip response) else None)
    None.
Proof.
  intros Hlines. unfold Observer.parse_distill_response.
  destruct (truthy response) eqn:Hr; cbn [negb orb].
  2: { destruct response; [reflexivity|discriminate]. }
  destruct (str_eqb (strip response) (lit "NO_UPDATE")) eqn:Hn.
  - now rewrite andb_false_r.
  - rewrite andb_true_r.
    rewrite (fold_main_lines (split response NL) ∅ [] [] Hlines).
    cbn [app Observer.save_current Observer.ds_current_file
         Observer.file_open Observer.ds_resource_files
         Observer.ds_main_content_lines].
    rewrite join_split.
    destruct (decide ((∅ : gmap pystr pystr) = ∅)); [reflexivity|contradiction].
Qed.

(** A response of two lines, with blanks around. *)
Lemma X4_witness :
  Observer.parse_distill_response (lit "  # Notes" ++ [NL] ++ lit "- one ") =
  Observer.MkDistillResult
    (if truthy (strip (lit "  # Notes" ++ [NL] ++ lit "- one "))
        && negb (str_eqb (strip (lit "  # Notes" ++ [NL] ++ lit "- one "))
                         (lit "NO_UPDATE"))
     then Some (strip (lit "  # Notes" ++ [NL] ++ lit "- one ")) else None)
    None.
Proof.
  apply X4_parse_distill_response_without_markers.
  vm_compute. repeat constructor.
Defined.

Section DecisionShape.

Import Agent.

Lemma names_of_trimmed skills n :
  In n (names_of skills) -> n <> [] /\ strip n = n /\ ~ In COMMA n.
Proof.
  unfold names_of. intros (piece & <- & [Hin Ht]%filter_In)%in_map_iff.
  repeat split.
  - now apply truthy_nonempty.
  - apply strip_idem.
  - intros H%strip_incl. now apply (split_pieces skills COMMA piece).
Qed.

Lemma split1_go_before sep s : forall cur name desc,
  ~ In sep cur -> split1_go sep s cur = [name; desc] -> ~ In sep name.
Proof.
  induction s as [|c s IH]; intros cur name desc Hcur; simpl; [discriminate|].
  destruct (Z.eqb_spec c sep) as [->|Hne].
  - intros [= <- _]. now rewrite <- in_rev.
  - apply IH. intros [H|H]; [congruence|contradiction].
Qed.

(** What the parser has gathered keeps its shape over one more line. *)
Lemma parse_line_shape result line :
  Aux.decision_trimmed result -> Aux.decision_trimmed (parse_line result line).
Proof.
  intros Hres. pose proof Hres as (Hstart & Hstop & Hnew & Hreason).
  unfold parse_line.
  destruct (startswith (strip line) (lit "START:")).
  { destruct (negb _); [|assumption].
    split; [|split; [|split]]; cbn [d_start d_stop d_new d_reason];
      try assumption.
    intros n. apply names_of_trimmed. }
  destruct (startswith (strip line) (lit "STOP:")).
  { destruct (negb _); [|assumption].
    split; [|split; [|split]]; cbn [d_start d_stop d_new d_reason];
      try assumption.
    intros n. apply names_of_trimmed. }
  destruct (startswith (strip line) (lit "NEW:")).
  { destruct (negb _ && _); [|assumption].
    destruct (split1 _ COLON) as [|name [|desc [|? ?]]] eqn:Hsplit;
      try assumption.
    split; [|split; [|split]]; cbn [d_start d_stop d_new d_reason];
      try assumption.
    intros ns [Hin|[<-|[]]]%in_app_or; [now apply Hnew|].
    cbn [ns_name ns_description].
    split; [apply strip_idem|]. split; [apply strip_idem|].
    intros H%strip_incl. revert H.
    eapply (split1_go_before COLON); [|exact Hsplit]. intros []. }
  destruct (startswith (strip line) (lit "REASON:")); [|assumption].
  split; [|split; [|split]]; cbn [d_start d_stop d_new d_reason];
    try assumption.
  apply strip_idem.
Qed.

End DecisionShape.

(** X5. Whatever the response, [parse_skill_decision] returns start and
    stop names that are never empty, carry no blank at either end and hold
    no comma; the name of every new skill is trimmed and holds no colon,
    its description is trimmed, and so is the reason. *)
Theorem X5_parse_skill_decision_trimmed (response : pystr) :
  Aux.decision_trimmed (Agent.parse_skill_decision response).
Proof.
  unfold Agent.parse_skill_decision.
  assert (H : Aux.decision_trimmed (Agent.Decision [] [] [] [])).
  { split; [|split; [|split]]; cbn; try (intros ? []). reflexivity. }
  revert H. generalize (Agent.Decision [] [] [] []).
  induction (split (strip response) NL) as [|l ls IH]; intros d Hd; simpl;
    [assumption|].
  now apply IH, parse_line_shape.
Qed.

(** ** Finding and reading transcripts *)

Section TrackerMore.

Import Tracker.

Lemma insert_by_mtime_perm x l : Permutation (insert_by_mtime x l) (x :: l).
Proof.
  induction l as [|y l IH]; simpl; [reflexivity|].
  destruct (ce_mtime x <=? ce_mtime y); [|reflexivity].
  rewrite IH. apply perm_swap.
Qed.

Lemma insert_by_mtime_sorted x l :
  StronglySorted Aux.newer_first l ->
  StronglySorted Aux.newer_first (insert_by_mtime x l).
Proof.
  induction 1 as [|y l Hl IH Hy]; simpl; [repeat constructor|].
  destruct (Z.leb_spec (ce_mtime x) (ce_mtime y)) as [Hle|Hgt].
  - constructor; [assumption|].
    rewrite (insert_by_mtime_perm x l). constructor; assumption.
  - constructor; [now constructor|]. constructor.
    + unfold Aux.newer_first. lia.
    + eapply Forall_impl; [exact Hy|]. unfold Aux.newer_first.
      intros z Hz. lia.
Qed.

Lemma fold_insert_by_mtime files : forall acc,
  StronglySorted Aux.newer_first acc ->
  Permutation (fold_left (fun acc f => insert_by_mtime f acc) files acc)
              (files ++ acc)
  /\ StronglySorted Aux.newer_first
       (fold_left (fun acc f => insert_by_mtime f acc) files acc).
Proof.
  induction files as [|f files IH]; intros acc Hacc; simpl; [easy|].
  destruct (IH (insert_by_mtime f acc)) as [Hperm Hsorted];
    [now apply insert_by_mtime_sorted|].
  split; [|assumption].
  rewrite Hperm, insert_by_mtime_perm. symmetry. apply Permutation_middle.
Qed.

End TrackerMore.

(** X6. [find_conversation_files] returns nothing for a cache directory
    that does not exist, and otherwise a rearrangement of exactly the
    ".jsonl" files that are not "agent-" sub-conversations, none lost and
    none repeated, ordered from the most recently modified to the least. *)
Theorem X6_find_conversation_files_sorted (d : Tracker.cache_dir) :
  match d with
  | None => Tracker.find_conversation_files d = []
  | Some entries =>
      Permutation (Tracker.find_conversation_files d)
                  (List.filter Aux.is_conversation entries)
      /\ StronglySorted Aux.newer_first (Tracker.find_conversation_files d)
  end.
Proof.
  destruct d as [entries|]; [|reflexivity].
  unfold Tracker.find_conversation_files.
  destruct (fold_insert_by_mtime
              (List.filter
                 (fun f => endswith (Tracker.ce_name f) (lit ".jsonl")
                           && negb (startswith
                                      (PathLib.stem (Tracker.ce_name f))
                                      (lit "agent-"))) entries) [])
    as [Hperm Hsorted]; [constructor|].
  split; [|assumption]. now rewrite app_nil_r in Hperm.
Qed.



Section ReadInSteps.

Import Tracker.

Variable json_loads : pystr -> option json.

Lemma scan_encode_app s : forall bs rest,
  Utf8.encode s = Some bs -> Utf8.scan (bs ++ rest) = map Some s ++ Utf8.scan rest.
Proof.
  induction s as [|c s IH]; simpl; intros bs rest.
  - now intros [= <-].
  - destruct (Utf8.encode_char c) as [b|] eqn:Hc; [|discriminate].
    destruct (Utf8.encode s) as [bs'|]; [|discriminate]. intros [= <-].
    rewrite <- app_assoc, (scan_encode_char c b _ Hc). f_equal. now apply IH.
Qed.

Lemma decode_strict_encode_app s bs rest :
  Utf8.encode s = Some bs ->
  Utf8.decode_strict (bs ++ rest) =
  match Utf8.decode_strict rest with
  | Some t => Some (s ++ t)
  | None => None
  end.
Proof.
  intros H. unfold Utf8.decode_strict. rewrite (scan_encode_app s bs rest H).
  clear H. induction s as [|c s IH]; cbn.
  - now destruct (mapM id (Utf8.scan rest)).
  - rewrite IH. now destruct (mapM id (Utf8.scan rest)).
Qed.

(** A newline ends a line whatever follows it. *)
Lemma lines_go_newline (n : nat) : forall (s rest cur : pystr),
  (length s <= n)%nat ->
  lines_go (s ++ 10 :: rest) cur = lines_go (s ++ [10]) cur ++ lines_go rest [].
Proof.
  induction n as [|n IH]; intros s rest cur Hn.
  - destruct s; [|simpl in Hn; lia]. reflexivity.
  - destruct s as [|c s]; [reflexivity|]. simpl in Hn.
    cbn [app lines_go].
    destruct (c =? 10); [rewrite IH by lia; reflexivity|].
    destruct (c =? 13); [|apply IH; lia].
    destruct s as [|c2 s]; [reflexivity|]. simpl in Hn.
    cbn [app]. destruct (c2 =? 10).
    + rewrite IH by lia. reflexivity.
    + change (c2 :: s ++ 10 :: rest) with ((c2 :: s) ++ 10 :: rest).
      change (c2 :: s ++ [10]) with ((c2 :: s) ++ [10]).
      rewrite IH by (simpl; lia). reflexivity.
Qed.

Lemma file_lines_newline (s rest : pystr) :
  file_lines ((s ++ [10]) ++ rest) = file_lines (s ++ [10]) ++ file_lines rest.
Proof.
  unfold file_lines. rewrite <- app_assoc.
  apply (lines_go_newline (length s)). lia.
Qed.

Lemma fold_read_line_raise lines e :
  fold_left (read_line json_loads) lines (Raise e) = Raise e.
Proof. induction lines as [|l lines IH]; [reflexivity|exact IH]. Qed.

Lemma fold_read_line_from lines : forall messages,
  fold_left (read_line json_loads) lines (Ok messages) =
  match fold_left (read_line json_loads) lines (Ok []) with
  | Ok more => Ok (messages ++ more)
  | Raise e => Raise e
  end.
Proof.
  induction lines as [|l lines IH] using rev_ind; intros messages.
  - simpl. now rewrite app_nil_r.
  - rewrite !fold_left_app. cbn [fold_left]. rewrite (IH messages).
    destruct (fold_left (read_line json_loads) lines (Ok [])) as [more|e];
      [|reflexivity].
    unfold read_line. destruct (truthy (strip l)); [|reflexivity].
    destruct (json_loads (strip l)) as [entry|]; [|reflexivity].
    destruct (parse_jsonl_entry entry) as [[parsed|]|e]; try reflexivity.
    now rewrite app_assoc.
Qed.

Lemma fold_read_line_app first rest :
  fold_left (read_line json_loads) (first ++ rest) (Ok []) =
  match fold_left (read_line json_loads) first (Ok []) with
  | Ok messages =>
      match fold_left (read_line json_loads) rest (Ok []) with
      | Ok more => Ok (messages ++ more)
      | Raise e => Raise e
      end
  | Raise e => Raise e
  end.
Proof.
  rewrite fold_left_app.
  destruct (fold_left (read_line json_loads) first (Ok [])) as [messages|e].
  - apply fold_read_line_from.
  - apply fold_read_line_raise.
Qed.

Lemma skipn_len_app (a b : Utf8.bytes) : skipn (Z.to_nat (len a)) (a ++ b) = b.
Proof.
  unfold len. rewrite Nat2Z.id. now rewrite skipn_app, skipn_all, Nat.sub_diag.
Qed.

(** X8. Reading a transcript in two steps loses and repeats nothing.  When
    the part of the file read first is whole text that ends in a newline,
    the first read stops at its end; whatever is appended afterwards, what
    a read of the longer file from the start returns is what the first read
    returned followed by what a read of the longer file from that position
    returns, with the same final position; and one of the two reads returns
    exactly when the other does. *)
Theorem X8_read_in_two_steps
  (text : pystr) (written appended : Utf8.bytes)
  (messages : list entry_message) (position : Z) :
  Utf8.encode (text ++ [10]) = Some written ->
  read_messages_from_position json_loads (File written true) 0
    = Ok (messages, position) ->
  position = len written
  /\ Aux.returned (read_messages_from_position json_loads
                     (File (written ++ appended) true) 0)
     = match Aux.returned (read_messages_from_position json_loads
                             (File (written ++ appended) true) position)
       with
       | Some (more, position') => Some (messages ++ more, position')
       | None => None
       end.
Proof.
  intros Henc. unfold read_messages_from_position.
  cbn [f_readable negb f_bytes]. change (0 <? 0) with false. cbv iota.
  change (skipn (Z.to_nat 0) ?l) with l.
  rewrite (decode_strict_encode _ _ Henc).
  destruct (fold_left (read_line json_loads) (file_lines (text ++ [10]))
              (Ok [])) as [ms|e] eqn:Hfirst; [|discriminate].
  intros [= -> <-]. split; [lia|].
  rewrite !Z.add_0_l.
  replace (len written <? 0) with false
    by (symmetry; apply Z.ltb_ge; unfold len; lia).
  rewrite skipn_len_app.
  rewrite (decode_strict_encode_app _ _ appended Henc).
  destruct (Utf8.decode_strict appended) as [more_text|]; [|reflexivity].
  rewrite file_lines_newline, fold_read_line_app, Hfirst.
  destruct (fold_left (read_line json_loads) (file_lines more_text) (Ok []))
    as [more|e]; [|reflexivity].
  cbn [Aux.returned]. f_equal. f_equal. unfold len. rewrite length_app. lia.
Qed.

End ReadInSteps.

(** "Hello" is on file when "Hi" is appended. *)
Lemma X8_witness :
  66 = len (line_hello ++ [10])
  /\ Aux.returned
       (Tracker.read_messages_from_position json_loads_basic
          (Tracker.File ((line_hello ++ [10]) ++ line_hi ++ [10]) true) 0)
     = match Aux.returned
               (Tracker.read_messages_from_position json_loads_basic
                  (Tracker.File ((line_hello ++ [10]) ++ line_hi ++ [10])
                                true) 66)
       with
       | Some (more, position') =>
           Some ([Tracker.EntryMessage (Tracker.JStr (lit "user"))
                                       (Tracker.JStr (lit "Hello"))] ++ more,
                 position')
       | None => None
       end.
Proof.
  apply (X8_read_in_two_steps json_loads_basic line_hello
           (line_hello ++ [10]) (line_hi ++ [10])).
  all: vm_compute; reflexivity.
Defined.

Section UpdateAgain.

Import Tracker.

Variable json_loads : pystr -> option json.

(** Reading from the position a read returned finds nothing more. *)
Lemma read_again f pos messages new_pos :
  read_messages_from_position json_loads f pos = Ok (messages, new_pos) ->
  read_messages_from_position json_loads f new_pos = Ok ([], new_pos).
Proof.
  unfold read_messages_from_position.
  destruct (f_readable f); cbn [negb]; [|now intros [= _ <-]].
  destruct (Z.ltb_spec pos 0) as [|Hpos]; [discriminate|].
  destruct (Utf8.decode_strict _); [|discriminate].
  destruct (fold_left _ _ _); [|discriminate].
  intros [= _ <-].
  replace (pos + len (skipn (Z.to_nat pos) (f_bytes f)) <? 0) with false
    by (symmetry; apply Z.ltb_ge; unfold len; lia).
  rewrite (skipn_all2 (f_bytes f)).
  - cbn. now rewrite Z.add_0_r.
  - unfold len. rewrite length_skipn. lia.
Qed.

Lemma read_at_end f :
  read_messages_from_position json_loads f (st_size f) = Ok ([], st_size f).
Proof.
  unfold read_messages_from_position, st_size.
  destruct (f_readable f); cbn [negb]; [|reflexivity].
  replace (len (f_bytes f) <? 0) with false
    by (symmetry; apply Z.ltb_ge; unfold len; lia).
  rewrite (skipn_all2 (f_bytes f)) by (unfold len; lia).
  cbn. now rewrite Z.add_0_r.
Qed.

(** X9. Polling a cache directory that has not changed returns nothing new
    and leaves the tracker as it is: after an [update] that did not raise,
    a second [update] on the same directory contents returns the empty list
    and the same tracker, so no message is delivered twice. *)
Theorem X9_update_unchanged_directory
  (self : tracker) (d : cache_dir) (messages : list entry_message) :
  (update json_loads self d).2 = Ok messages ->
  update json_loads (update json_loads self d).1 d
  = ((update json_loads self d).1, Ok []).
Proof.
  unfold update.
  destruct (find_conversation_files d) as [|most_recent others] eqn:Hfiles.
  - reflexivity.
  - destruct (negb (same_file (current_file self) (ce_path most_recent))
              && skip_existing self && negb (initialized self)).
    + intros _. cbn [fst snd].
      cbn [current_file same_file file_position skip_existing initialized].
      rewrite str_eqb_refl. cbn [negb andb].
      now rewrite read_at_end.
    + destruct (read_messages_from_position json_loads (ce_file most_recent) _)
        as [[ms new_pos]|e] eqn:Hread; [|discriminate].
      intros _. cbn [fst snd].
      cbn [current_file same_file file_position skip_existing initialized].
      rewrite str_eqb_refl. cbn [negb andb].
      now rewrite (read_again _ _ _ _ Hread).
Qed.

End UpdateAgain.

(** The first poll of a tracker that does not skip reads "Hello"; the
    second poll of the same directory reads nothing. *)
Lemma X9_witness :
  Tracker.update json_loads_basic
    (Tracker.update json_loads_basic (Tracker.init false) snapshot1).1
    snapshot1
  = ((Tracker.update json_loads_basic (Tracker.init false) snapshot1).1,
     Ok []).
Proof.
  apply (X9_update_unchanged_directory json_loads_basic (Tracker.init false)
           snapshot1
           [Tracker.EntryMessage (Tracker.JStr (lit "user"))
                                 (Tracker.JStr (lit "Hello"))]).
  vm_compute. reflexivity.
Defined.

(** ** Files of a skill *)

Section Files.

Import PathLib Skill.

Lemma mkdir_parents_keep todo : forall (m m1 : fs) made,
  mkdir_parents m made todo = Ok m1 ->
  forall q x, m !! q = Some x -> m1 !! q = Some x.
Proof.
  induction todo as [|c rest IH]; intros m m1 made; simpl.
  - now intros [= <-].
  - destruct (entry m (resolve (made ++ [c]))) as [[text|]|] eqn:He;
      [discriminate| |]; intros Hm q x Hq.
    + exact (IH _ _ _ Hm q x Hq).
    + apply (IH _ _ _ Hm). rewrite lookup_insert_ne; [assumption|].
      intros <-. destruct (resolve (made ++ [c])); simpl in He; congruence.
Qed.

(** Directories are the only entries [mkdir] adds. *)
Lemma mkdir_parents_new todo : forall (m m1 : fs) made,
  mkdir_parents m made todo = Ok m1 ->
  forall q x, m1 !! q = Some x -> m !! q = Some x \/ x = Dir.
Proof.
  induction todo as [|c rest IH]; intros m m1 made; simpl.
  - intros [= <-]. auto.
  - destruct (entry m (resolve (made ++ [c]))) as [[text|]|] eqn:He;
      [discriminate| |]; intros Hm q x Hq.
    + exact (IH _ _ _ Hm q x Hq).
    + destruct (IH _ _ _ Hm q x Hq) as [Hin| ->]; [|now right].
      apply lookup_insert_Some in Hin as [[_ <-]|[_ Hin]]; auto.
Qed.

Lemma write_text_inv (m m' : fs) p content :
  write_text m p content = Ok m' ->
  resolve p <> []
  /\ m' = <[resolve p := File content]> m
  /\ is_Some (Utf8.encode content).
Proof.
  unfold write_text.
  destruct (resolve p) as [|c r] eqn:Er; [discriminate|].
  cbn [entry].
  destruct (m !! (c :: r)) as [[t0|]|] eqn:He; [|discriminate|];
    (destruct (entry m (removelast (c :: r))) as [[|]|];
     [discriminate| |discriminate]);
    (destruct (Utf8.encode content) as [encoded|]; [|discriminate]);
    intros [= <-]; repeat split; try congruence; now exists encoded.
Qed.

(** A text without carriage returns reads back as it is. *)
Lemma universal_newlines_plain s : ~ In 13 s -> universal_newlines s = s.
Proof.
  induction s as [|c s IH]; [reflexivity|]. intros Hs.
  cbn [universal_newlines].
  destruct (Z.eqb_spec c 13) as [->|_]; [destruct Hs; now left|].
  rewrite IH; [reflexivity|]. intros H. apply Hs. now right.
Qed.

End Files.

(** X10. What [write_file] writes, [read_file] reads back with its line
    ends translated, and so exactly as written when it holds no carriage
    return; a write that returns has written text that UTF-8 can encode.
    The write disturbs nothing else: every other entry stays as it is, and
    whatever is new besides the file written is a directory made on the
    way to it. *)
Theorem X10_write_file_then_read
  (m m' : Skill.fs) (p : list pystr) (content : pystr) :
  Skill.write_file m p content = Ok m' ->
  Skill.read_file m' p = Ok (universal_newlines content)
  /\ (~ In 13 content -> Skill.read_file m' p = Ok content)
  /\ is_Some (Utf8.encode content)
  /\ (forall q x, q <> PathLib.resolve p -> m !! q = Some x ->
        m' !! q = Some x)
  /\ (forall q x, q <> PathLib.resolve p -> m' !! q = Some x ->
        m !! q = Some x \/ x = Skill.Dir).
Proof.
  unfold Skill.write_file.
  destruct (Skill.mkdir_parents m [] (removelast p)) as [m1|] eqn:Hmk;
    [|discriminate].
  intros (Hne & -> & Henc)%write_text_inv.
  assert (Hread : Skill.read_file
                    (<[PathLib.resolve p := Skill.File content]> m1) p
                  = Ok (universal_newlines content)).
  { unfold Skill.read_file.
    destruct (PathLib.resolve p) as [|c r]; [contradiction|].
    cbn [Skill.entry]. now rewrite lookup_insert_eq. }
  split; [exact Hread|]. split; [|split; [exact Henc|split]].
  - intros Hplain. rewrite Hread. now rewrite universal_newlines_plain.
  - intros q x Hq Hm. rewrite lookup_insert_ne by congruence.
    exact (mkdir_parents_keep _ _ _ _ Hmk q x Hm).
  - intros q x Hq Hm'. rewrite lookup_insert_ne in Hm' by congruence.
    exact (mkdir_parents_new _ _ _ _ Hmk q x Hm').
Qed.

(** An index of two lines, the first ended the DOS way, is written under a
    root that holds PID files; it reads back with a plain newline. *)
Lemma X10_witness :
  match Skill.write_file LoopExamples.root_fs
          (Skill.index_path LoopExamples.skill_base)
          (lit "one" ++ [13; 10] ++ lit "two") with
  | Ok m' =>
      Skill.read_file m' (Skill.index_path LoopExamples.skill_base)
      = Ok (universal_newlines (lit "one" ++ [13; 10] ++ lit "two"))
      /\ (~ In 13 (lit "one" ++ [13; 10] ++ lit "two") ->
          Skill.read_file m' (Skill.index_path LoopExamples.skill_base)
          = Ok (lit "one" ++ [13; 10] ++ lit "two"))
      /\ is_Some (Utf8.encode (lit "one" ++ [13; 10] ++ lit "two"))
      /\ (forall q x,
            q <> PathLib.resolve (Skill.index_path LoopExamples.skill_base) ->
            LoopExamples.root_fs !! q = Some x -> m' !! q = Some x)
      /\ (forall q x,
            q <> PathLib.resolve (Skill.index_path LoopExamples.skill_base) ->
            m' !! q = Some x ->
            LoopExamples.root_fs !! q = Some x \/ x = Skill.Dir)
  | Raise _ => False
  end.
Proof.
  destruct (Skill.write_file LoopExamples.root_fs
              (Skill.index_path LoopExamples.skill_base)
              (lit "one" ++ [13; 10] ++ lit "two"))
    as [m'|e] eqn:Hw.
  - exact (X10_write_file_then_read _ _ _ _ Hw).
  - assert (Hok : is_ok (Skill.write_file LoopExamples.root_fs
                           (Skill.index_path LoopExamples.skill_base)
                           (lit "one" ++ [13; 10] ++ lit "two")) = true)
      by (vm_compute; reflexivity).
    rewrite Hw in Hok. discriminate Hok.
Defined.

Example write_file_examples :
  Skill.read_file
    (match Skill.write_file LoopExamples.root_fs
             (Skill.index_path LoopExamples.skill_base)
             (lit "one" ++ [13; 10] ++ lit "two" ++ [13] ++ lit "three") with
     | Ok m' => m'
     | Raise _ => ∅
     end) (Skill.index_path LoopExamples.skill_base)
  = Ok (lit "one" ++ [10] ++ lit "two" ++ [10] ++ lit "three")
  /\ Skill.write_file LoopExamples.root_fs
       (Skill.index_path LoopExamples.skill_base) [55357]
     = Raise UnicodeEncodeError.
Proof. vm_compute. auto. Qed.

(** ** Listing the skills *)

Section Sorting.

Import PathLib Skill.

Lemma str_ltb_irrefl a : str_ltb a a = false.
Proof.
  induction a as [|x a IH]; [reflexivity|]. cbn [str_ltb].
  now rewrite Z.ltb_irrefl.
Qed.

Lemma str_ltb_trans a : forall b c,
  str_ltb a b = true -> str_ltb b c = true -> str_ltb a c = true.
Proof.
  induction a as [|x a IH]; intros [|y b] [|z c]; cbn [str_ltb];
    try discriminate; try reflexivity.
  destruct (Z.ltb_spec x y), (Z.ltb_spec y x), (Z.ltb_spec y z),
    (Z.ltb_spec z y), (Z.ltb_spec x z), (Z.ltb_spec z x);
    try lia; try discriminate; try reflexivity.
  apply IH.
Qed.

Lemma str_ltb_connected a : forall b,
  str_ltb a b = false -> str_ltb b a = false -> a = b.
Proof.
  induction a as [|x a IH]; intros [|y b]; cbn [str_ltb];
    try discriminate; try reflexivity.
  destruct (Z.ltb_spec x y), (Z.ltb_spec y x); try lia; try discriminate.
  intros Hab Hba. assert (x = y) as -> by lia. f_equal. now apply IH.
Qed.

Lemma str_le_trans : Transitive str_le.
Proof.
  intros a b c Hab Hbc. unfold str_le in *.
  destruct (str_ltb c a) eqn:Hca; [|reflexivity].
  destruct (str_ltb a b) eqn:Hlt.
  - now rewrite (str_ltb_trans c a b Hca Hlt) in Hbc.
  - rewrite (str_ltb_connected a b Hlt Hab) in Hca. congruence.
Qed.

Lemma str_le_total : Total str_le.
Proof.
  intros a b. unfold str_le.
  destruct (str_ltb b a) eqn:Hba; [|now left]. right.
  destruct (str_ltb a b) eqn:Hab; [|reflexivity].
  now rewrite <- (str_ltb_irrefl a), (str_ltb_trans a b a Hab Hba).
Qed.

(** A list in order without repetitions is strictly increasing. *)
Lemma sorted_distinct (l : list pystr) :
  StronglySorted str_le l -> NoDup l -> StronglySorted Aux.str_lt l.
Proof.
  induction 1 as [|x l Hl IH Hx]; intros Hnd; [constructor|].
  inversion Hnd as [|? ? Hnotin Hrest]; subst.
  constructor; [now apply IH|].
  rewrite Forall_forall in Hx |- *. intros y Hy.
  unfold Aux.str_lt. destruct (str_ltb x y) eqn:Hxy; [reflexivity|].
  specialize (Hx y Hy). unfold str_le in Hx.
  rewrite (str_ltb_connected x y Hxy Hx) in Hnotin. contradiction.
Qed.

Lemma iterdir_In (m : fs) (dir : list pystr) (n : pystr) :
  In n (iterdir m dir) <-> is_Some (m !! (resolve dir ++ [n])).
Proof.
  unfold iterdir. rewrite <- list_elem_of_In, list_elem_of_omap. split.
  - intros [[p x] [Hin Hc]]. simpl in Hc.
    apply child_name_spec in Hc as ->.
    apply elem_of_map_to_list in Hin. now exists x.
  - intros [x Hx]. exists (resolve dir ++ [n], x). split.
    + now apply elem_of_map_to_list.
    + simpl. now apply child_name_spec.
Qed.

End Sorting.

(** X11. [list_skills] returns the skill names in strictly increasing
    order, so each one once.  A name is listed exactly when the skills root
    is a directory and holds either a directory of that name that does not
    start with a dot and contains index.md or details.md, or an entry
    ending in ".md" of which the name is the stem. *)
Theorem X11_list_skills_sorted
  (m : Skill.fs) (skills_dir names : list pystr) :
  Skill.list_skills m skills_dir = Ok names ->
  StronglySorted Aux.str_lt names
  /\ forall s : pystr,
       In s names <->
       Skill.is_dir m skills_dir = true
       /\ exists n : pystr,
            is_Some (m !! (PathLib.resolve skills_dir ++ [n]))
            /\ ((Aux.skill_directory m skills_dir n = true /\ s = n)
                \/ (endswith n (lit ".md") = true /\ s = PathLib.stem n)).
Proof.
  unfold Skill.list_skills.
  destruct (Skill.exists_ m skills_dir) eqn:Hex; cbn [negb].
  2: { intros [= <-]. split; [constructor|]. intros s. split; [intros []|].
       intros [Hd _]. apply is_dir_exists in Hd. congruence. }
  destruct (Skill.is_dir m skills_dir) eqn:Hdir; cbn [negb]; [|discriminate].
  intros [= <-]. split.
  - apply sorted_distinct.
    + apply StronglySorted_merge_sort;
        [exact str_le_trans|exact str_le_total].
    + rewrite merge_sort_Permutation. apply NoDup_elements.
  - intros s. rewrite <- list_elem_of_In, merge_sort_Permutation.
    rewrite elem_of_elements, elem_of_list_to_set, elem_of_app.
    rewrite !list_elem_of_In, filter_In, iterdir_In, in_map_iff.
    fold (Aux.skill_directory m skills_dir s).
    split.
    + intros [[Hin Hs]|[n [<- Hn]]]; (split; [reflexivity|]).
      * exists s. auto.
      * apply glob_In in Hn as (_ & Hmd & Hin). exists n. auto.
    + intros [_ [n [Hin [[Hs ->]|[Hmd ->]]]]]; [left; auto|right].
      exists n. split; [reflexivity|]. apply glob_In. auto.
Qed.

(** The skills of the example root: the directory "web" and the legacy
    file "web.md" give one name, the hidden and the empty directory none. *)
Lemma X11_witness :
  StronglySorted Aux.str_lt [lit "db"; lit "web"]
  /\ forall s : pystr,
       In s [lit "db"; lit "web"] <->
       Skill.is_dir LoopExamples.library_fs LoopExamples.skills_root = true
       /\ exists n : pystr,
            is_Some (LoopExamples.library_fs
                       !! (PathLib.resolve LoopExamples.skills_root ++ [n]))
            /\ ((Aux.skill_directory LoopExamples.library_fs
                   LoopExamples.skills_root n = true /\ s = n)
                \/ (endswith n (lit ".md") = true /\ s = PathLib.stem n)).
Proof.
  apply (X11_list_skills_sorted LoopExamples.library_fs
           LoopExamples.skills_root [lit "db"; lit "web"]).
  vm_compute. reflexivity.
Defined.

(** ** Writing and removing PID files *)

Section PidFileLife.

Import PathLib Skill.

Variable py_int : pystr -> option Z.
Variable kill0 : Z -> probe.

Lemma plain_pid_name skill :
  contains skill SLASH = false -> Aux.plain_name (pid_name skill) = true.
Proof.
  intros Hs. unfold Aux.plain_name.
  assert (Hno : contains (pid_name skill) SLASH = false).
  { destruct (contains (pid_name skill) SLASH) eqn:Hc; [|reflexivity].
    apply contains_In in Hc. unfold pid_name in Hc.
    rewrite !in_app_iff in Hc. destruct Hc as [Hc|[Hc|Hc]].
    - destruct Hc as [Hc|[]]. discriminate Hc.
    - apply contains_In in Hc. congruence.
    - cbn in Hc. repeat (destruct Hc as [Hc|Hc]; [discriminate Hc|]).
      contradiction. }
  rewrite Hno. cbn [negb andb pid_name app truthy].
  rewrite !str_eqb_neq; [reflexivity| |].
  - intros H. apply (f_equal (@length char)) in H.
    cbn [length] in H. rewrite length_app in H. cbn in H. lia.
  - intros H. apply (f_equal (@length char)) in H.
    cbn [length] in H. rewrite length_app in H. cbn in H. lia.
Qed.

(** The decimal form of a number holds digits and a sign only. *)
Lemma lit_uint_plain d :
  ~ In 13 (lit (DecimalString.NilEmpty.string_of_uint d)).
Proof.
  unfold lit. induction d; cbn; [intros []|..];
    (intros [H|H]; [discriminate H|auto]).
Qed.

Lemma str_int_plain pid : universal_newlines (str_int pid) = str_int pid.
Proof.
  apply universal_newlines_plain. unfold str_int.
  assert (Huint : forall d,
            ~ In 13 (lit (DecimalString.NilZero.string_of_uint d))).
  { intros d. destruct d; try apply lit_uint_plain.
    cbn. intros [H|[]]. discriminate H. }
  destruct (Z.to_int pid) as [d|d]; cbn [DecimalString.NilZero.string_of_int].
  - apply Huint.
  - intros [H|H]; [discriminate H|]. exact (Huint d H).
Qed.

Lemma pid_path_plain (skills_dir : list pystr) skill :
  contains skill SLASH = false ->
  pid_path skills_dir skill = skills_dir ++ [pid_name skill].
Proof.
  intros Hs. apply (resource_path_plain skills_dir (pid_name skill)).
  now apply plain_pid_name.
Qed.

(** The loop lists no skill other than those its PID files name. *)
Lemma fold_pid_not_listed (dir : list pystr) skill names :
  (forall n, In n names -> skipn 1 (stem n) <> skill) ->
  forall acc : fs * outcome (gmap pystr Z),
  Aux.listed acc.2 skill = None ->
  Aux.listed (fold_left (pid_step py_int kill0 dir) names acc).2 skill = None.
Proof.
  induction names as [|n names IH]; intros Hnames acc Hacc; [exact Hacc|].
  cbn [fold_left]. apply IH; [intros n' Hn'; apply Hnames; now right|].
  destruct acc as [m [running|e]]; [|exact Hacc].
  cbn [snd Aux.listed] in Hacc. unfold pid_step.
  destruct (entry m (resolve (dir ++ [n]))) as [[text|]|]; try reflexivity.
  destruct (py_int (strip (read_text text))) as [pid|]; [|exact Hacc].
  destruct (kill0 pid); try exact Hacc; try reflexivity.
  cbn [snd Aux.listed]. rewrite lookup_insert_ne; [exact Hacc|].
  apply Hnames. now left.
Qed.

Lemma not_listed_without_file (m : fs) (skills_dir : list pystr) skill :
  m !! (resolve skills_dir ++ [pid_name skill]) = None ->
  Aux.listed (get_running_observers py_int kill0 m skills_dir).2 skill = None.
Proof.
  intros Hnone. unfold get_running_observers.
  destruct (negb (exists_ m skills_dir)); [apply lookup_empty|].
  apply fold_pid_not_listed; [|apply lookup_empty].
  intros n (_ & Hn & Hin)%glob_In Heq.
  apply is_pid_name_spec in Hn as [s ->].
  rewrite skill_of_pid_name in Heq. subst s.
  rewrite Hnone in Hin. now destruct Hin.
Qed.

(** X12. An observer that has written its PID file is reported as running.
    After [write_pid_file] for a skill name without a slash, when the pid
    reads back from its decimal form and the process answers the probe, and
    the PID files of the root are all such that the scan can handle them,
    [get_running_observers] returns and maps the skill to that pid. *)
Theorem X12_written_pid_file_is_listed
  (m m' : fs) (skills_dir : list pystr) (skill : pystr) (pid : Z) :
  contains skill SLASH = false ->
  write_pid_file m skills_dir skill pid = Ok m' ->
  py_int (strip (str_int pid)) = Some pid ->
  kill0 pid = Signalled ->
  Aux.pid_files_probeable py_int kill0 m' skills_dir = true ->
  Aux.listed (get_running_observers py_int kill0 m' skills_dir).2 skill
  = Some pid.
Proof.
  intros Hs Hw Hint Hkill Hfiles.
  unfold write_pid_file in Hw. rewrite (pid_path_plain _ _ Hs) in Hw.
  apply (write_file_spec m m' (skills_dir ++ [pid_name skill]) (str_int pid))
    in Hw as (_ & _ & Hnew & Hdir).
  rewrite removelast_last in Hdir. rewrite resolve_pid_file in Hnew.
  destruct (get_running_observers_spec py_int kill0 m' skills_dir Hdir
              (pid_files_probeable_spec py_int kill0 m' skills_dir Hfiles))
    as (m'' & running & -> & Hlisted & _).
  specialize (Hlisted skill (str_int pid) Hnew).
  unfold Aux.pid_verdict, read_text in Hlisted.
  rewrite str_int_plain, Hint, Hkill in Hlisted.
  exact (proj1 Hlisted).
Qed.

(** X13. An observer that has removed its PID file is no longer reported.
    After [remove_pid_file] for a skill name without a slash,
    [get_running_observers] does not list the skill, whatever else the
    skills root holds. *)
Theorem X13_removed_pid_file_not_listed
  (m m' : fs) (skills_dir : list pystr) (skill : pystr) :
  contains skill SLASH = false ->
  remove_pid_file m skills_dir skill = Ok m' ->
  Aux.listed (get_running_observers py_int kill0 m' skills_dir).2 skill = None.
Proof.
  intros Hs Hr. apply not_listed_without_file.
  unfold remove_pid_file, unlink_missing_ok in Hr.
  rewrite (pid_path_plain _ _ Hs), resolve_pid_file, entry_snoc in Hr.
  destruct (m !! (resolve skills_dir ++ [pid_name skill])) as [[text|]|] eqn:He.
  - injection Hr as <-. apply lookup_delete_eq.
  - discriminate Hr.
  - destruct (entry m (removelast _)) as [[|]|]; try discriminate Hr;
      injection Hr as <-; exact He.
Qed.

End PidFileLife.

(** A fourth observer, "new", writes its PID file beside the three of the
    example root and is found with its pid. *)
Lemma X12_witness :
  match Skill.write_pid_file LoopExamples.root_fs LoopExamples.skills_root
          (lit "new") 4242 with
  | Ok m' =>
      Aux.listed
        (Skill.get_running_observers int_ascii LoopExamples.probe_example m'
           LoopExamples.skills_root).2 (lit "new") = Some 4242
  | Raise _ => False
  end.
Proof.
  assert (Hok : match Skill.write_pid_file LoopExamples.root_fs
                        LoopExamples.skills_root (lit "new") 4242 with
                | Ok m' =>
                    Aux.pid_files_probeable int_ascii
                      LoopExamples.probe_example m' LoopExamples.skills_root
                | Raise _ => false
                end = true) by (vm_compute; reflexivity).
  destruct (Skill.write_pid_file LoopExamples.root_fs LoopExamples.skills_root
              (lit "new") 4242) as [m'|e] eqn:Hw; [|discriminate Hok].
  apply (X12_written_pid_file_is_listed int_ascii LoopExamples.probe_example
           LoopExamples.root_fs m' LoopExamples.skills_root (lit "new") 4242);
    [reflexivity|exact Hw|vm_compute; reflexivity|reflexivity|exact Hok].
Defined.

(** The observer of "web" removes its PID file. *)
Lemma X13_witness :
  match Skill.remove_pid_file LoopExamples.root_fs LoopExamples.skills_root
          (lit "web") with
  | Ok m' =>
      Aux.listed
        (Skill.get_running_observers int_ascii LoopExamples.probe_example m'
           LoopExamples.skills_root).2 (lit "web") = None
  | Raise _ => False
  end.
Proof.
  destruct (Skill.remove_pid_file LoopExamples.root_fs LoopExamples.skills_root
              (lit "web")) as [m'|e] eqn:Hr.
  - apply (X13_removed_pid_file_not_listed int_ascii
             LoopExamples.probe_example LoopExamples.root_fs m'
             LoopExamples.skills_root (lit "web"));
      [reflexivity|exact Hr].
  - assert (Hok : is_ok (Skill.remove_pid_file LoopExamples.root_fs
                           LoopExamples.skills_root (lit "web")) = true)
      by (vm_compute; reflexivity).
    rewrite Hr in Hok. discriminate Hok.
Defined.

(** ** The observer loop as a whole *)

Section ObserverRun.

Import Observer.

Lemma enforce_cap_fits t n c :
  0 <= n -> enforce_cap t n = Ok c ->
  exists b, Utf8.encode c = Some b /\ len b <= n.
Proof.
  intros Hn. unfold enforce_cap.
  destruct (Utf8.encode (strip t)) as [all|] eqn:Hall; [|discriminate].
  destruct (Z.ltb_spec n (len all)) as [Hbig|Hfit]; intros [= <-].
  - unfold Utf8.slice_to. rewrite (proj2 (Z.leb_le 0 n) Hn).
    rewrite (decode_ignore_firstn (strip t) all _ Hall).
    destruct (fitting_prefix_fits (strip t) (Z.to_nat n) all Hall)
      as (kept & rest & Hk & _ & Hlen).
    exists kept. split; [assumption|]. unfold len. lia.
  - now exists all.
Qed.

Lemma update_index_fits cfg t d count shutdown :
  0 <= max_index_size cfg ->
  Forall (Aux.index_fits (max_index_size cfg))
         (update_index cfg t d count shutdown).1.
Proof.
  intros Hmax. unfold update_index.
  destruct ((count mod 3 =? 0) || shutdown); [|constructor].
  unfold summarize_index.
  destruct (summarize_reply t) as [text| |]; cbn [fst];
    try (repeat constructor).
  destruct (truthy text); [|repeat constructor].
  destruct (enforce_cap text (max_index_size cfg)) as [c|e] eqn:Hcap;
    [|repeat constructor].
  destruct (truthy c) eqn:Hc; repeat constructor.
  - now apply truthy_nonempty.
  - exact (enforce_cap_fits _ _ _ Hmax Hcap).
Qed.

Lemma iteration_fits cfg st t :
  0 <= max_index_size cfg ->
  Forall (Aux.index_fits (max_index_size cfg)) (iteration cfg st t).1.2.
Proof.
  intros Hmax. unfold iteration.
  destruct (_ && negb (len _ =? 0)); [|constructor].
  destruct (distill_details (distill_reply t)) as [result|e];
    [|repeat constructor].
  destruct (truthy_details result) as [d|]; [|repeat constructor].
  pose proof (update_index_fits cfg t d (distill_count st + 1)
                (shutdown_requested st || signal_polling t
                 || signal_working t) Hmax) as Hidx.
  destruct (update_index _ _ _ _ _) as [evs [e|]]; cbn [fst snd] in *;
    (constructor; [exact I|]); apply Forall_app; (split; [|exact Hidx]);
    destruct (truthy_resources result); repeat constructor.
Qed.

Lemma run_step cfg st t rest :
  shutdown_requested st = false ->
  run cfg st (t :: rest) =
  match iteration cfg st t with
  | (st1, evs, Continue) =>
      let st2 := State (pending_messages st1) (distill_count st1)
                       (shutdown_requested st1 || signal_sleeping t) in
      ((evs ++ Sleep :: (run cfg st2 rest).1), (run cfg st2 rest).2)
  | (st1, evs, _) => (evs, Some st1)
  end.
Proof.
  intros Hs. cbn [run]. rewrite Hs.
  destruct (iteration cfg st t) as [[st1 evs] []]; try reflexivity.
  cbv zeta. now destruct (run cfg _ rest).
Qed.

Lemma run_shutdown cfg st ticks :
  shutdown_requested st = true -> run cfg st ticks = ([], Some st).
Proof. intros Hs. destruct ticks; cbn [run]; now rewrite Hs. Qed.



End ObserverRun.

(** The cap is that of the summaries: a resource file that the engine
    names "index.md" is written to the path of the index as it comes. *)
Example resource_named_like_the_index (base_dir : list pystr) :
  Skill.resource_path base_dir (lit "index.md") = Skill.index_path base_dir.
Proof. reflexivity. Qed.

(** X14. Whatever the engine returns, every summary the observer loop
    hands to [write_index] over a whole run is non-empty and takes at most
    [max_index_size] bytes in UTF-8, for a cap that is not negative.  This
    is about the calls of [write_index] only, not about what else may be
    written to the same file. *)
Theorem X14_index_writes_fit
  (cfg : Observer.config) (st : Observer.state) (ticks : list Observer.tick) :
  0 <= Observer.max_index_size cfg ->
  Forall (Aux.index_fits (Observer.max_index_size cfg))
         (Observer.run cfg st ticks).1.
Proof.
  intros Hmax. revert st.
  induction ticks as [|t rest IH]; intros st.
  - cbn. destruct (Observer.shutdown_requested st); constructor.
  - destruct (Observer.shutdown_requested st) eqn:Hs.
    + rewrite run_shutdown by assumption. constructor.
    + rewrite run_step by assumption.
      pose proof (iteration_fits cfg st t Hmax) as Hit.
      destruct (Observer.iteration cfg st t) as [[st1 evs] []];
        cbn [fst snd] in *; try exact Hit.
      apply Forall_app. split; [exact Hit|].
      constructor; [exact I|apply IH].
Qed.

Lemma X14_witness :
  Forall (Aux.index_fits 4096)
         (Observer.run LoopExamples.cfg Observer.initial
            [LoopExamples.busy_tick]).1.
Proof.
  apply (X14_index_writes_fit LoopExamples.cfg Observer.initial
           [LoopExamples.busy_tick]).
  vm_compute. discriminate.
Defined.


(** X16. A shutdown signal that arrives while the observer sleeps ends the
    loop at its next test: no further poll is made, no final distillation
    takes place, and the run ends with the sleep.  Messages that were
    pending below the threshold are still pending, undistilled, when the
    loop is left. *)
Theorem X16_shutdown_during_sleep
  (cfg : Observer.config) (st : Observer.state) (t : Observer.tick)
  (rest : list Observer.tick) :
  Observer.shutdown_requested st = false ->
  (Observer.iteration cfg st t).2 = Observer.Continue ->
  Observer.signal_sleeping t = true ->
  Observer.run cfg st (t :: rest)
  = ((Observer.iteration cfg st t).1.2 ++ [Observer.Sleep],
     Some (Observer.State
             (Observer.pending_messages (Observer.iteration cfg st t).1.1)
             (Observer.distill_count (Observer.iteration cfg st t).1.1) true))
  /\ (Observer.pending_messages (Observer.iteration cfg st t).1.1 = []
      \/ (Observer.iteration cfg st t).1.2 = []
         /\ Observer.pending_messages (Observer.iteration cfg st t).1.1
            = Observer.pending_messages st ++ Observer.new_messages t).
Proof.
  intros Hs Hc Hsleep. split.
  - rewrite run_step by assumption.
    destruct (Observer.iteration cfg st t) as [[st1 evs] status];
      cbn [fst snd] in *. subst status. cbv zeta.
    rewrite Hsleep, orb_true_r. now rewrite run_shutdown.
  - revert Hc. unfold Observer.iteration.
    destruct (_ && negb (len _ =? 0)); [|right; now split].
    destruct (Observer.distill_details _) as [result|e];
      [|discriminate].
    destruct (Observer.truthy_details result); [|now left].
    destruct (Observer.update_index _ _ _ _ _) as [evs [e|]];
      [discriminate|now left].
Qed.

(** Two messages arrive, fewer than the threshold of five, and the signal
    comes during the sleep: the loop is left with both still pending. *)
Lemma X16_witness :
  Observer.run LoopExamples.cfg Observer.initial
    [Observer.Tick [LoopExamples.hello; LoopExamples.hello] false NoText
                   false NoText false true]
  = ((Observer.iteration LoopExamples.cfg Observer.initial
        (Observer.Tick [LoopExamples.hello; LoopExamples.hello] false NoText
                       false NoText false true)).1.2 ++ [Observer.Sleep],
     Some (Observer.State
             (Observer.pending_messages
                (Observer.iteration LoopExamples.cfg Observer.initial
                   (Observer.Tick [LoopExamples.hello; LoopExamples.hello]
                      false NoText false NoText false true)).1.1)
             (Observer.distill_count
                (Observer.iteration LoopExamples.cfg Observer.initial
                   (Observer.Tick [LoopExamples.hello; LoopExamples.hello]
                      false NoText false NoText false true)).1.1) true))
  /\ (Observer.pending_messages
        (Observer.iteration LoopExamples.cfg Observer.initial
           (Observer.Tick [LoopExamples.hello; LoopExamples.hello] false
              NoText false NoText false true)).1.1 = []
      \/ (Observer.iteration LoopExamples.cfg Observer.initial
            (Observer.Tick [LoopExamples.hello; LoopExamples.hello] false
               NoText false NoText false true)).1.2 = []
         /\ Observer.pending_messages
              (Observer.iteration LoopExamples.cfg Observer.initial
                 (Observer.Tick [LoopExamples.hello; LoopExamples.hello]
                    false NoText false NoText false true)).1.1
            = Observer.pending_messages Observer.initial
              ++ Observer.new_messages
                   (Observer.Tick [LoopExamples.hello; LoopExamples.hello]
                      false NoText false NoText false true)).
Proof.
  apply (X16_shutdown_during_sleep LoopExamples.cfg Observer.initial
           (Observer.Tick [LoopExamples.hello; LoopExamples.hello] false
              NoText false NoText false true) []); reflexivity.
Defined.


(** ** Applying a decision *)

Section ApplyDecision.

Import Agent.

Variable t : tick.
Variable d : decision.

Lemma record_started_known name running :
  running !! name = None ->
  Aux.running_known t running -> Aux.running_grown t running ->
  Aux.running_known t (record_started t name running)
  /\ Aux.running_grown t (record_started t name running).
Proof.
  intros Hnone Hk Hg. unfold record_started.
  destruct (spawn t name) as [pid|] eqn:Hsp; [|now split].
  destruct (Z.eqb_spec pid 0) as [->|Hpid]; [now split|]. split.
  - intros n p [[<- <-]|[_ Hn]]%lookup_insert_Some; [right; auto|now apply Hk].
  - intros n [Hn _]%lookup_insert_None. now apply Hg.
Qed.

Lemma fold_apply_new l : forall acc : gmap pystr Z * list event,
  (forall n, In n l -> In n (d_new d)) ->
  Aux.running_known t acc.1 -> Aux.running_grown t acc.1 ->
  Forall (Aux.decision_event t d) acc.2 ->
  let acc' := fold_left (apply_new t) l acc in
  Aux.running_known t acc'.1 /\ Aux.running_grown t acc'.1
  /\ Forall (Aux.decision_event t d) acc'.2.
Proof.
  induction l as [|n l IH]; intros [running evs] Hl Hk Hg Hevs;
    cbn [fold_left]; [now split|].
  apply IH; [intros n' Hn'; apply Hl; now right|..]; unfold apply_new;
    destruct (running !! ns_name n) eqn:Hn; cbn [fst snd]; try assumption.
  - now apply record_started_known.
  - now apply record_started_known.
  - apply Forall_app. split; [assumption|]. constructor; [|constructor].
    split; [now apply Hg|]. destruct n as [name description].
    apply Hl. now left.
Qed.

Lemma fold_apply_start l : forall acc : gmap pystr Z * list event,
  (forall n, In n l -> In n (d_start d)) ->
  Aux.running_known t acc.1 -> Aux.running_grown t acc.1 ->
  Forall (Aux.decision_event t d) acc.2 ->
  let acc' := fold_left (apply_start t) l acc in
  Aux.running_known t acc'.1 /\ Aux.running_grown t acc'.1
  /\ Forall (Aux.decision_event t d) acc'.2.
Proof.
  induction l as [|n l IH]; intros [running evs] Hl Hk Hg Hevs;
    cbn [fold_left]; [now split|].
  apply IH; [intros n' Hn'; apply Hl; now right|..]; unfold apply_start;
    destruct (running !! n) eqn:Hn; cbn [fst snd]; try assumption;
    destruct (existsb (str_eqb n) (existing_skills t)) eqn:Hex;
    cbn [fst snd]; try assumption.
  - now apply record_started_known.
  - now apply record_started_known.
  - apply Forall_app. split; [assumption|]. constructor; [|constructor].
    split; [now apply Hg|]. split; [apply Hl; now left|].
    split; [|reflexivity].
    apply existsb_exists in Hex as (x & Hx & ->%str_eqb_eq). exact Hx.
Qed.

Lemma fold_apply_stop l : forall acc : gmap pystr Z * list event,
  (forall n, In n l -> In n (d_stop d)) ->
  Aux.running_known t acc.1 ->
  Forall (Aux.decision_event t d) acc.2 ->
  Forall (Aux.decision_event t d) (fold_left apply_stop l acc).2.
Proof.
  induction l as [|n l IH]; intros [running evs] Hl Hk Hevs;
    cbn [fold_left]; [assumption|].
  apply IH; [intros n' Hn'; apply Hl; now right|..]; unfold apply_stop;
    destruct (running !! n) as [pid|] eqn:Hn; cbn [fst snd]; try assumption.
  - intros n' p [_ Hn']%lookup_delete_Some. now apply Hk.
  - apply Forall_app. split; [assumption|]. constructor; [|constructor].
    split; [apply Hl; now left|]. now apply Hk.
Qed.

End ApplyDecision.

(** X17. What the manager does with a decision is all entitled.  It starts
    an observer only for a skill that was not running when the pass began:
    with the history for a new skill named in the decision, and without it
    for a skill of the start list that is among the existing skills.  It
    stops an observer only for a skill of the stop list, and signals the
    pid the skill was running under or was started with in this pass. *)
Theorem X17_decision_effects_entitled (t : Agent.tick) (d : Agent.decision) :
  Forall (Aux.decision_event t d) (Agent.apply_decision t d).
Proof.
  unfold Agent.apply_decision.
  destruct (fold_apply_new t d (Agent.d_new d) (Agent.running_observers t, []))
    as (Hk1 & Hg1 & He1); cbn [fst snd]; try easy.
  { intros name pid H. now left. }
  destruct (fold_apply_start t d (Agent.d_start d) _ (fun _ H => H) Hk1 Hg1 He1)
    as (Hk2 & _ & He2).
  exact (fold_apply_stop t d (Agent.d_stop d) _ (fun _ H => H) Hk2 He2).
Qed.

(** ** The cache directory of a project *)

Section CacheDir.

Import PathLib Utils.

Lemma startswith_nil s : startswith s [] = true.
Proof. now destruct s. Qed.

Lemma replace_char s a b :
  replace s [a] [b] = map (fun c => if a =? c then b else c) s.
Proof.
  unfold replace. induction s as [|c s IH]; [reflexivity|].
  cbn [replace_go map startswith length Nat.pred].
  rewrite startswith_nil, andb_true_r.
  destruct (a =? c); cbn [app]; now rewrite IH.
Qed.

Lemma cache_name_dashes path_str :
  cache_name path_str = map (fun c => if 47 =? c then 45 else c) path_str.
Proof. apply (replace_char path_str 47 45). Qed.

Lemma cache_name_plain path_str :
  startswith path_str (lit "/") = true ->
  Aux.plain_name (cache_name path_str) = true.
Proof.
  intros Habs. unfold Aux.plain_name.
  assert (Hno : contains (cache_name path_str) SLASH = false).
  { destruct (contains (cache_name path_str) SLASH) eqn:Hc; [|reflexivity].
    apply contains_In in Hc. rewrite cache_name_dashes in Hc.
    apply in_map_iff in Hc as (c & Hc & _).
    destruct (Z.eqb_spec 47 c); [discriminate Hc|]. now symmetry in Hc. }
  rewrite Hno, cache_name_dashes.
  apply startswith_spec in Habs as [rest ->]. reflexivity.
Qed.

End CacheDir.

(** X18. The cache directory of a project is always an entry of
    [~/.claude/projects] itself: for an absolute project path, its name is
    the path with every slash turned into a dash, of the same length and
    free of slashes, so it is one path component whatever the project is
    called. *)
Theorem X18_cache_dir_is_one_component (home : list pystr) (path_str : pystr) :
  startswith path_str (lit "/") = true ->
  Utils.get_project_cache_dir home path_str
  = home ++ [lit ".claude"; lit "projects"; Utils.cache_name path_str]
  /\ ~ In PathLib.SLASH (Utils.cache_name path_str)
  /\ len (Utils.cache_name path_str) = len path_str.
Proof.
  intros Habs. unfold Utils.get_project_cache_dir.
  pose proof (resource_path_plain) as Hjoin. unfold Skill.resource_path in Hjoin.
  rewrite (Hjoin home (lit ".claude") eq_refl).
  rewrite (Hjoin _ (lit "projects") eq_refl).
  rewrite (Hjoin _ _ (cache_name_plain path_str Habs)).
  rewrite <- !app_assoc. split; [reflexivity|].
  apply cache_name_plain, plain_name_spec in Habs as (_ & Hs & _).
  split; [exact Hs|]. rewrite cache_name_dashes. unfold len.
  now rewrite length_map.
Qed.

Lemma X18_witness :
  Utils.get_project_cache_dir [lit "home"; lit "u"] (lit "/work/my-app")
  = [lit "home"; lit "u"]
    ++ [lit ".claude"; lit "projects"; Utils.cache_name (lit "/work/my-app")]
  /\ ~ In PathLib.SLASH (Utils.cache_name (lit "/work/my-app"))
  /\ len (Utils.cache_name (lit "/work/my-app")) = len (lit "/work/my-app").
Proof.
  apply (X18_cache_dir_is_one_component [lit "home"; lit "u"]
           (lit "/work/my-app")).
  reflexivity.
Defined.

(** ** Skipping the history *)

Section SkipExisting.

Import Tracker.

Variable json_loads : pystr -> option json.

(** Reading from an offset sees the bytes after it only. *)
Lemma read_from_offset (before appended : Utf8.bytes) :
  read_messages_from_position json_loads (File (before ++ appended) true)
    (len before)
  = match read_messages_from_position json_loads (File appended true) 0 with
    | Ok (messages, position) => Ok (messages, len before + position)
    | Raise e => Raise e
    end.
Proof.
  unfold read_messages_from_position. cbn [f_readable negb f_bytes].
  replace (len before <? 0) with false
    by (symmetry; apply Z.ltb_ge; unfold len; lia).
  change (0 <? 0) with false. cbv iota.
  rewrite skipn_len_app. change (skipn (Z.to_nat 0) appended) with appended.
  destruct (Utf8.decode_strict appended) as [text|]; [|reflexivity].
  destruct (fold_left _ _ _); reflexivity.
Qed.

(** X19. A tracker that skips existing content reports exactly what is
    appended afterwards.  Its first [update] returns nothing, wherever the
    transcript ends, even in the middle of a line; the next [update], when
    the same transcript is still the most recent and has grown, returns the
    messages of the appended bytes alone, as a read of those bytes from
    their start would, or raises as that read does. *)
Theorem X19_skip_existing_reports_appended
  (d1 d2 : cache_dir) (f1 f2 : cache_entry) (older1 older2 : list cache_entry)
  (appended : Utf8.bytes) :
  find_conversation_files d1 = f1 :: older1 ->
  find_conversation_files d2 = f2 :: older2 ->
  ce_path f2 = ce_path f1 ->
  f_readable (ce_file f2) = true ->
  f_bytes (ce_file f2) = f_bytes (ce_file f1) ++ appended ->
  (update json_loads (init true) d1).2 = Ok []
  /\ (update json_loads (update json_loads (init true) d1).1 d2).2
     = match read_messages_from_position json_loads (File appended true) 0
       with
       | Ok (messages, _) => Ok messages
       | Raise e => Raise e
       end.
Proof.
  intros Hd1 Hd2 Hpath Hread Hbytes.
  unfold update at 1 3. rewrite Hd1. cbn [init current_file same_file negb
    skip_existing initialized andb fst snd].
  split; [reflexivity|].
  unfold update. rewrite Hd2.
  cbn [current_file same_file skip_existing initialized file_position].
  rewrite Hpath, str_eqb_refl. cbn [negb andb].
  destruct (ce_file f2) as [bytes2 readable2] eqn:Hf2.
  cbn [f_readable f_bytes] in Hread, Hbytes. subst readable2 bytes2.
  unfold st_size. rewrite read_from_offset.
  destruct (read_messages_from_position json_loads (File appended true) 0)
    as [[messages position]|e]; reflexivity.
Qed.

End SkipExisting.

(** "Hello" is on file when the tracker starts; "Hi" is appended. *)
Lemma X19_witness :
  (Tracker.update json_loads_basic (Tracker.init true) snapshot1).2 = Ok []
  /\ (Tracker.update json_loads_basic
        (Tracker.update json_loads_basic (Tracker.init true) snapshot1).1
        snapshot2).2
     = match Tracker.read_messages_from_position json_loads_basic
               (Tracker.File (line_hi ++ [NL]) true) 0 with
       | Ok (messages, _) => Ok messages
       | Raise e => Raise e
       end.
Proof.
  apply (X19_skip_existing_reports_appended json_loads_basic
           snapshot1 snapshot2
           (Tracker.CacheEntry conv_path (lit "conv.jsonl") 100
              (Tracker.File (line_hello ++ [NL]) true))
           (Tracker.CacheEntry conv_path (lit "conv.jsonl") 200
              (Tracker.File (line_hello ++ [NL] ++ line_hi ++ [NL]) true))
           [] []); reflexivity.
Defined.

(** ** Scanning the PID files twice *)

Section ScanTwice.

Import PathLib Skill.

Variable py_int : pystr -> option Z.
Variable kill0 : Z -> probe.

(** The scan creates nothing. *)
Lemma fold_pid_creates_nothing (dir : list pystr) q names :
  forall acc : fs * outcome (gmap pystr Z),
  acc.1 !! q = None ->
  (fold_left (pid_step py_int kill0 dir) names acc).1 !! q = None.
Proof.
  induction names as [|n names IH]; intros acc Hacc; [exact Hacc|].
  cbn [fold_left]. apply IH.
  destruct acc as [m [running|e]]; [|exact Hacc].
  cbn [fst] in Hacc. unfold pid_step.
  destruct (entry m (resolve (dir ++ [n]))) as [[text|]|]; try exact Hacc.
  destruct (py_int (strip (read_text text))) as [pid|].
  - destruct (kill0 pid); cbn [fst]; try exact Hacc;
      apply lookup_delete_None; now right.
  - cbn [fst]. apply lookup_delete_None. now right.
Qed.

Lemma scan_creates_nothing (m : fs) (skills_dir : list pystr) q :
  m !! q = None ->
  (get_running_observers py_int kill0 m skills_dir).1 !! q = None.
Proof.
  intros Hq. unfold get_running_observers.
  destruct (negb (exists_ m skills_dir)); [exact Hq|].
  now apply fold_pid_creates_nothing.
Qed.

Lemma scan_without_directory (m : fs) (skills_dir : list pystr) :
  is_dir m skills_dir = false ->
  get_running_observers py_int kill0 m skills_dir = (m, Ok ∅).
Proof.
  intros Hd. unfold get_running_observers, glob. rewrite Hd.
  now destruct (negb (exists_ m skills_dir)).
Qed.

(** X20. A second scan of the PID files changes nothing.  When every PID
    file of the skills root is one the scan can handle and the processes
    answer the probe as before, calling [get_running_observers] again on
    the file system the first call left returns the same mapping and leaves
    the same file system: the stale files are gone after one call and no
    live entry is lost. *)
Theorem X20_second_scan_changes_nothing (m : fs) (skills_dir : list pystr) :
  Aux.pid_files_probeable py_int kill0 m skills_dir = true ->
  get_running_observers py_int kill0
    (get_running_observers py_int kill0 m skills_dir).1 skills_dir
  = get_running_observers py_int kill0 m skills_dir.
Proof.
  intros Hb.
  pose proof (pid_files_probeable_spec py_int kill0 m skills_dir Hb)
    as Hfiles.
  destruct (is_dir m skills_dir) eqn:Hdir.
  2: { rewrite (scan_without_directory m skills_dir Hdir). cbn [fst].
       exact (scan_without_directory m skills_dir Hdir). }
  pose proof (fun s => not_listed_without_file py_int kill0 m skills_dir s)
    as Hnot.
  pose proof (scan_creates_nothing m skills_dir) as Hsub.
  destruct (get_running_observers_spec py_int kill0 m skills_dir Hdir Hfiles)
    as (m' & running & Hscan & Hlisted & Hframe).
  rewrite Hscan in Hnot, Hsub |- *. cbn [fst snd Aux.listed] in Hnot, Hsub |- *.
  assert (Hpid : forall s, is_pid_name (pid_name s) = true)
    by (intros s; apply is_pid_name_spec; now exists s).
  (* what the first scan leaves of a PID file *)
  assert (Hkept : forall s x,
            m' !! (resolve skills_dir ++ [pid_name s]) = Some x ->
            exists text pid,
              x = File text
              /\ m !! (resolve skills_dir ++ [pid_name s]) = Some (File text)
              /\ Aux.pid_verdict py_int kill0 text = Some pid
              /\ running !! s = Some pid).
  { intros s x Hx.
    destruct (m !! (resolve skills_dir ++ [pid_name s])) as [x0|] eqn:Hm.
    - destruct (Hfiles _ _ (Hpid s) Hm) as (text & -> & _).
      specialize (Hlisted s text Hm).
      destruct (Aux.pid_verdict py_int kill0 text) as [pid|] eqn:Hv.
      + destruct Hlisted as [Hr Hm']. exists text, pid.
        rewrite Hm' in Hx. injection Hx as <-. auto.
      + destruct Hlisted as [_ Hm']. congruence.
    - rewrite (Hsub _ Hm) in Hx. discriminate Hx. }
  assert (Hdir' : is_dir m' skills_dir = true).
  { unfold is_dir in *. destruct (resolve skills_dir) as [|c r] eqn:Hr;
      [reflexivity|]. cbn [entry] in *.
    rewrite Hframe; [exact Hdir|].
    intros n _ Heq. apply (f_equal (@length pystr)) in Heq.
    rewrite length_app in Heq. cbn in Heq. lia. }
  assert (Hfiles' : forall n x, is_pid_name n = true ->
            m' !! (resolve skills_dir ++ [n]) = Some x ->
            exists text, x = File text
                         /\ Aux.probeable py_int kill0 text = true).
  { intros n x [s ->]%is_pid_name_spec Hx.
    destruct (Hkept s x Hx) as (text & pid & -> & Hm & _ & _).
    destruct (Hfiles _ _ (Hpid s) Hm) as (text' & [= <-] & Hp).
    now exists text. }
  pose proof (fun s => not_listed_without_file py_int kill0 m' skills_dir s)
    as Hnot'.
  pose proof (scan_creates_nothing m' skills_dir) as Hsub'.
  destruct (get_running_observers_spec py_int kill0 m' skills_dir Hdir' Hfiles')
    as (m'' & running' & Hscan' & Hlisted' & Hframe').
  rewrite Hscan' in Hnot', Hsub' |- *.
  cbn [fst snd Aux.listed] in Hnot', Hsub'.
  f_equal; [|f_equal]; apply map_eq.
  - intros q.
    destruct (child_name (resolve skills_dir) q) as [n|] eqn:Hc.
    + apply child_name_spec in Hc as ->.
      destruct (is_pid_name n) eqn:Hn.
      * apply is_pid_name_spec in Hn as [s ->].
        destruct (m' !! (resolve skills_dir ++ [pid_name s])) as [x|] eqn:Hm'.
        -- destruct (Hkept s x Hm') as (text & pid & -> & _ & Hv & _).
           specialize (Hlisted' s text Hm'). rewrite Hv in Hlisted'.
           exact (proj2 Hlisted').
        -- now apply Hsub'.
      * apply Hframe'. intros n' Hn' Heq. apply app_inv_head in Heq.
        injection Heq as <-. congruence.
    + apply Hframe'. intros n' _ ->.
      rewrite (proj2 (child_name_spec _ _ n') eq_refl) in Hc. discriminate Hc.
  - intros s.
    destruct (m' !! (resolve skills_dir ++ [pid_name s])) as [x|] eqn:Hm'.
    + destruct (Hkept s x Hm') as (text & pid & -> & _ & Hv & Hr).
      specialize (Hlisted' s text Hm'). rewrite Hv in Hlisted'.
      rewrite Hr. exact (proj1 Hlisted').
    + rewrite (Hnot' s Hm').
      destruct (m !! (resolve skills_dir ++ [pid_name s])) as [x0|] eqn:Hm.
      * destruct (Hfiles _ _ (Hpid s) Hm) as (text & -> & _).
        specialize (Hlisted s text Hm).
        destruct (Aux.pid_verdict py_int kill0 text) as [pid|].
        -- destruct Hlisted as [_ Hm'']. congruence.
        -- symmetry. exact (proj1 Hlisted).
      * symmetry. exact (Hnot s Hm).
Qed.

End ScanTwice.

(** The example root: after one scan the files of "db" and "old" are gone
    and "web" is listed; a second scan finds the same. *)
Lemma X20_witness :
  Skill.get_running_observers int_ascii LoopExamples.probe_example
    (Skill.get_running_observers int_ascii LoopExamples.probe_example
       LoopExamples.root_fs LoopExamples.skills_root).1
    LoopExamples.skills_root
  = Skill.get_running_observers int_ascii LoopExamples.probe_example
      LoopExamples.root_fs LoopExamples.skills_root.
Proof.
  apply (X20_second_scan_changes_nothing int_ascii LoopExamples.probe_example
           LoopExamples.root_fs LoopExamples.skills_root).
  vm_compute. reflexivity.
Defined.

(** ** The final distillation *)

(** X21. A shutdown signal that arrives while the observer polls, with
    messages pending, leads to a final distillation: the pass hands all
    pending messages to the distiller, below the threshold or not, and the
    loop ends with that pass, however the engine answers. *)
Theorem X21_final_distillation_on_shutdown
  (cfg : Observer.config) (st : Observer.state) (t : Observer.tick)
  (rest : list Observer.tick) :
  Observer.shutdown_requested st = false ->
  Observer.signal_polling t = true ->
  Observer.pending_messages st ++ Observer.new_messages t <> [] ->
  exists (evs : list Observer.event) (fin : Observer.state),
    Observer.run cfg st (t :: rest)
    = (Observer.Distill
         (Observer.pending_messages st ++ Observer.new_messages t) :: evs,
       Some fin)
    /\ Observer.shutdown_requested fin = true.
Proof.
  intros Hs Hsig Hne. rewrite run_step by assumption.
  unfold Observer.iteration. rewrite Hs, Hsig. cbn [orb andb].
  assert (Hlen : (len (Observer.pending_messages st
                       ++ Observer.new_messages t) =? 0) = false).
  { apply Z.eqb_neq. unfold len.
    destruct (Observer.pending_messages st ++ Observer.new_messages t);
      [contradiction|]. cbn [length]. lia. }
  rewrite Hlen. cbn [negb]. rewrite orb_true_r. cbn [andb].
  destruct (Observer.distill_details _) as [result|e];
    [|now eexists _, _].
  destruct (Observer.truthy_details result) as [d|]; [|now eexists _, _].
  destruct (Observer.update_index _ _ _ _ _) as [ievs [e|]];
    now eexists _, _.
Qed.

(** One message is pending when the signal comes. *)
Lemma X21_witness :
  exists (evs : list Observer.event) (fin : Observer.state),
    Observer.run LoopExamples.cfg Observer.initial [LoopExamples.last_tick]
    = (Observer.Distill
         (Observer.pending_messages Observer.initial
          ++ Observer.new_messages LoopExamples.last_tick) :: evs,
       Some fin)
    /\ Observer.shutdown_requested fin = true.
Proof.
  apply (X21_final_distillation_on_shutdown LoopExamples.cfg Observer.initial
           LoopExamples.last_tick []); [reflexivity|reflexivity|discriminate].
Defined.
